(** * abonos-LS: the accrual and payment-allocation ledger

    A shallow embedding of the bookkeeping rules shared by the three
    front-ends of the repository:

    - [Cli]          the text-menu program (abonos.py),
    - [Streamlit]    the first web dashboard (app.py),
    - [StreamlitV2]  the second web dashboard (appv2.py).

    Money is a Python [float] in the source.  Here it is an exact rational
    ([Q]); equalities between amounts are therefore stated with [==].  A
    test of the source against the tolerance 0.01 is made in binary64: it
    can differ from the exact test only when the two sides are within
    rounding distance, which for amounts in whole cents means an amount
    exactly 0.01 away from the bound.  The clamps of manual allocation are
    therefore also given in binary64 ([ajustar_monto_f]).  The SQLite
    database is a record of row lists, one list per table, in rowid order,
    with the AUTOINCREMENT counters of the tables that the ledger inserts
    into. *)

From Stdlib Require Import Floats.
From Stdlib Require Import ZArith QArith Qminmax Qabs Lqa Lia List Bool String.
From Stdlib Require Import Sorting.Sorted Sorting.Permutation.
Import ListNotations.

Local Open Scope Q_scope.

(** A decimal literal in [float_scope] is the nearest binary64 value, as in
    Python. *)
Set Warnings "-inexact-float".

(** ** Amounts *)

(** The tolerance used by every "effectively zero" comparison: [0.01]. *)
Definition eps : Q := 0.01.

Definition Qltb (x y : Q) : bool := negb (Qle_bool y x).

(** Python's [max(a, b)]: the first argument unless the second is greater. *)
Definition py_max (a b : Q) : Q := if Qltb a b then b else a.

(** Python's [min(a, b)]: the first argument unless the second is smaller. *)
Definition py_min (a b : Q) : Q := if Qltb b a then b else a.

(** [COALESCE(SUM(monto), 0)] over the selected rows. *)
Definition sum_montos (l : list Q) : Q := fold_right Qplus 0 l.

(** ** Dates *)

Module Fecha.

Record date : Type := mkdate { year : Z; month : Z; day : Z }.

Definition leap (y : Z) : bool :=
  ((y mod 4 =? 0) && (negb (y mod 100 =? 0) || (y mod 400 =? 0)))%Z.

Definition days_in_month (y m : Z) : Z :=
  (if m =? 2 then (if leap y then 29 else 28)
   else if (m =? 4) || (m =? 6) || (m =? 9) || (m =? 11) then 30
   else 31)%Z.

(** [datetime.date(y, m, d)]: raises [ValueError] outside the calendar. *)
Definition make (y m d : Z) : option date :=
  if ((1 <=? y) && (y <=? 9999) && (1 <=? m) && (m <=? 12)
      && (1 <=? d) && (d <=? days_in_month y m))%Z
  then Some (mkdate y m d) else None.

(** [d - timedelta(days=1)]; [OverflowError] before 0001-01-01. *)
Definition pred_day (d : date) : option date :=
  (if 1 <? day d then Some (mkdate (year d) (month d) (day d - 1))
   else if 1 <? month d
        then Some (mkdate (year d) (month d - 1) (days_in_month (year d) (month d - 1)))
        else if 1 <? year d then Some (mkdate (year d - 1) 12 31) else None)%Z.

(** Comparison of [date] objects: lexicographic on (year, month, day). *)
Definition ltb (a b : date) : bool :=
  ((year a <? year b)
   || ((year a =? year b)
       && ((month a <? month b)
           || ((month a =? month b) && (day a <? day b)))))%Z.

Definition gtb (a b : date) : bool := ltb b a.

End Fecha.

Import Fecha.

(** [ultimo_dia_mes(anyo, mes)] of app.py and appv2.py.  The [None] result
    stands for the exception that [date(...)] raises on an impossible date. *)
Definition ultimo_dia_mes (anyo mes : Z) : option date :=
  if (mes =? 12)%Z then make anyo 12 31
  else match make anyo (mes + 1) 1 with
       | Some d => pred_day d
       | None => None
       end.

(** ** The relational store *)

Inductive frontend : Type := Cli | Streamlit | StreamlitV2.

Record Cliente : Type := mkCliente
  { cl_id : Z; cl_activo : bool }.

Record Plan : Type := mkPlan
  { pl_id : Z;
    pl_cliente_id : Z;
    pl_importe : Q;
    pl_fecha_inicio : date;
    pl_fecha_fin : option date;
    pl_activo : bool }.

Record Devengamiento : Type := mkDevengamiento
  { dv_id : Z;
    dv_cliente_id : Z;
    dv_plan_id : option Z;
    dv_periodo_anyo : Z;
    dv_periodo_mes : Z;
    dv_importe : Q;
    dv_fecha_devengada : date }.

Record Cobro : Type := mkCobro
  { cb_id : Z;
    cb_cliente_id : Z;
    cb_fecha : date;
    cb_importe : Q }.

(** A row of [devengamientos_cobros]: one payment allocation. *)
Record Imputacion : Type := mkImputacion
  { im_id : Z;
    im_devengamiento_id : Z;
    im_cobro_id : Z;
    im_monto : Q }.

Record Ajuste : Type := mkAjuste
  { aj_id : Z;
    aj_cliente_id : Z;
    aj_fecha : date;
    aj_descripcion : string;
    aj_monto : Q;
    aj_tipo : string;
    aj_referencia_devengamiento_id : option Z }.

Record Store : Type := mkStore
  { clientes : list Cliente;
    planes : list Plan;
    devengamientos : list Devengamiento;
    cobros : list Cobro;
    devengamientos_cobros : list Imputacion;
    ajustes : list Ajuste;
    seq_devengamientos : Z;
    seq_cobros : Z;
    seq_devengamientos_cobros : Z;
    seq_ajustes : Z }.

Definition empty_store : Store :=
  mkStore [] [] [] [] [] [] 0 0 0 0.

Definition opt_Z_eqb (a b : option Z) : bool :=
  match a, b with
  | Some x, Some y => (x =? y)%Z
  | None, None => true
  | _, _ => false
  end.

(** [SELECT COUNT(1) FROM clientes WHERE id=?] is positive. *)
Definition cliente_exists (s : Store) (cliente_id : Z) : bool :=
  existsb (fun c => (cl_id c =? cliente_id)%Z) (clientes s).

Definition plan_exists (s : Store) (plan_id : Z) : bool :=
  existsb (fun p => (pl_id p =? plan_id)%Z) (planes s).

Definition devengamiento_exists (s : Store) (deveng_id : Z) : bool :=
  existsb (fun d => (dv_id d =? deveng_id)%Z) (devengamientos s).

Definition cobro_exists (s : Store) (cobro_id : Z) : bool :=
  existsb (fun c => (cb_id c =? cobro_id)%Z) (cobros s).

(** ** Balance calculator *)

(** [SELECT COALESCE(SUM(monto),0) FROM devengamientos_cobros
     WHERE devengamiento_id=?] *)
Definition aplicado (s : Store) (deveng_id : Z) : Q :=
  sum_montos
    (map im_monto
       (filter (fun i => (im_devengamiento_id i =? deveng_id)%Z)
          (devengamientos_cobros s))).

(** [SELECT COALESCE(SUM(monto),0) FROM ajustes
     WHERE referencia_devengamiento_id=?] *)
Definition ajustes_de (s : Store) (deveng_id : Z) : Q :=
  sum_montos
    (map aj_monto
       (filter (fun a => opt_Z_eqb (aj_referencia_devengamiento_id a) (Some deveng_id))
          (ajustes s))).

(** [devengamiento_saldo(deveng_id)], the same in the three front-ends. *)
Definition devengamiento_saldo (s : Store) (deveng_id : Z) : Q :=
  match find (fun d => (dv_id d =? deveng_id)%Z) (devengamientos s) with
  | None => 0
  | Some row =>
      let importe := dv_importe row in
      let saldo := importe + ajustes_de s deveng_id - aplicado s deveng_id in
      py_max 0 saldo
  end.

(** ** Inserts, as the schema of each front-end constrains them

    Every connection runs [PRAGMA foreign_keys = ON].  Only the schema of the
    text-menu program declares CHECK constraints.  A [None] result is the
    [sqlite3.IntegrityError] raised by the statement, which changes nothing.
    The [seq_*] fields are the AUTOINCREMENT counters: the largest rowid ever
    used in the table.

    The three programs open the same file, abonos.db, and each creates the
    tables that it does not find (CREATE TABLE IF NOT EXISTS): the
    constraints in force are those of the program that created the tables.
    The front-end argument of an insert names that program.  The operations
    of a front-end are given below on tables of its own making;
    [registrar_ajuste_web_en] takes the schema apart from the acting
    dashboard. *)

Definition has_checks (fe : frontend) : bool :=
  match fe with Cli => true | _ => false end.

(** [SELECT COUNT(1) FROM devengamientos WHERE cliente_id=? AND plan_id=?
     AND periodo_anyo=? AND periodo_mes=?] is positive. *)
Definition existe_devengamiento (s : Store) (cliente_id plan_id anyo mes : Z) : bool :=
  existsb (fun d => (dv_cliente_id d =? cliente_id)%Z
                    && opt_Z_eqb (dv_plan_id d) (Some plan_id)
                    && (dv_periodo_anyo d =? anyo)%Z
                    && (dv_periodo_mes d =? mes)%Z)
          (devengamientos s).

Definition insert_devengamiento (fe : frontend) (s : Store)
    (cliente_id plan_id anyo mes : Z) (importe : Q) (fecha : date) : option Store :=
  if cliente_exists s cliente_id
     && plan_exists s plan_id
     && negb (existe_devengamiento s cliente_id plan_id anyo mes)
     && (if has_checks fe
         then Qle_bool 0 importe && (1 <=? mes)%Z && (mes <=? 12)%Z
         else true)
  then
    let id := (seq_devengamientos s + 1)%Z in
    Some (mkStore (clientes s) (planes s)
            (devengamientos s
               ++ [mkDevengamiento id cliente_id (Some plan_id) anyo mes importe fecha])
            (cobros s) (devengamientos_cobros s) (ajustes s)
            id (seq_cobros s) (seq_devengamientos_cobros s) (seq_ajustes s))
  else None.

Definition insert_cobro (fe : frontend) (s : Store)
    (cliente_id : Z) (fecha : date) (importe : Q) : option (Store * Z) :=
  if cliente_exists s cliente_id
     && (if has_checks fe then Qltb 0 importe else true)
  then
    let id := (seq_cobros s + 1)%Z in
    Some (mkStore (clientes s) (planes s) (devengamientos s)
            (cobros s ++ [mkCobro id cliente_id fecha importe])
            (devengamientos_cobros s) (ajustes s)
            (seq_devengamientos s) id (seq_devengamientos_cobros s) (seq_ajustes s),
          id)
  else None.

Definition insert_imputacion (fe : frontend) (s : Store)
    (deveng_id cobro_id : Z) (monto : Q) : option Store :=
  if devengamiento_exists s deveng_id
     && cobro_exists s cobro_id
     && (if has_checks fe then Qltb 0 monto else true)
  then
    let id := (seq_devengamientos_cobros s + 1)%Z in
    Some (mkStore (clientes s) (planes s) (devengamientos s) (cobros s)
            (devengamientos_cobros s ++ [mkImputacion id deveng_id cobro_id monto])
            (ajustes s)
            (seq_devengamientos s) (seq_cobros s) id (seq_ajustes s))
  else None.

Definition tipos_permitidos : list string :=
  ["bonificacion"; "recargo"; "adicional"; "nota_credito"; "nota_debito"; "otro"]%string.

Definition tipo_permitido (t : string) : bool :=
  existsb (String.eqb t) tipos_permitidos.

(** [descripcion] is [None] when the statement binds SQL NULL to the
    NOT NULL column. *)
Definition insert_ajuste (fe : frontend) (s : Store)
    (cliente_id : Z) (fecha : date) (descripcion : option string) (monto : Q)
    (tipo : string) (ref_id : option Z) : option (Store * Z) :=
  match descripcion with
  | None => None
  | Some texto =>
      if cliente_exists s cliente_id
         && match ref_id with
            | Some r => devengamiento_exists s r
            | None => true
            end
         && (if has_checks fe then tipo_permitido tipo else true)
      then
        let id := (seq_ajustes s + 1)%Z in
        Some (mkStore (clientes s) (planes s) (devengamientos s) (cobros s)
                (devengamientos_cobros s)
                (ajustes s ++ [mkAjuste id cliente_id fecha texto monto tipo ref_id])
                (seq_devengamientos s) (seq_cobros s)
                (seq_devengamientos_cobros s) id,
              id)
      else None
  end.

(** ** Accrual generator *)

(** [SELECT p.* FROM planes p JOIN clientes c ON p.cliente_id = c.id
     WHERE p.activo = 1 AND c.activo = 1] *)
Definition planes_a_procesar (s : Store) : list Plan :=
  flat_map
    (fun p =>
       map (fun _ => p)
         (filter (fun c => (cl_id c =? pl_cliente_id p)%Z && cl_activo c) (clientes s)))
    (filter pl_activo (planes s)).

(** The in-force test of the text-menu program: the plan must have started by
    the first day of the month, and an end date must reach day 28. *)
Definition vigente_cli (periodo_start : date) (p : Plan) : bool :=
  if gtb (pl_fecha_inicio p) periodo_start then false
  else match pl_fecha_fin p with
       | Some fecha_fin =>
           let periodo_end := mkdate (year periodo_start) (month periodo_start) 28 in
           if ltb fecha_fin periodo_end then false else true
       | None => true
       end.

(** The in-force test of the two dashboards. *)
Definition vigente_web (periodo_start periodo_end : date) (p : Plan) : bool :=
  if gtb (pl_fecha_inicio p) periodo_end then false
  else match pl_fecha_fin p with
       | Some fecha_fin => if ltb fecha_fin periodo_start then false else true
       | None => true
       end.

Definition vigente (fe : frontend) (periodo_start periodo_end : date) (p : Plan) : bool :=
  match fe with
  | Cli => vigente_cli periodo_start p
  | Streamlit | StreamlitV2 => vigente_web periodo_start periodo_end p
  end.

(** The date written to [fecha_devengada]. *)
Definition fecha_dev (fe : frontend) (periodo_start periodo_end : date) : date :=
  match fe with
  | Cli => periodo_start
  | Streamlit | StreamlitV2 => periodo_end
  end.

Inductive resultado_plan : Type := Creado | Omitido | Fallo.

(** The body of the [for p in planes] loop. *)
Definition procesar_plan (fe : frontend) (anyo mes : Z)
    (periodo_start periodo_end : date) (s : Store) (p : Plan) : Store * resultado_plan :=
  if negb (vigente fe periodo_start periodo_end p) then (s, Omitido)
  else if existe_devengamiento s (pl_cliente_id p) (pl_id p) anyo mes then (s, Omitido)
  else match insert_devengamiento fe s (pl_cliente_id p) (pl_id p) anyo mes
               (pl_importe p) (fecha_dev fe periodo_start periodo_end) with
       | Some s' => (s', Creado)
       | None => (s, Fallo)
       end.

Record conteo : Type := mkConteo { created : nat; skipped : nat; errors : nat }.

Definition contar (c : conteo) (r : resultado_plan) : conteo :=
  match r with
  | Creado => mkConteo (S (created c)) (skipped c) (errors c)
  | Omitido => mkConteo (created c) (S (skipped c)) (errors c)
  | Fallo => mkConteo (created c) (skipped c) (S (errors c))
  end.

Fixpoint generar_loop (fe : frontend) (anyo mes : Z) (periodo_start periodo_end : date)
    (rows : list Plan) (s : Store) (c : conteo) : Store * conteo :=
  match rows with
  | [] => (s, c)
  | p :: rest =>
      let '(s', r) := procesar_plan fe anyo mes periodo_start periodo_end s p in
      generar_loop fe anyo mes periodo_start periodo_end rest s' (contar c r)
  end.

(** [ultimo_dia_mes] of appv2.py falls back to day 28 when the computation
    raises. *)
Definition ultimo_dia_mes_v2 (anyo mes : Z) : option date :=
  match ultimo_dia_mes anyo mes with
  | Some d => Some d
  | None => make anyo mes 28
  end.

Definition periodo_end_de (fe : frontend) (anyo mes : Z) : option date :=
  match fe with
  | Cli => make anyo mes 28
  | Streamlit => ultimo_dia_mes anyo mes
  | StreamlitV2 => ultimo_dia_mes_v2 anyo mes
  end.

Inductive gen_result : Type :=
| MesInvalido
| ErrorGeneral
| Generado (c : conteo).

(** The generation of one period, after the month and year have been read.
    [ErrorGeneral] is an exception raised outside the per-plan [try]. *)
Definition generar (fe : frontend) (s : Store) (anyo mes : Z) : Store * gen_result :=
  match make anyo mes 1, periodo_end_de fe anyo mes with
  | Some periodo_start, Some periodo_end =>
      let '(s', c) :=
        generar_loop fe anyo mes periodo_start periodo_end
          (planes_a_procesar s) s (mkConteo 0 0 0) in
      (s', Generado c)
  | _, _ => (s, ErrorGeneral)
  end.

(** Python truth value of an optional integer: [None] and [0] are false. *)
Definition truthy (x : option Z) : bool :=
  match x with
  | Some v => negb (v =? 0)%Z
  | None => false
  end.

(** [generate_devengamientos_for(month, year)] of the text-menu program;
    [hoy] is [date.today()]. *)
Definition generate_devengamientos_for (s : Store) (hoy : date)
    (month year : option Z) : Store * gen_result :=
  let month := if truthy month then match month with Some m => m | None => 0%Z end
               else Fecha.month hoy in
  let year := if truthy year then match year with Some y => y | None => 0%Z end
              else Fecha.year hoy in
  if negb ((1 <=? month)%Z && (month <=? 12)%Z) then (s, MesInvalido)
  else generar Cli s year month.

(** The conditions of [insert_devengamiento] that do not depend on the
    accruals already stored. *)
Definition insertable (fe : frontend) (mes : Z) (s : Store) (p : Plan) : bool :=
  cliente_exists s (pl_cliente_id p) && plan_exists s (pl_id p)
  && (if has_checks fe
      then Qle_bool 0 (pl_importe p) && (1 <=? mes)%Z && (mes <=? 12)%Z
      else true).

(** ** Payment allocator *)

(** [ORDER BY d.periodo_anyo, d.periodo_mes, d.id] *)
Definition clave_leb (a b : Devengamiento) : bool :=
  ((dv_periodo_anyo a <? dv_periodo_anyo b)
   || ((dv_periodo_anyo a =? dv_periodo_anyo b)
       && ((dv_periodo_mes a <? dv_periodo_mes b)
           || ((dv_periodo_mes a =? dv_periodo_mes b)
               && (dv_id a <=? dv_id b)))))%Z.

Fixpoint insertar_ordenado (d : Devengamiento) (l : list Devengamiento)
  : list Devengamiento :=
  match l with
  | [] => [d]
  | x :: rest => if clave_leb d x then d :: l else x :: insertar_ordenado d rest
  end.

Definition ordenar (l : list Devengamiento) : list Devengamiento :=
  fold_right insertar_ordenado [] l.

(** [SELECT d.* FROM devengamientos d WHERE d.cliente_id=?
     ORDER BY d.periodo_anyo, d.periodo_mes, d.id] *)
Definition devengamientos_de (s : Store) (cliente_id : Z) : list Devengamiento :=
  ordenar (filter (fun d => (dv_cliente_id d =? cliente_id)%Z) (devengamientos s)).

(** Which state a balance query sees while an allocation is being written.
    The dashboards share one cached connection, so [devengamiento_saldo] reads
    the rows inserted so far ([cur]).  The text-menu program opens a new
    connection inside [devengamiento_saldo] and [devengamiento_exists], which
    reads the last committed state ([snap]): the caller's transaction is still
    open. *)
Definition vista (fe : frontend) (snap cur : Store) : Store :=
  match fe with
  | Cli => snap
  | Streamlit | StreamlitV2 => cur
  end.

(** Result of an allocation loop: the written state, the remaining amount
    and whether the loop ran to its end ([false]: an insert raised). *)
Record imputado : Type := mkImputado
  { r_store : Store; r_restante : Q; r_ok : bool }.

(** The [for d in devs] loop of [imputar_automatico] and
    [imputar_automatico_db]. *)
Fixpoint imputar_loop (fe : frontend) (snap : Store) (cobro_id : Z)
    (devs : list Devengamiento) (cur : Store) (restante : Q) : imputado :=
  match devs with
  | [] => mkImputado cur restante true
  | d :: rest =>
      if Qle_bool restante eps then mkImputado cur restante true
      else
        let saldo := devengamiento_saldo (vista fe snap cur) (dv_id d) in
        if Qle_bool saldo eps then imputar_loop fe snap cobro_id rest cur restante
        else
          let monto := py_min restante saldo in
          match insert_imputacion fe cur (dv_id d) cobro_id monto with
          | Some cur' => imputar_loop fe snap cobro_id rest cur' (restante - monto)
          | None => mkImputado cur restante false
          end
  end.

(** Automatic allocation.  The second component is the returned (dashboards)
    or reported (text menu) remainder; when an insert raises, app.py
    propagates the exception, appv2.py returns [importe] and the text menu
    reports nothing.  [snap] is the committed state, [cur] the state seen by
    the cursor. *)
Definition imputar_automatico (fe : frontend) (snap cur : Store)
    (cobro_id cliente_id : Z) (importe : Q) : Store * option Q :=
  let devs := devengamientos_de cur cliente_id in
  let r := imputar_loop fe snap cobro_id devs cur importe in
  if r_ok r then (r_store r, Some (r_restante r))
  else match fe with
       | StreamlitV2 => (r_store r, Some importe)
       | Cli | Streamlit => (r_store r, None)
       end.

(** [imputar_automatico_db(cobro_id, cliente_id, importe)] of the dashboards:
    the function works on the cached connection, so its balance queries and
    its inserts see the same state. *)
Definition imputar_automatico_db (fe : frontend) (s : Store)
    (cobro_id cliente_id : Z) (importe : Q) : Store * option Q :=
  imputar_automatico fe s s cobro_id cliente_id importe.

(** What happened to one item of a manual directive. *)
Inductive resultado_par : Type :=
| Malformado
| MontoInvalido
| NoExiste (did : Z)
| SinMonto (did : Z)
| Aplicado (did : Z) (monto : Q).

(** The two clamps of [imputar_manual], in the order of the source, in
    exact arithmetic.  The binary64 tests of the source agree with these
    whenever the amount is at most the bound or exceeds it by more than 0.01
    plus the rounding of the sum; [ajustar_monto_f] below is the source's
    own arithmetic. *)
Definition ajustar_monto (monto saldo restante : Q) : Q :=
  let monto := if Qltb (saldo + eps) monto then saldo else monto in
  if Qltb (restante + eps) monto then restante else monto.

(** The same two statements on Python floats:
    [if monto > saldo + 0.01: monto = saldo] and
    [if monto > restante + 0.01: monto = restante]. *)
Definition ajustar_monto_f (monto saldo restante : float) : float :=
  let monto := if PrimFloat.ltb (saldo + 0.01)%float monto then saldo else monto in
  if PrimFloat.ltb (restante + 0.01)%float monto then restante else monto.

(** One item [did:monto] of a directive in binary64, for an existing accrual
    whose balance is [saldo] and a payment with [restante] left: the amount
    of the row that is inserted, [None] when the item is skipped
    ([if monto <= 0: continue], before and after the clamps). *)
Definition par_manual_f (monto saldo restante : float) : option float :=
  if PrimFloat.leb monto 0%float then None
  else
    let monto := ajustar_monto_f monto saldo restante in
    if PrimFloat.leb monto 0%float then None else Some monto.

(** The [for p in pairs] loop of [imputar_manual] (text menu only).  An item
    is [None] when splitting or parsing it raises [ValueError]. *)
Fixpoint manual_loop (snap : Store) (cobro_id : Z)
    (pairs : list (option (Z * Q))) (cur : Store) (restante : Q)
  : imputado * list resultado_par :=
  match pairs with
  | [] => (mkImputado cur restante true, [])
  | None :: rest =>
      let '(r, out) := manual_loop snap cobro_id rest cur restante in
      (r, Malformado :: out)
  | Some (did, monto) :: rest =>
      if Qle_bool monto 0 then
        let '(r, out) := manual_loop snap cobro_id rest cur restante in
        (r, MontoInvalido :: out)
      else if negb (devengamiento_exists snap did) then
        let '(r, out) := manual_loop snap cobro_id rest cur restante in
        (r, NoExiste did :: out)
      else
        let saldo := devengamiento_saldo snap did in
        let monto := ajustar_monto monto saldo restante in
        if Qle_bool monto 0 then
          let '(r, out) := manual_loop snap cobro_id rest cur restante in
          (r, SinMonto did :: out)
        else
          match insert_imputacion Cli cur did cobro_id monto with
          | None => (mkImputado cur restante false, [])
          | Some cur' =>
              let restante := restante - monto in
              if Qle_bool restante eps
              then (mkImputado cur' restante true, [Aplicado did monto])
              else
                let '(r, out) := manual_loop snap cobro_id rest cur' restante in
                (r, Aplicado did monto :: out)
          end
  end.

(** [imputar_manual(cur, cobro_id, cliente_id, importe)]; the directive is
    the line typed by the operator.  The accruals of the client are listed
    for the operator (newest first in the source); the allocation only
    depends on whether there are any. *)
Definition imputar_manual (snap cur : Store) (cobro_id cliente_id : Z)
    (importe : Q) (pairs : list (option (Z * Q)))
  : imputado * list resultado_par :=
  match devengamientos_de cur cliente_id with
  | [] => (mkImputado cur importe true, [])
  | _ :: _ => manual_loop snap cobro_id pairs cur importe
  end.

(** ** Recording a payment *)

Inductive modo : Type :=
| Automatico
| Manual (pairs : list (option (Z * Q)))
| SinImputar.

Inductive cobro_result : Type :=
| CobroRechazado
| CobroError
| CobroRegistrado (cobro_id : Z) (restante : option Q).

(** Validation in front of the INSERT: the text menu checks the client and a
    positive amount, appv2.py a selected client and a positive amount, app.py
    only a selected client. *)
Definition cobro_valido (fe : frontend) (s : Store) (cliente_id : Z) (importe : Q) : bool :=
  match fe with
  | Cli => cliente_exists s cliente_id && negb (Qle_bool importe 0)
  | Streamlit => negb (cliente_id =? 0)%Z
  | StreamlitV2 => negb (cliente_id =? 0)%Z && negb (Qle_bool importe 0)
  end.

(** The dashboards always allocate automatically. *)
Definition modo_de (fe : frontend) (m : modo) : modo :=
  match fe with
  | Cli => m
  | Streamlit | StreamlitV2 => Automatico
  end.

(** [record_cobro] of the text menu and the payment form of the dashboards:
    insert the payment, commit, allocate, commit. *)
Definition record_cobro (fe : frontend) (s : Store) (cliente_id : Z) (fecha : date)
    (importe : Q) (m : modo) : Store * cobro_result :=
  if negb (cobro_valido fe s cliente_id importe) then (s, CobroRechazado)
  else match insert_cobro fe s cliente_id fecha importe with
       | None => (s, CobroError)
       | Some (s1, cobro_id) =>
           match modo_de fe m with
           | Automatico =>
               let '(s2, restante) :=
                 match fe with
                 | Cli => imputar_automatico Cli s1 s1 cobro_id cliente_id importe
                 | Streamlit | StreamlitV2 =>
                     imputar_automatico_db fe s1 cobro_id cliente_id importe
                 end in
               (s2, CobroRegistrado cobro_id restante)
           | Manual pairs =>
               let '(r, _) := imputar_manual s1 s1 cobro_id cliente_id importe pairs in
               (r_store r, CobroRegistrado cobro_id
                              (if r_ok r then Some (r_restante r) else None))
           | SinImputar => (s1, CobroRegistrado cobro_id None)
           end
       end.

(** ** Adjustment recorder *)

Inductive ajuste_result : Type :=
| AjusteRechazado
| AjusteError
| AjusteRegistrado (ajuste_id : Z) (sin_referencia : bool).

(** [if ref_id and not devengamiento_exists(ref_id): ref_id = None].  The
    flag tells whether the warning was shown. *)
Definition limpiar_referencia (s : Store) (ref_id : option Z) : option Z * bool :=
  match ref_id with
  | Some r =>
      if truthy ref_id && negb (devengamiento_exists s r)
      then (None, true) else (ref_id, false)
  | None => (None, false)
  end.

(** The common tail of the three front-ends: clear a dangling reference,
    then INSERT; an exception of the INSERT is reported by the caller. *)
Definition guardar_ajuste (fe : frontend) (s : Store) (cliente_id : Z) (fecha : date)
    (descripcion : option string) (monto : Q) (tipo : string) (ref_id : option Z)
  : Store * ajuste_result :=
  let '(ref_id, aviso) := limpiar_referencia s ref_id in
  match insert_ajuste fe s cliente_id fecha descripcion monto tipo ref_id with
  | Some (s', id) => (s', AjusteRegistrado id aviso)
  | None => (s, AjusteError)
  end.

Definition no_vacio (t : string) : option string :=
  match t with
  | EmptyString => None
  | _ => Some t
  end.

(** SQLite stores an INTEGER in 64 bits: binding a Python [int] outside
    this range raises [OverflowError]. *)
Definition entero_sqlite (n : Z) : bool :=
  ((- 2 ^ 63 <=? n) && (n <? 2 ^ 63))%Z.

(** The categories offered by the form of the dashboards. *)
Definition tipos_web : list string :=
  ["Bonificacion"; "Recargo"; "Adicional"; "Nota_credito"; "Nota_debito"; "Otro"]%string.

(** The adjustment form of the dashboards, on tables created by [esquema];
    [descripcion] is the text that the form hands over (appv2.py trims it
    first), [monto] the signed amount, [ref_id] the integer typed in the
    optional text field.  The dashboards query the accrual without a guard
    of their own, so a reference that SQLite cannot bind raises inside the
    form: an error is reported and nothing is written. *)
Definition registrar_ajuste_web_en (esquema : frontend) (v2 : bool) (s : Store)
    (cliente_id : Z) (fecha : date) (descripcion : string) (monto : Q) (tipo : string)
    (ref_id : option Z) : Store * ajuste_result :=
  if (cliente_id =? 0)%Z then (s, AjusteRechazado)
  else if v2 && String.eqb descripcion "" then (s, AjusteRechazado)
  else if match ref_id with
          | Some r => negb (entero_sqlite r)
          | None => false
          end
       then (s, AjusteError)
  else guardar_ajuste esquema s cliente_id fecha (no_vacio descripcion) monto tipo ref_id.

(** The form of a dashboard on tables of its own making. *)
Definition registrar_ajuste_web (v2 : bool) (s : Store) (cliente_id : Z) (fecha : date)
    (descripcion : string) (monto : Q) (tipo : string) (ref_id : option Z)
  : Store * ajuste_result :=
  registrar_ajuste_web_en (if v2 then StreamlitV2 else Streamlit) v2 s cliente_id fecha
    descripcion monto tipo ref_id.

(** [tipo_map] of the text menu: category and sign of each menu option. *)
Definition tipo_map (opcion : string) : option (string * Z) :=
  (if String.eqb opcion "1" then Some ("bonificacion", -1)
   else if String.eqb opcion "2" then Some ("recargo", 1)
   else if String.eqb opcion "3" then Some ("adicional", 1)
   else if String.eqb opcion "4" then Some ("nota_credito", -1)
   else if String.eqb opcion "5" then Some ("nota_debito", 1)
   else if String.eqb opcion "6" then Some ("otro", 0)
   else None)%string%Z.

Definition monto_con_signo (signo : Z) (monto : Q) (es_negativo : bool) : Q :=
  if (signo =? -1)%Z then - Qabs.Qabs monto
  else if (signo =? 1)%Z then Qabs.Qabs monto
  else if es_negativo then - Qabs.Qabs monto else Qabs.Qabs monto.

(** [registrar_ajuste()] of the text menu; [monto] is the positive amount
    typed by the operator and [es_negativo] the answer to the sign question
    asked for category "otro". *)
Definition registrar_ajuste (s : Store) (cliente_id : Z) (fecha : date)
    (descripcion : string) (opcion : string) (monto : Q) (es_negativo : bool)
    (ref_id : option Z) : Store * ajuste_result :=
  if negb (cliente_exists s cliente_id) then (s, AjusteRechazado)
  else if String.eqb descripcion "" then (s, AjusteRechazado)
  else match tipo_map opcion with
       | None => (s, AjusteRechazado)
       | Some (tipo, signo) =>
           if Qle_bool monto 0 then (s, AjusteRechazado)
           else guardar_ajuste Cli s cliente_id fecha (Some descripcion)
                  (monto_con_signo signo monto es_negativo) tipo ref_id
       end.

(** ** Operations of the ledger, for sequences of calls *)

Inductive operacion : Type :=
| OpCobro (fe : frontend) (cliente_id : Z) (fecha : date) (importe : Q) (m : modo)
| OpGenerar (fe : frontend) (anyo mes : Z)
| OpAjusteWeb (v2 : bool) (cliente_id : Z) (fecha : date) (descripcion : string)
    (monto : Q) (tipo : string) (ref_id : option Z)
| OpAjusteCli (cliente_id : Z) (fecha : date) (descripcion opcion : string)
    (monto : Q) (es_negativo : bool) (ref_id : option Z).

Definition ejecutar (s : Store) (op : operacion) : Store :=
  match op with
  | OpCobro fe cliente_id fecha importe m =>
      fst (record_cobro fe s cliente_id fecha importe m)
  | OpGenerar fe anyo mes => fst (generar fe s anyo mes)
  | OpAjusteWeb v2 cliente_id fecha descripcion monto tipo ref_id =>
      fst (registrar_ajuste_web v2 s cliente_id fecha descripcion monto tipo ref_id)
  | OpAjusteCli cliente_id fecha descripcion opcion monto es_negativo ref_id =>
      fst (registrar_ajuste s cliente_id fecha descripcion opcion monto es_negativo ref_id)
  end.

Definition ejecutar_todas (s : Store) (ops : list operacion) : Store :=
  fold_left ejecutar ops s.

(** ** Quantities that the properties speak about *)

(** Rows of [devengamientos_cobros] that [s'] has beyond those of [s]
    (inserts append). *)
Definition imputaciones_nuevas (s s' : Store) : list Imputacion :=
  skipn (List.length (devengamientos_cobros s)) (devengamientos_cobros s').

Definition total_montos (l : list Imputacion) : Q := sum_montos (map im_monto l).

(** Sum of the allocations linked to one payment. *)
Definition imputado_de_cobro (s : Store) (cobro_id : Z) : Q :=
  total_montos (filter (fun i => (im_cobro_id i =? cobro_id)%Z) (devengamientos_cobros s)).

(** Total outstanding balance of the accruals of a client. *)
Definition saldo_cliente (s : Store) (cliente_id : Z) : Q :=
  sum_montos (map (fun d => devengamiento_saldo s (dv_id d))
                  (filter (fun d => (dv_cliente_id d =? cliente_id)%Z) (devengamientos s))).

(** Sum of [f x] over the rows [x] of [l] that satisfy [p], accumulated row
    by row as an aggregate query does. *)
Definition suma_donde {A : Type} (p : A -> bool) (f : A -> Q) (l : list A) : Q :=
  fold_left (fun acc x => if p x then acc + f x else acc) l 0.

(** The balance formula in the words of the specification:
    max(0, amount + adjustments referencing the accrual - allocations
    applied to the accrual). *)
Definition balance_formula (s : Store) (d : Devengamiento) : Q :=
  Qmax 0
    (dv_importe d
     + suma_donde (fun a => opt_Z_eqb (aj_referencia_devengamiento_id a) (Some (dv_id d)))
         aj_monto (ajustes s)
     - suma_donde (fun i => (im_devengamiento_id i =? dv_id d)%Z)
         im_monto (devengamientos_cobros s)).

(** Rows of [devengamientos] that [s'] has beyond those of [s]. *)
Definition devengamientos_nuevos (s s' : Store) : list Devengamiento :=
  skipn (List.length (devengamientos s)) (devengamientos s').

(** [d] is the last calendar day of month [mes] of year [anyo]: a date of
    that month whose following day number is not in the calendar. *)
Definition es_ultimo_dia (anyo mes : Z) (d : date) : Prop :=
  make anyo mes (day d) = Some d /\ make anyo mes (day d + 1) = None.

(** The accrual [d] was built from plan [p] for the period. *)
Definition generado_de (anyo mes : Z) (p : Plan) (d : Devengamiento) : Prop :=
  dv_cliente_id d = pl_cliente_id p
  /\ dv_plan_id d = Some (pl_id p)
  /\ dv_periodo_anyo d = anyo
  /\ dv_periodo_mes d = mes
  /\ dv_importe d = pl_importe p.

(** The walk of automatic allocation over the balances read in visiting
    order: the amounts applied, by accrual id, and the remainder. *)
Fixpoint repartir (restante : Q) (saldos : list (Z * Q)) : list (Z * Q) * Q :=
  match saldos with
  | [] => ([], restante)
  | (id, saldo) :: rest =>
      if Qle_bool restante eps then ([], restante)
      else if Qle_bool saldo eps then repartir restante rest
      else
        let monto := py_min restante saldo in
        let '(l, r) := repartir (restante - monto) rest in
        ((id, monto) :: l, r)
  end.

(** The balances of the accruals of a client, in visiting order. *)
Definition saldos_de (s : Store) (cliente_id : Z) : list (Z * Q) :=
  map (fun d => (dv_id d, devengamiento_saldo s (dv_id d))) (devengamientos_de s cliente_id).

(** No balance and no intermediate remaining amount lies in the interval
    (0, 0.01] that the tolerance treats as zero. *)
Definition sin_residuos (importe : Q) (saldos : list Q) : Prop :=
  (forall b, In b saldos -> b <= 0 \/ eps < b)
  /\ (forall k : nat,
        importe - sum_montos (firstn k saldos) <= 0
        \/ eps < importe - sum_montos (firstn k saldos)).

(** Amount allocated to accrual [id] by the rows [l]. *)
Definition asignado (l : list Imputacion) (id : Z) : Q :=
  total_montos (filter (fun i => (im_devengamiento_id i =? id)%Z) l).

(** Strict order of the sort key (year, month, id). *)
Definition clave_lt (a b : Devengamiento) : Prop :=
  (dv_periodo_anyo a < dv_periodo_anyo b
   \/ (dv_periodo_anyo a = dv_periodo_anyo b
       /\ (dv_periodo_mes a < dv_periodo_mes b
           \/ (dv_periodo_mes a = dv_periodo_mes b /\ dv_id a < dv_id b))))%Z.

(** Payments and their allocations: rowids stay below the AUTOINCREMENT
    counter, allocations refer to payments already numbered, and the
    allocations of a payment of non-negative amount exceed the amount by at
    most [tol]. *)
Definition inv_cobros (tol : Q) (s : Store) : Prop :=
  (forall i, In i (devengamientos_cobros s) -> (im_cobro_id i <= seq_cobros s)%Z)
  /\ (forall c, In c (cobros s) -> (cb_id c <= seq_cobros s)%Z)
  /\ (forall c, In c (cobros s) -> 0 <= cb_importe c ->
       imputado_de_cobro s (cb_id c) <= cb_importe c + tol).

(** Every payment operation of the sequence allocates automatically. *)
Definition solo_automatico (ops : list operacion) : Prop :=
  forall fe cliente_id fecha importe m,
    In (OpCobro fe cliente_id fecha importe m) ops -> modo_de fe m = Automatico.

(** [s'] differs from [s] only in the allocation table and its counter. *)
Definition solo_imputaciones (s s' : Store) : Prop :=
  clientes s' = clientes s /\ planes s' = planes s
  /\ devengamientos s' = devengamientos s /\ cobros s' = cobros s
  /\ ajustes s' = ajustes s /\ seq_devengamientos s' = seq_devengamientos s
  /\ seq_cobros s' = seq_cobros s /\ seq_ajustes s' = seq_ajustes s.

(** The amounts of a list of (accrual id, amount) pairs. *)
Definition montos (l : list (Z * Q)) : list Q := map snd l.

(** Amount allocated by the rows [l] to the accruals [ds]. *)
Definition asignado_a (l : list Imputacion) (ds : list Devengamiento) : Q :=
  total_montos
    (filter (fun i => existsb (fun d => (dv_id d =? im_devengamiento_id i)%Z) ds) l).

(** Primary key of [devengamientos]. *)
Definition pk_devengamientos (s : Store) : Prop :=
  NoDup (map dv_id (devengamientos s)).

(** Accrual ids are distinct and below the AUTOINCREMENT counter. *)
Definition ids_devengamientos (s : Store) : Prop :=
  pk_devengamientos s
  /\ forall d, In d (devengamientos s) -> (dv_id d <= seq_devengamientos s)%Z.

(** The key of the UNIQUE constraint of [devengamientos]. *)
Definition clave_periodo (d : Devengamiento) : Z * option Z * Z * Z :=
  (dv_cliente_id d, dv_plan_id d, dv_periodo_anyo d, dv_periodo_mes d).

(** At most one accrual per (client, plan, year, month), among the accruals
    that have a plan. *)
Definition sin_duplicados (s : Store) : Prop :=
  NoDup (map clave_periodo
           (filter (fun d => match dv_plan_id d with Some _ => true | None => false end)
              (devengamientos s))).

(** ** Example data *)

(** One active client with two active plans without end date: 1000 a month
    since 2024-01-01 and 500 a month since 2024-03-15. *)
Definition ej_base : Store :=
  mkStore [mkCliente 1 true]
    [mkPlan 1 1 1000 (mkdate 2024 1 1) None true;
     mkPlan 2 1 500 (mkdate 2024 3 15) None true]
    [] [] [] [] 0 0 0 0.

(** [ej_base] after a dashboard has generated March 2024. *)
Definition ej_marzo : Store :=
  mkStore [mkCliente 1 true]
    [mkPlan 1 1 1000 (mkdate 2024 1 1) None true;
     mkPlan 2 1 500 (mkdate 2024 3 15) None true]
    [mkDevengamiento 1 1 (Some 1%Z) 2024 3 1000 (mkdate 2024 3 31);
     mkDevengamiento 2 1 (Some 2%Z) 2024 3 500 (mkdate 2024 3 31)]
    [] [] [] 2 0 0 0.

(** Two unpaid accruals of 500, for 2024-01 and 2024-02, and a payment of
    [importe] that has just been recorded. *)
Definition ej_dos (importe : Q) : Store :=
  mkStore [mkCliente 1 true] []
    [mkDevengamiento 1 1 None 2024 1 500 (mkdate 2024 1 31);
     mkDevengamiento 2 1 None 2024 2 500 (mkdate 2024 2 29)]
    [mkCobro 1 1 (mkdate 2024 3 5) importe]
    [] [] 2 1 0 0.

(** Accrual 7 with balance 300 and a payment of 800 not yet allocated. *)
Definition ej_manual : Store :=
  mkStore [mkCliente 1 true] []
    [mkDevengamiento 7 1 None 2024 1 300 (mkdate 2024 1 31)]
    [mkCobro 1 1 (mkdate 2024 2 10) 800]
    [] [] 7 1 0 0.

(** ** Tactics *)

(** Comparisons of dates, unfolded to linear integer arithmetic. *)
Ltac fecha_lia :=
  unfold gtb, ltb in *; simpl in *;
  rewrite ?orb_true_iff, ?orb_false_iff, ?andb_true_iff, ?andb_false_iff,
    ?Z.ltb_lt, ?Z.ltb_ge, ?Z.eqb_eq, ?Z.eqb_neq in *;
  lia.

(** Case analysis on every [Qmin] and [Qmax] of the goal and of the
    hypotheses, then linear arithmetic. *)
Ltac qminmax :=
  repeat match goal with
         | |- context [Qmin ?a ?b] =>
             let H := fresh "Hmin" in
             let x := fresh "mn" in
             destruct (Q.min_spec a b) as [[? H] | [? H]];
             set (x := Qmin a b) in *; clearbody x
         | |- context [Qmax ?a ?b] =>
             let H := fresh "Hmax" in
             let x := fresh "mx" in
             destruct (Q.max_spec a b) as [[? H] | [? H]];
             set (x := Qmax a b) in *; clearbody x
         | _ : context [Qmin ?a ?b] |- _ =>
             let H := fresh "Hmin" in
             let x := fresh "mn" in
             destruct (Q.min_spec a b) as [[? H] | [? H]];
             set (x := Qmin a b) in *; clearbody x
         | _ : context [Qmax ?a ?b] |- _ =>
             let H := fresh "Hmax" in
             let x := fresh "mx" in
             destruct (Q.max_spec a b) as [[? H] | [? H]];
             set (x := Qmax a b) in *; clearbody x
         end;
  lra.

(** Comparisons of sort keys, unfolded to linear integer arithmetic. *)
Ltac clave_lia :=
  unfold clave_leb, clave_lt in *;
  rewrite ?orb_true_iff, ?orb_false_iff, ?andb_true_iff, ?andb_false_iff,
    ?Z.ltb_lt, ?Z.ltb_ge, ?Z.eqb_eq, ?Z.eqb_neq, ?Z.leb_le, ?Z.leb_gt in *;
  lia.

(** ** Registers of clients and plans

    The ledger keeps the columns of [clientes] and [planes] that the
    bookkeeping reads: for a client its id and whether [activo = 1], for a
    plan its id, client, amount, dates and whether [activo = 1].  The
    AUTOINCREMENT counters of the two tables are kept beside the ledger. *)

Record Sistema : Type := mkSistema
  { libro : Store; seq_clientes : Z; seq_planes : Z }.

Definition con_clientes (s : Store) (l : list Cliente) : Store :=
  mkStore l (planes s) (devengamientos s) (cobros s) (devengamientos_cobros s)
    (ajustes s) (seq_devengamientos s) (seq_cobros s) (seq_devengamientos_cobros s)
    (seq_ajustes s).

Definition con_planes (s : Store) (l : list Plan) : Store :=
  mkStore (clientes s) l (devengamientos s) (cobros s) (devengamientos_cobros s)
    (ajustes s) (seq_devengamientos s) (seq_cobros s) (seq_devengamientos_cobros s)
    (seq_ajustes s).

Definition con_ajustes (s : Store) (l : list Ajuste) : Store :=
  mkStore (clientes s) (planes s) (devengamientos s) (cobros s)
    (devengamientos_cobros s) l (seq_devengamientos s) (seq_cobros s)
    (seq_devengamientos_cobros s) (seq_ajustes s).

Definition en_libro (t : Sistema) (s : Store) : Sistema :=
  mkSistema s (seq_clientes t) (seq_planes t).

(** Outcome of an operation of a form or of a menu entry. *)
Inductive resultado : Type :=
| SinSeleccion
| NoEncontrado
| Rechazado
| Fallido
| Hecho.

(** [INSERT INTO clientes (nombre, ...)]: [activo] takes its default 1. *)
Definition insert_cliente (t : Sistema) : Sistema * Z :=
  let id := (seq_clientes t + 1)%Z in
  (mkSistema (con_clientes (libro t) (clientes (libro t) ++ [mkCliente id true]))
     id (seq_planes t),
   id).

(** [add_cliente()] of the text menu and the client form of the dashboards;
    [nombre] is the trimmed name. *)
Definition add_cliente (t : Sistema) (nombre : string) : Sistema * resultado :=
  if String.eqb nombre "" then (t, Rechazado)
  else (fst (insert_cliente t), Hecho).

(** [UPDATE clientes SET activo=? WHERE id=?] *)
Definition update_cliente_activo (s : Store) (id : Z) (activo : bool) : Store :=
  con_clientes s
    (map (fun c => if (cl_id c =? id)%Z then mkCliente (cl_id c) activo else c)
       (clientes s)).

(** [toggle_cliente_estado()] of the text menu; [confirma] is the answer to
    the confirmation question. *)
Definition toggle_cliente_estado (s : Store) (cliente_id : Z) (confirma : bool)
  : Store * resultado :=
  match find (fun c => (cl_id c =? cliente_id)%Z) (clientes s) with
  | None => (s, NoEncontrado)
  | Some r =>
      let nuevo_estado := if cl_activo r then false else true in
      if confirma then (update_cliente_activo s cliente_id nuevo_estado, Hecho)
      else (s, Rechazado)
  end.

(** The id typed in a [number_input(min_value=0)] of a dashboard selects a
    row: app.py tests [if sel:], appv2.py [if sel > 0:]. *)
Definition seleccionado (v2 : bool) (sel : Z) : bool :=
  if v2 then (0 <? sel)%Z else negb (sel =? 0)%Z.

(** The client editor of the dashboards; [nombre] is the name handed to the
    UPDATE (appv2.py trims it and refuses an empty one). *)
Definition editar_cliente (v2 : bool) (s : Store) (sel : Z) (nombre : string)
    (activo : bool) : Store * resultado :=
  if negb (seleccionado v2 sel) then (s, SinSeleccion)
  else if negb (cliente_exists s sel) then (s, NoEncontrado)
  else if v2 && String.eqb nombre "" then (s, Rechazado)
  else (update_cliente_activo s sel activo, Hecho).

(** [INSERT INTO planes (cliente_id, ..., importe, fecha_inicio, fecha_fin,
    periodicidad)]: [activo] takes its default 1. *)
Definition insert_plan (fe : frontend) (t : Sistema) (cliente_id : Z) (importe : Q)
    (fecha_inicio : date) (fecha_fin : option date) : option (Sistema * Z) :=
  if cliente_exists (libro t) cliente_id
     && (if has_checks fe then Qle_bool 0 importe else true)
  then
    let id := (seq_planes t + 1)%Z in
    Some (mkSistema
            (con_planes (libro t)
               (planes (libro t)
                  ++ [mkPlan id cliente_id importe fecha_inicio fecha_fin true]))
            (seq_clientes t) id,
          id)
  else None.

(** Validation in front of the INSERT of a plan: the text menu wants an
    existing client and rejects a negative amount, app.py wants a selected
    client, appv2.py a selected client and a positive amount. *)
Definition plan_valido (fe : frontend) (s : Store) (cliente_id : Z) (importe : Q) : bool :=
  match fe with
  | Cli => cliente_exists s cliente_id && negb (Qltb importe 0)
  | Streamlit => negb (cliente_id =? 0)%Z
  | StreamlitV2 => negb (cliente_id =? 0)%Z && negb (Qle_bool importe 0)
  end.

(** [add_plan()] of the text menu and the plan form of the dashboards. *)
Definition add_plan (fe : frontend) (t : Sistema) (cliente_id : Z) (importe : Q)
    (fecha_inicio : date) (fecha_fin : option date) : Sistema * resultado :=
  if negb (plan_valido fe (libro t) cliente_id importe) then (t, Rechazado)
  else match insert_plan fe t cliente_id importe fecha_inicio fecha_fin with
       | Some (t', _) => (t', Hecho)
       | None => (t, Fallido)
       end.

(** [UPDATE planes SET ... WHERE id=?] *)
Definition update_plan (s : Store) (id : Z) (f : Plan -> Plan) : Store :=
  con_planes s (map (fun p => if (pl_id p =? id)%Z then f p else p) (planes s)).

(** [edit_plan()] of the text menu.  An argument is [None] when the operator
    keeps the current value by pressing Enter; [activo] is the integer typed.
    The UPDATE is subject to [CHECK (importe >= 0)]. *)
Definition edit_plan (s : Store) (plan_id : Z) (importe : option Q)
    (fecha_inicio fecha_fin : option date) (activo : option Z) : Store * resultado :=
  match find (fun p => (pl_id p =? plan_id)%Z) (planes s) with
  | None => (s, NoEncontrado)
  | Some plan =>
      let importe := match importe with Some x => x | None => pl_importe plan end in
      let fecha_inicio :=
        match fecha_inicio with Some f => f | None => pl_fecha_inicio plan end in
      let fecha_fin :=
        match fecha_fin with Some f => Some f | None => pl_fecha_fin plan end in
      let activo :=
        match activo with Some a => (a =? 1)%Z | None => pl_activo plan end in
      if Qle_bool 0 importe
      then (update_plan s plan_id
              (fun p => mkPlan (pl_id p) (pl_cliente_id p) importe fecha_inicio
                          fecha_fin activo),
            Hecho)
      else (s, Fallido)
  end.

(** [SELECT p.* FROM planes p JOIN clientes c ON p.cliente_id=c.id
     WHERE p.id=?] returns a row. *)
Definition plan_encontrado (s : Store) (sel : Z) : bool :=
  existsb (fun p => (pl_id p =? sel)%Z && cliente_exists s (pl_cliente_id p)) (planes s).

(** The plan editor of the dashboards: amount and state. *)
Definition editar_plan (v2 : bool) (s : Store) (sel : Z) (importe : Q) (activo : bool)
  : Store * resultado :=
  if negb (seleccionado v2 sel) then (s, SinSeleccion)
  else if negb (plan_encontrado s sel) then (s, NoEncontrado)
  else if v2 && Qle_bool importe 0 then (s, Rechazado)
  else (update_plan s sel
          (fun p => mkPlan (pl_id p) (pl_cliente_id p) importe (pl_fecha_inicio p)
                      (pl_fecha_fin p) activo),
        Hecho).

(** ** Deleting rows

    The statements run with foreign keys enforced, so a DELETE carries out
    the ON DELETE action of every table that references the deleted row. *)

(** [DELETE FROM planes WHERE id=?]: accruals of the plan keep their row
    with a NULL [plan_id] (ON DELETE SET NULL). *)
Definition delete_plan (s : Store) (id : Z) : Store :=
  if plan_exists s id then
    mkStore (clientes s)
      (filter (fun p => negb (pl_id p =? id)%Z) (planes s))
      (map (fun d => if opt_Z_eqb (dv_plan_id d) (Some id)
                     then mkDevengamiento (dv_id d) (dv_cliente_id d) None
                            (dv_periodo_anyo d) (dv_periodo_mes d) (dv_importe d)
                            (dv_fecha_devengada d)
                     else d)
         (devengamientos s))
      (cobros s) (devengamientos_cobros s) (ajustes s)
      (seq_devengamientos s) (seq_cobros s) (seq_devengamientos_cobros s)
      (seq_ajustes s)
  else s.

(** [DELETE FROM devengamientos WHERE id=?]: the allocations of the accrual
    are deleted (ON DELETE CASCADE) and the adjustments that reference it
    keep their row with a NULL reference (ON DELETE SET NULL). *)
Definition delete_devengamiento (s : Store) (id : Z) : Store :=
  if devengamiento_exists s id then
    mkStore (clientes s) (planes s)
      (filter (fun d => negb (dv_id d =? id)%Z) (devengamientos s))
      (cobros s)
      (filter (fun i => negb (im_devengamiento_id i =? id)%Z) (devengamientos_cobros s))
      (map (fun a => if opt_Z_eqb (aj_referencia_devengamiento_id a) (Some id)
                     then mkAjuste (aj_id a) (aj_cliente_id a) (aj_fecha a)
                            (aj_descripcion a) (aj_monto a) (aj_tipo a) None
                     else a)
         (ajustes s))
      (seq_devengamientos s) (seq_cobros s) (seq_devengamientos_cobros s)
      (seq_ajustes s)
  else s.

(** [DELETE FROM cobros WHERE id=?]: the allocations of the payment are
    deleted (ON DELETE CASCADE). *)
Definition delete_cobro (s : Store) (id : Z) : Store :=
  if cobro_exists s id then
    mkStore (clientes s) (planes s) (devengamientos s)
      (filter (fun c => negb (cb_id c =? id)%Z) (cobros s))
      (filter (fun i => negb (im_cobro_id i =? id)%Z) (devengamientos_cobros s))
      (ajustes s)
      (seq_devengamientos s) (seq_cobros s) (seq_devengamientos_cobros s)
      (seq_ajustes s)
  else s.

(** [DELETE FROM ajustes WHERE id=?] *)
Definition delete_ajuste (s : Store) (id : Z) : Store :=
  con_ajustes s (filter (fun a => negb (aj_id a =? id)%Z) (ajustes s)).

(** [DELETE FROM clientes WHERE id=?]: plans, accruals, payments and
    adjustments of the client are deleted (ON DELETE CASCADE), each with its
    own ON DELETE actions. *)
Definition delete_cliente (s : Store) (id : Z) : Store :=
  if cliente_exists s id then
    let s1 :=
      fold_left delete_plan
        (map pl_id (filter (fun p => (pl_cliente_id p =? id)%Z) (planes s))) s in
    let s2 :=
      fold_left delete_devengamiento
        (map dv_id (filter (fun d => (dv_cliente_id d =? id)%Z) (devengamientos s1))) s1 in
    let s3 :=
      fold_left delete_cobro
        (map cb_id (filter (fun c => (cb_cliente_id c =? id)%Z) (cobros s2))) s2 in
    let s4 :=
      con_ajustes s3 (filter (fun a => negb (aj_cliente_id a =? id)%Z) (ajustes s3)) in
    con_clientes s4 (filter (fun c => negb (cl_id c =? id)%Z) (clientes s4))
  else s.

(** [SELECT COUNT( * ) FROM ... WHERE ...] *)
Definition contar_filas {A : Type} (p : A -> bool) (l : list A) : nat :=
  List.length (filter p l).

(** The "Eliminar" button of the client editor of the dashboards. *)
Definition eliminar_cliente (v2 : bool) (s : Store) (sel : Z) : Store * resultado :=
  if negb (seleccionado v2 sel) then (s, SinSeleccion)
  else if negb (cliente_exists s sel) then (s, NoEncontrado)
  else
    let planes_count := contar_filas (fun p => (pl_cliente_id p =? sel)%Z) (planes s) in
    let dev_count :=
      contar_filas (fun d => (dv_cliente_id d =? sel)%Z) (devengamientos s) in
    let cobros_count := contar_filas (fun c => (cb_cliente_id c =? sel)%Z) (cobros s) in
    if (0 <? planes_count)%nat || (0 <? dev_count)%nat || (0 <? cobros_count)%nat
    then (s, Rechazado)
    else (delete_cliente s sel, Hecho).

(** The "Eliminar plan" button of the dashboards. *)
Definition eliminar_plan (v2 : bool) (s : Store) (sel : Z) : Store * resultado :=
  if negb (seleccionado v2 sel) then (s, SinSeleccion)
  else if negb (plan_encontrado s sel) then (s, NoEncontrado)
  else
    let dev_count :=
      contar_filas (fun d => opt_Z_eqb (dv_plan_id d) (Some sel)) (devengamientos s) in
    if (0 <? dev_count)%nat then (s, Rechazado)
    else (delete_plan s sel, Hecho).

(** [SELECT d.* FROM devengamientos d JOIN clientes c ON d.cliente_id=c.id
     WHERE d.id=?] returns a row. *)
Definition devengamiento_encontrado (s : Store) (sel : Z) : bool :=
  existsb (fun d => (dv_id d =? sel)%Z && cliente_exists s (dv_cliente_id d))
    (devengamientos s).

(** The "Eliminar devengamiento" button of the dashboards. *)
Definition eliminar_devengamiento (v2 : bool) (s : Store) (sel : Z)
  : Store * resultado :=
  if negb (seleccionado v2 sel) then (s, SinSeleccion)
  else if negb (devengamiento_encontrado s sel) then (s, NoEncontrado)
  else
    let cobros_count :=
      contar_filas (fun i => (im_devengamiento_id i =? sel)%Z) (devengamientos_cobros s) in
    let ajustes_count :=
      contar_filas (fun a => opt_Z_eqb (aj_referencia_devengamiento_id a) (Some sel))
        (ajustes s) in
    if (0 <? cobros_count)%nat || (0 <? ajustes_count)%nat then (s, Rechazado)
    else (delete_devengamiento s sel, Hecho).

Definition cobro_encontrado (s : Store) (sel : Z) : bool :=
  existsb (fun c => (cb_id c =? sel)%Z && cliente_exists s (cb_cliente_id c)) (cobros s).

(** The "Eliminar cobro" button of the dashboards. *)
Definition eliminar_cobro (v2 : bool) (s : Store) (sel : Z) : Store * resultado :=
  if negb (seleccionado v2 sel) then (s, SinSeleccion)
  else if negb (cobro_encontrado s sel) then (s, NoEncontrado)
  else
    let imputaciones :=
      contar_filas (fun i => (im_cobro_id i =? sel)%Z) (devengamientos_cobros s) in
    if (0 <? imputaciones)%nat then (s, Rechazado)
    else (delete_cobro s sel, Hecho).

Definition ajuste_encontrado (s : Store) (sel : Z) : bool :=
  existsb (fun a => (aj_id a =? sel)%Z && cliente_exists s (aj_cliente_id a)) (ajustes s).

(** The "Eliminar ajuste" section of the dashboards.  In app.py the summary
    line of the selected adjustment reads the column ['ipo'], which the row
    does not have: the lookup raises before the button is drawn, in every
    run of the script, so the DELETE is never reached. *)
Definition eliminar_ajuste (v2 : bool) (s : Store) (sel : Z) : Store * resultado :=
  if negb (seleccionado v2 sel) then (s, SinSeleccion)
  else if negb (ajuste_encontrado s sel) then (s, NoEncontrado)
  else if v2 then (delete_ajuste s sel, Hecho)
  else (s, Fallido).

(** ** Actions of the three programs, for sequences of calls *)

Inductive accion : Type :=
| AcLibro (op : operacion)
| AcAddCliente (nombre : string)
| AcToggleCliente (cliente_id : Z) (confirma : bool)
| AcEditarCliente (v2 : bool) (sel : Z) (nombre : string) (activo : bool)
| AcEliminarCliente (v2 : bool) (sel : Z)
| AcAddPlan (fe : frontend) (cliente_id : Z) (importe : Q) (fecha_inicio : date)
    (fecha_fin : option date)
| AcEditPlan (plan_id : Z) (importe : option Q) (fecha_inicio fecha_fin : option date)
    (activo : option Z)
| AcEditarPlan (v2 : bool) (sel : Z) (importe : Q) (activo : bool)
| AcEliminarPlan (v2 : bool) (sel : Z)
| AcEliminarDevengamiento (v2 : bool) (sel : Z)
| AcEliminarCobro (v2 : bool) (sel : Z)
| AcEliminarAjuste (v2 : bool) (sel : Z).

Definition aplicar (t : Sistema) (a : accion) : Sistema :=
  match a with
  | AcLibro op => en_libro t (ejecutar (libro t) op)
  | AcAddCliente nombre => fst (add_cliente t nombre)
  | AcToggleCliente cliente_id confirma =>
      en_libro t (fst (toggle_cliente_estado (libro t) cliente_id confirma))
  | AcEditarCliente v2 sel nombre activo =>
      en_libro t (fst (editar_cliente v2 (libro t) sel nombre activo))
  | AcEliminarCliente v2 sel => en_libro t (fst (eliminar_cliente v2 (libro t) sel))
  | AcAddPlan fe cliente_id importe fecha_inicio fecha_fin =>
      fst (add_plan fe t cliente_id importe fecha_inicio fecha_fin)
  | AcEditPlan plan_id importe fecha_inicio fecha_fin activo =>
      en_libro t (fst (edit_plan (libro t) plan_id importe fecha_inicio fecha_fin activo))
  | AcEditarPlan v2 sel importe activo =>
      en_libro t (fst (editar_plan v2 (libro t) sel importe activo))
  | AcEliminarPlan v2 sel => en_libro t (fst (eliminar_plan v2 (libro t) sel))
  | AcEliminarDevengamiento v2 sel =>
      en_libro t (fst (eliminar_devengamiento v2 (libro t) sel))
  | AcEliminarCobro v2 sel => en_libro t (fst (eliminar_cobro v2 (libro t) sel))
  | AcEliminarAjuste v2 sel => en_libro t (fst (eliminar_ajuste v2 (libro t) sel))
  end.

Definition aplicar_todas (t : Sistema) (acs : list accion) : Sistema :=
  fold_left aplicar acs t.

(** ** Relations between two states of the ledger *)

(** [s'] has the clients and plans of [s] and every row of [s], in place,
    in the other four tables: rows were only appended. *)
Definition crece (s s' : Store) : Prop :=
  clientes s' = clientes s /\ planes s' = planes s
  /\ (exists e, devengamientos s' = devengamientos s ++ e)
  /\ (exists e, cobros s' = cobros s ++ e)
  /\ (exists e, devengamientos_cobros s' = devengamientos_cobros s ++ e)
  /\ (exists e, ajustes s' = ajustes s ++ e).

(** [s'] keeps the allocations of [s] in place, and with them the payments
    and the accruals that they link. *)
Definition conserva (s s' : Store) : Prop :=
  (exists e, devengamientos_cobros s' = devengamientos_cobros s ++ e)
  /\ (forall c i, In c (cobros s) -> In i (devengamientos_cobros s) ->
        im_cobro_id i = cb_id c -> In c (cobros s'))
  /\ (forall d i, In d (devengamientos s) -> In i (devengamientos_cobros s) ->
        im_devengamiento_id i = dv_id d -> In d (devengamientos s')).

(** Referential integrity: every foreign key of the schema points to a row
    that exists. *)
Definition integro (s : Store) : Prop :=
  (forall p, In p (planes s) -> cliente_exists s (pl_cliente_id p) = true)
  /\ (forall d, In d (devengamientos s) ->
        cliente_exists s (dv_cliente_id d) = true
        /\ forall p, dv_plan_id d = Some p -> plan_exists s p = true)
  /\ (forall c, In c (cobros s) -> cliente_exists s (cb_cliente_id c) = true)
  /\ (forall i, In i (devengamientos_cobros s) ->
        devengamiento_exists s (im_devengamiento_id i) = true
        /\ cobro_exists s (im_cobro_id i) = true)
  /\ (forall a, In a (ajustes s) ->
        cliente_exists s (aj_cliente_id a) = true
        /\ forall r, aj_referencia_devengamiento_id a = Some r ->
             devengamiento_exists s r = true).

(** ** Reports

    Dates are stored as ISO text ([date.isoformat()], "YYYY-MM-DD" with a
    four-digit year), so the comparisons and sorts that SQLite and Python
    make on the text are the comparisons of the dates. *)

Definition fecha_leb (a b : date) : bool := negb (ltb b a).

(** A stable sort by a date column: [ORDER BY fecha] over rows in rowid
    order (rows of the same date stay in rowid order), and Python's
    [list.sort(key=...)] on a date key. *)
Fixpoint insertar_por_fecha {A : Type} (fecha : A -> date) (x : A) (l : list A)
  : list A :=
  match l with
  | [] => [x]
  | y :: rest =>
      if fecha_leb (fecha x) (fecha y) then x :: l
      else y :: insertar_por_fecha fecha x rest
  end.

Definition ordenar_por_fecha {A : Type} (fecha : A -> date) (l : list A) : list A :=
  fold_right (insertar_por_fecha fecha) [] l.

(** A line of an account statement; the printed concept text is left out. *)
Inductive tipo_evento : Type := EvDevengamiento | EvAjuste | EvCobro.

Record evento : Type := mkEvento
  { ev_fecha : date; ev_tipo : tipo_evento; ev_debito : Q; ev_credito : Q }.

Definition evento_devengamiento (d : Devengamiento) : evento :=
  mkEvento (dv_fecha_devengada d) EvDevengamiento (dv_importe d) 0.

(** Text menu: ['debito': monto if monto > 0 else 0.0,
    'credito': -monto if monto < 0 else 0.0]. *)
Definition evento_ajuste (a : Ajuste) : evento :=
  let monto := aj_monto a in
  mkEvento (aj_fecha a) EvAjuste
    (if Qltb 0 monto then monto else 0)
    (if Qltb monto 0 then - monto else 0).

(** Dashboards: ['debito': m if m > 0 else 0.0,
    'credito': abs(m) if m < 0 else 0.0]. *)
Definition evento_ajuste_web (a : Ajuste) : evento :=
  let m := aj_monto a in
  mkEvento (aj_fecha a) EvAjuste
    (if Qltb 0 m then m else 0)
    (if Qltb m 0 then Qabs.Qabs m else 0).

Definition evento_cobro (c : Cobro) : evento :=
  mkEvento (cb_fecha c) EvCobro 0 (cb_importe c).

(** The event list as the three queries fill it: accruals, adjustments and
    payments of the client, each group ordered by date. *)
Definition movimientos (ev_aj : Ajuste -> evento) (s : Store) (cliente_id : Z)
  : list evento :=
  map evento_devengamiento
    (ordenar_por_fecha dv_fecha_devengada
       (filter (fun d => (dv_cliente_id d =? cliente_id)%Z) (devengamientos s)))
  ++ map ev_aj
       (ordenar_por_fecha aj_fecha
          (filter (fun a => (aj_cliente_id a =? cliente_id)%Z) (ajustes s)))
  ++ map evento_cobro
       (ordenar_por_fecha cb_fecha
          (filter (fun c => (cb_cliente_id c =? cliente_id)%Z) (cobros s))).

Inductive situacion : Type := AlDia | Pendiente | PendienteAlto.

Record estado_cuenta : Type := mkEstadoCuenta
  { ec_filas : list (evento * Q);
    ec_total_debito : Q;
    ec_total_credito : Q;
    ec_saldo : Q }.

(** The [for e in events] loop of [account_statement]: each line is printed
    with the running balance. *)
Fixpoint recorrer (events : list evento) (saldo total_debito total_credito : Q)
  : estado_cuenta :=
  match events with
  | [] => mkEstadoCuenta [] total_debito total_credito saldo
  | e :: rest =>
      let saldo := saldo + (ev_debito e - ev_credito e) in
      let total_debito := total_debito + ev_debito e in
      let total_credito := total_credito + ev_credito e in
      let r := recorrer rest saldo total_debito total_credito in
      mkEstadoCuenta ((e, saldo) :: ec_filas r)
        (ec_total_debito r) (ec_total_credito r) (ec_saldo r)
  end.

(** The closing line of the statement of the text menu. *)
Definition situacion_de (saldo : Q) : situacion :=
  if Qltb saldo 0.01 then AlDia
  else if Qltb saldo 100 then Pendiente
  else PendienteAlto.

(** [account_statement()] of the text menu, for the client id typed. *)
Definition account_statement (s : Store) (cliente_id : Z) : option estado_cuenta :=
  if negb (cliente_exists s cliente_id) then None
  else Some (recorrer
               (ordenar_por_fecha ev_fecha (movimientos evento_ajuste s cliente_id))
               0 0 0).

(** [SELECT COALESCE(SUM(importe), 0) FROM devengamientos WHERE cliente_id=?] *)
Definition total_devengado (s : Store) (cliente_id : Z) : Q :=
  sum_montos
    (map dv_importe
       (filter (fun d => (dv_cliente_id d =? cliente_id)%Z) (devengamientos s))).

(** [SELECT COALESCE(SUM(monto), 0) FROM ajustes WHERE cliente_id=?] *)
Definition total_ajustes (s : Store) (cliente_id : Z) : Q :=
  sum_montos
    (map aj_monto (filter (fun a => (aj_cliente_id a =? cliente_id)%Z) (ajustes s))).

(** [SELECT COALESCE(SUM(importe), 0) FROM cobros WHERE cliente_id=?] *)
Definition total_cobros (s : Store) (cliente_id : Z) : Q :=
  sum_montos
    (map cb_importe (filter (fun c => (cb_cliente_id c =? cliente_id)%Z) (cobros s))).

(** [saldo_final = total_dev + total_ajustes - total_cobros] of the account
    statement of the dashboards. *)
Definition saldo_final (s : Store) (sel : Z) : Q :=
  total_devengado s sel + total_ajustes s sel - total_cobros s sel.

(** [(df['debito'] - df['credito']).cumsum()] *)
Fixpoint cumsum (acc : Q) (l : list Q) : list Q :=
  match l with
  | [] => []
  | x :: rest => (acc + x) :: cumsum (acc + x) rest
  end.

(** The "saldo" column of the statement of the dashboards, for the events in
    the order [events] in which the sort by (date, concept text) leaves
    them. *)
Definition columna_saldo (events : list evento) : list Q :=
  cumsum 0 (map (fun e => ev_debito e - ev_credito e) events).

(** [FROM t JOIN clientes c ON t.cliente_id = c.id]: a row once for every
    client row with its client id. *)
Definition join_clientes {A : Type} (cliente_de : A -> Z) (s : Store) (rows : list A)
  : list A :=
  flat_map
    (fun r => map (fun _ => r) (filter (fun c => (cl_id c =? cliente_de r)%Z) (clientes s)))
    rows.

(** The monthly collections report of the dashboards: the payments dated
    from the first to the last day of the month, by date, and their total.
    [None] when a date of the period cannot be built. *)
Definition cobranzas_mes (v2 : bool) (s : Store) (anyo mes : Z)
  : option (list Cobro * Q) :=
  match make anyo mes 1,
        (if v2 then ultimo_dia_mes_v2 anyo mes else ultimo_dia_mes anyo mes) with
  | Some primer, Some ultimo =>
      let rows :=
        ordenar_por_fecha cb_fecha
          (filter (fun c => fecha_leb primer (cb_fecha c) && fecha_leb (cb_fecha c) ultimo)
             (join_clientes cb_cliente_id s (cobros s))) in
      Some (rows, sum_montos (map cb_importe rows))
  | _, _ => None
  end.

(** The payment [c] is dated in month [mes] of year [anyo]. *)
Definition del_mes (anyo mes : Z) (c : Cobro) : bool :=
  (year (cb_fecha c) =? anyo)%Z && (month (cb_fecha c) =? mes)%Z.

(** The stored date is a date of the calendar. *)
Definition fecha_valida (f : date) : Prop :=
  make (year f) (month f) (day f) = Some f.

(** ** Summary panels *)

Record metricas : Type := mkMetricas
  { clientes_activos : nat;
    planes_activos : nat;
    devengado_mes : Q;
    cobrado_mes : Q;
    saldo_pendiente : Q;
    clientes_con_saldo : nat }.

(** [get_dashboard_metrics()] of appv2.py; [hoy] is [date.today()].  The
    subquery of the last figure groups the allocations by accrual id, the
    primary key: one group per accrual. *)
Definition get_dashboard_metrics (s : Store) (hoy : date) : metricas :=
  let primer_dia := mkdate (year hoy) (month hoy) 1 in
  let total_dev := sum_montos (map dv_importe (devengamientos s)) in
  let total_imputado := sum_montos (map im_monto (devengamientos_cobros s)) in
  let total_aj := sum_montos (map aj_monto (ajustes s)) in
  let ids :=
    map dv_id
      (filter (fun d => Qltb (aplicado s (dv_id d)) (dv_importe d)) (devengamientos s)) in
  mkMetricas
    (contar_filas cl_activo (clientes s))
    (contar_filas pl_activo (planes s))
    (sum_montos
       (map dv_importe
          (filter (fun d => (dv_periodo_anyo d =? year hoy)%Z
                            && (dv_periodo_mes d =? month hoy)%Z)
             (devengamientos s))))
    (sum_montos
       (map cb_importe (filter (fun c => fecha_leb primer_dia (cb_fecha c)) (cobros s))))
    (total_dev + total_aj - total_imputado)
    (List.length
       (nodup Z.eq_dec
          (map dv_cliente_id
             (filter (fun d => existsb (Z.eqb (dv_id d)) ids) (devengamientos s))))).

(** [d - timedelta(days=n)] for [n >= 0]. *)
Fixpoint restar_dias (n : nat) (d : date) : option date :=
  match n with
  | O => Some d
  | S k => match pred_day d with
           | Some d' => restar_dias k d'
           | None => None
           end
  end.

Record tablero : Type := mkTablero
  { tb_clientes_activos : nat;
    tb_planes_activos : nat;
    tb_devengado_mes : Q;
    tb_cobrado_mes : Q;
    tb_deuda_total : Q;
    tb_clientes_con_deuda : nat;
    tb_morosos_potenciales : nat }.

(** [dashboard()] of the text menu; [None] is an exception, reported as an
    error of the panel. *)
Definition dashboard (s : Store) (hoy : date) : option tablero :=
  let primer_dia := mkdate (year hoy) (month hoy) 1 in
  let todos_devs := devengamientos s in
  let deuda_total :=
    sum_montos (map (fun d => devengamiento_saldo s (dv_id d)) todos_devs) in
  let clientes_con_deuda :=
    nodup Z.eq_dec
      (map dv_cliente_id
         (filter (fun d => Qltb 0.01 (devengamiento_saldo s (dv_id d))) todos_devs)) in
  match restar_dias 30 hoy with
  | None => None
  | Some fecha_limite =>
      Some (mkTablero
              (contar_filas cl_activo (clientes s))
              (contar_filas pl_activo (planes s))
              (sum_montos
                 (map dv_importe
                    (filter (fun d => (dv_periodo_anyo d =? year hoy)%Z
                                      && (dv_periodo_mes d =? month hoy)%Z)
                       (devengamientos s))))
              (sum_montos
                 (map cb_importe
                    (filter (fun c => fecha_leb primer_dia (cb_fecha c)) (cobros s))))
              deuda_total
              (List.length clientes_con_deuda)
              (List.length
                 (nodup Z.eq_dec
                    (map dv_cliente_id
                       (filter (fun d => fecha_leb (dv_fecha_devengada d) fecha_limite)
                          (devengamientos s))))))
  end.

(** Balance of an accrual before it is cut at zero. *)
Definition saldo_bruto (s : Store) (d : Devengamiento) : Q :=
  dv_importe d + ajustes_de s (dv_id d) - aplicado s (dv_id d).

(** Total of the adjustments that reference no accrual. *)
Definition ajustes_sin_referencia (s : Store) : Q :=
  sum_montos
    (map aj_monto
       (filter (fun a => match aj_referencia_devengamiento_id a with
                         | None => true
                         | Some _ => false
                         end)
          (ajustes s))).

(** ** Overdue clients *)

(** The query of the overdue reports of the text menu and of app.py:
    [SELECT DISTINCT c.id, c.nombre, c.email, c.telefono FROM clientes c
     JOIN devengamientos d ON c.id = d.cliente_id
     WHERE d.fecha_devengada <= ? AND c.activo = 1].  The result is given as
    client ids; app.py displays these rows as its whole report.  The rows
    come back ordered by the client's name, a column that is not part of the
    store: the functions below take the fetched rows in their order. *)
Definition clientes_vencidos (s : Store) (fecha_limite : date) : list Z :=
  nodup Z.eq_dec
    (map cl_id
       (filter (fun c => cl_activo c
                         && existsb (fun d => (dv_cliente_id d =? cl_id c)%Z
                                              && fecha_leb (dv_fecha_devengada d)
                                                   fecha_limite)
                              (devengamientos s))
          (clientes s))).

(** The inner loop of [reporte_morosos()]: the balances of the accruals of
    the client dated on or before the limit. *)
Definition deuda_vencida (s : Store) (fecha_limite : date) (cliente_id : Z) : Q :=
  sum_montos
    (map (fun d => devengamiento_saldo s (dv_id d))
       (filter (fun d => fecha_leb (dv_fecha_devengada d) fecha_limite)
          (filter (fun d => (dv_cliente_id d =? cliente_id)%Z) (devengamientos s)))).

(** [reporte_morosos()] of the text menu, from the fetched rows [clientes]
    on; [fecha_limite] is [date.today() - timedelta(days=dias)].  The result
    is the printed lines (client, debt) and "TOTAL DEUDA VENCIDA"; [None]
    when the query returns no row and nothing is totalled.

    [supera deuda] is the outcome of the test [if deuda_cliente > 0.01],
    which the program makes in binary64 on the debt as its float sums left
    it.  The test holds of every debt above 0.01 and of no debt below 0.01;
    on a debt of exactly 0.01 it goes either way with the rounding of the
    sums (100.01 - 100 is above 0.01 in binary64), so the outcome is an
    argument here and the properties are stated for every such test. *)
Definition reporte_morosos (supera : Q -> bool) (s : Store) (fecha_limite : date)
    (clientes : list Z) : option (list (Z * Q) * Q) :=
  match clientes with
  | [] => None
  | _ :: _ =>
      let filas :=
        filter (fun x => supera (snd x))
          (map (fun c => (c, deuda_vencida s fecha_limite c)) clientes) in
      Some (filas, sum_montos (map snd filas))
  end.

(** The test [deuda > 0.01] in exact arithmetic. *)
Definition supera_exacto (deuda : Q) : bool := Qltb eps deuda.

(** [ej_marzo] one month later: a discount of 100 on accrual 2, recorded on
    2024-04-02, and a payment of 600 on 2024-04-05 that a dashboard has
    allocated to accrual 1. *)
Definition ej_abril : Store :=
  mkStore [mkCliente 1 true]
    [mkPlan 1 1 1000 (mkdate 2024 1 1) None true;
     mkPlan 2 1 500 (mkdate 2024 3 15) None true]
    [mkDevengamiento 1 1 (Some 1%Z) 2024 3 1000 (mkdate 2024 3 31);
     mkDevengamiento 2 1 (Some 2%Z) 2024 3 500 (mkdate 2024 3 31)]
    [mkCobro 1 1 (mkdate 2024 4 5) 600]
    [mkImputacion 1 1 1 600]
    [mkAjuste 1 1 (mkdate 2024 4 2) "descuento" (-100) "Bonificacion" (Some 2%Z)]
    2 1 1 1.

(** The database [ej_abril] with its two other counters. *)
Definition sis_abril : Sistema := mkSistema ej_abril 1 2.

(** A second client without plans, accruals or payments, who has one
    adjustment. *)
Definition ej_dos_clientes : Store :=
  mkStore [mkCliente 1 true; mkCliente 2 true]
    [mkPlan 1 1 1000 (mkdate 2024 1 1) None true]
    [] [] []
    [mkAjuste 1 2 (mkdate 2024 4 2) "saldo inicial" 250 "Otro" None]
    0 0 0 1.

(** Client 1 has just paid 600 and has an accrual of 1000; accrual 2, of
    300, belongs to client 2. *)
Definition ej_ajeno : Store :=
  mkStore [mkCliente 1 true; mkCliente 2 true] []
    [mkDevengamiento 1 1 None 2024 1 1000 (mkdate 2024 1 31);
     mkDevengamiento 2 2 None 2024 1 300 (mkdate 2024 1 31)]
    [mkCobro 1 1 (mkdate 2024 2 10) 600]
    [] [] 2 1 0 0.

(** Three clients with an accrual of January 2024 each: client 1 owes it,
    client 2 has paid it, client 3 owes it and is inactive. *)
Definition ej_morosos : Store :=
  mkStore [mkCliente 1 true; mkCliente 2 true; mkCliente 3 false] []
    [mkDevengamiento 1 1 None 2024 1 1000 (mkdate 2024 1 31);
     mkDevengamiento 2 2 None 2024 1 300 (mkdate 2024 1 31);
     mkDevengamiento 3 3 None 2024 1 200 (mkdate 2024 1 31)]
    [mkCobro 1 2 (mkdate 2024 2 10) 300]
    [mkImputacion 1 2 1 300]
    [] 3 1 1 0.

(** Membership in a list written out, by cases. *)
Ltac por_filas :=
  repeat match goal with
         | H : _ \/ _ |- _ => destruct H
         | H : False |- _ => destruct H
         | H : In _ _ |- _ => progress simpl in H
         end;
  subst; simpl in *.

(** * Properties *)

(** ** Arithmetic helpers *)

Lemma Qltb_true (x y : Q) : Qltb x y = true <-> x < y.
Proof.
  unfold Qltb. rewrite negb_true_iff, <- not_true_iff_false, Qle_bool_iff.
  split; intro H; [apply Qnot_le_lt | apply Qlt_not_le]; exact H.
Qed.

Lemma Qltb_false (x y : Q) : Qltb x y = false <-> y <= x.
Proof.
  unfold Qltb. rewrite negb_false_iff. apply Qle_bool_iff.
Qed.

Lemma Qle_bool_false (x y : Q) : Qle_bool x y = false <-> y < x.
Proof.
  rewrite <- not_true_iff_false, Qle_bool_iff.
  split; intro H; [apply Qnot_le_lt | apply Qlt_not_le]; exact H.
Qed.

Lemma eps_pos : 0 < eps.
Proof. reflexivity. Qed.

Lemma py_max_Qmax (a b : Q) : py_max a b == Qmax a b.
Proof.
  unfold py_max. destruct (Qltb a b) eqn:E.
  - apply Qltb_true in E. destruct (Q.max_spec a b) as [[_ H] | [H1 H]]; rewrite H; lra.
  - apply Qltb_false in E. destruct (Q.max_spec a b) as [[H1 H] | [_ H]]; rewrite H; lra.
Qed.

Lemma py_min_Qmin (a b : Q) : py_min a b == Qmin a b.
Proof.
  unfold py_min. destruct (Qltb b a) eqn:E.
  - apply Qltb_true in E. destruct (Q.min_spec a b) as [[H1 H] | [_ H]]; rewrite H; lra.
  - apply Qltb_false in E. destruct (Q.min_spec a b) as [[_ H] | [H1 H]]; rewrite H; lra.
Qed.

Lemma py_max_nonneg (x : Q) : 0 <= py_max 0 x.
Proof.
  unfold py_max. destruct (Qltb 0 x) eqn:E; [apply Qltb_true in E|]; lra.
Qed.

Lemma sum_montos_app (l1 l2 : list Q) :
  sum_montos (l1 ++ l2) == sum_montos l1 + sum_montos l2.
Proof.
  induction l1 as [|x l1 IH]; simpl; [|rewrite IH]; lra.
Qed.

Lemma suma_donde_acc {A : Type} (p : A -> bool) (f : A -> Q) (l : list A) (acc : Q) :
  fold_left (fun acc x => if p x then acc + f x else acc) l acc
  == acc + sum_montos (map f (filter p l)).
Proof.
  revert acc. induction l as [|x l IH]; intro acc; simpl.
  - lra.
  - rewrite IH. destruct (p x); simpl; lra.
Qed.

Lemma suma_donde_filter {A : Type} (p : A -> bool) (f : A -> Q) (l : list A) :
  suma_donde p f l == sum_montos (map f (filter p l)).
Proof.
  unfold suma_donde. rewrite suma_donde_acc. lra.
Qed.

(** ** Balance calculator *)

Lemma find_por_id (l : list Devengamiento) (d : Devengamiento) :
  NoDup (map dv_id l) -> In d l ->
  find (fun x => (dv_id x =? dv_id d)%Z) l = Some d.
Proof.
  induction l as [|x l IH]; simpl; intros Hnd Hin; [contradiction|].
  inversion Hnd as [|? ? Hnot Hnd']; subst.
  destruct Hin as [-> | Hin].
  - now rewrite Z.eqb_refl.
  - destruct (dv_id x =? dv_id d)%Z eqn:E.
    + apply Z.eqb_eq in E. exfalso. apply Hnot. rewrite E. now apply in_map.
    + now apply IH.
Qed.

Lemma devengamiento_saldo_nonneg (s : Store) (id : Z) :
  0 <= devengamiento_saldo s id.
Proof.
  unfold devengamiento_saldo.
  destruct (find _ _); [apply py_max_nonneg | lra].
Qed.

(** C1.  For every accrual present in the store, the balance calculator
    returns max(0, amount + sum of the adjustments that reference the accrual
    - sum of the allocations applied to it); the balance of every accrual id,
    present or not, is never negative. *)
Theorem devengamiento_saldo_formula (s : Store) (d : Devengamiento) :
  pk_devengamientos s ->
  In d (devengamientos s) ->
  devengamiento_saldo s (dv_id d) == balance_formula s d
  /\ (forall id, 0 <= devengamiento_saldo s id).
Proof.
  intros Hpk Hin. split; [|apply devengamiento_saldo_nonneg].
  unfold devengamiento_saldo, balance_formula.
  rewrite (find_por_id _ _ Hpk Hin). cbv zeta.
  rewrite py_max_Qmax, !suma_donde_filter.
  reflexivity.
Qed.

(** ** Accrual generator *)

Section Generacion.

Variable fe : frontend.
Variables anyo mes : Z.
Variables periodo_start periodo_end : date.

Let paso := procesar_plan fe anyo mes periodo_start periodo_end.
Let bucle := generar_loop fe anyo mes periodo_start periodo_end.

(** One plan either leaves the store alone or appends exactly one accrual
    built from the plan. *)
Lemma procesar_plan_cases (s : Store) (p : Plan) :
  (fst (paso s p) = s /\ snd (paso s p) <> Creado
   /\ (vigente fe periodo_start periodo_end p = false
       \/ existe_devengamiento s (pl_cliente_id p) (pl_id p) anyo mes = true
       \/ insertable fe mes s p = false))
  \/ (snd (paso s p) = Creado
      /\ vigente fe periodo_start periodo_end p = true
      /\ existe_devengamiento s (pl_cliente_id p) (pl_id p) anyo mes = false
      /\ insertable fe mes s p = true
      /\ fst (paso s p) =
         mkStore (clientes s) (planes s)
           (devengamientos s
              ++ [mkDevengamiento (seq_devengamientos s + 1) (pl_cliente_id p)
                    (Some (pl_id p)) anyo mes (pl_importe p)
                    (fecha_dev fe periodo_start periodo_end)])
           (cobros s) (devengamientos_cobros s) (ajustes s)
           (seq_devengamientos s + 1) (seq_cobros s)
           (seq_devengamientos_cobros s) (seq_ajustes s)).
Proof.
  unfold paso, procesar_plan, insert_devengamiento, insertable.
  destruct (vigente fe periodo_start periodo_end p); simpl.
  2: { left. repeat split; auto; discriminate. }
  destruct (existe_devengamiento s (pl_cliente_id p) (pl_id p) anyo mes); simpl.
  1: { left. repeat split; auto; discriminate. }
  rewrite andb_true_r.
  destruct (cliente_exists s (pl_cliente_id p) && plan_exists s (pl_id p)
            && (if has_checks fe
                then Qle_bool 0 (pl_importe p) && (1 <=? mes)%Z && (mes <=? 12)%Z
                else true)); simpl.
  - right. repeat split; auto.
  - left. repeat split; auto; discriminate.
Qed.

Lemma existe_devengamiento_app (s : Store) (extra : list Devengamiento)
    (c pl : Z) s' :
  devengamientos s' = devengamientos s ++ extra ->
  existe_devengamiento s c pl anyo mes = true ->
  existe_devengamiento s' c pl anyo mes = true.
Proof.
  unfold existe_devengamiento. intros -> H.
  rewrite existsb_app, H. reflexivity.
Qed.

Lemma existe_devengamiento_nuevo (s : Store) (p : Plan) s' id q f :
  devengamientos s' =
    devengamientos s
      ++ [mkDevengamiento id (pl_cliente_id p) (Some (pl_id p)) anyo mes q f] ->
  existe_devengamiento s' (pl_cliente_id p) (pl_id p) anyo mes = true.
Proof.
  unfold existe_devengamiento. intros ->.
  rewrite existsb_app. simpl. rewrite !Z.eqb_refl. simpl.
  now rewrite orb_true_r.
Qed.

(** What a plan's step preserves. *)
Lemma procesar_plan_frame (s : Store) (p : Plan) :
  clientes (fst (paso s p)) = clientes s
  /\ planes (fst (paso s p)) = planes s
  /\ cobros (fst (paso s p)) = cobros s
  /\ devengamientos_cobros (fst (paso s p)) = devengamientos_cobros s
  /\ ajustes (fst (paso s p)) = ajustes s
  /\ seq_cobros (fst (paso s p)) = seq_cobros s
  /\ exists extra, devengamientos (fst (paso s p)) = devengamientos s ++ extra.
Proof.
  destruct (procesar_plan_cases s p) as [[-> _] | (_ & _ & _ & _ & ->)]; simpl.
  - repeat split; auto. exists []. now rewrite app_nil_r.
  - repeat split; auto. eexists. reflexivity.
Qed.

Lemma insertable_frame (s s' : Store) (p : Plan) :
  clientes s' = clientes s -> planes s' = planes s ->
  insertable fe mes s' p = insertable fe mes s p.
Proof.
  unfold insertable, cliente_exists, plan_exists.
  now intros -> ->.
Qed.

Lemma generar_loop_frame (rows : list Plan) (s : Store) (c : conteo) :
  clientes (fst (bucle rows s c)) = clientes s
  /\ planes (fst (bucle rows s c)) = planes s
  /\ cobros (fst (bucle rows s c)) = cobros s
  /\ devengamientos_cobros (fst (bucle rows s c)) = devengamientos_cobros s
  /\ ajustes (fst (bucle rows s c)) = ajustes s
  /\ seq_cobros (fst (bucle rows s c)) = seq_cobros s
  /\ exists extra, devengamientos (fst (bucle rows s c)) = devengamientos s ++ extra.
Proof.
  revert s c. induction rows as [|p rows IH]; intros s c; simpl.
  - repeat split; auto. exists []. now rewrite app_nil_r.
  - unfold bucle in *. simpl.
    pose proof (procesar_plan_frame s p) as (F1 & F2 & F3 & F4 & F5 & F6 & [e1 F7]).
    unfold paso in *.
    destruct (procesar_plan fe anyo mes periodo_start periodo_end s p) as [s1 r].
    simpl in *.
    destruct (IH s1 (contar c r)) as (G1 & G2 & G3 & G4 & G5 & G6 & [e2 G7]).
    repeat split; try congruence.
    exists (e1 ++ e2). rewrite G7, F7. now rewrite app_assoc.
Qed.

(** After the loop, every processed plan is out of force, already has its
    accrual for the period, or cannot be inserted at all. *)
Lemma generar_loop_cubre (rows : list Plan) (s : Store) (c : conteo) (p : Plan) :
  In p rows ->
  vigente fe periodo_start periodo_end p = false
  \/ existe_devengamiento (fst (bucle rows s c)) (pl_cliente_id p) (pl_id p) anyo mes = true
  \/ insertable fe mes (fst (bucle rows s c)) p = false.
Proof.
  revert s c. induction rows as [|x rows IH]; intros s c Hin; [contradiction|].
  unfold bucle in *. simpl.
  pose proof (procesar_plan_cases s x) as Hc.
  pose proof (procesar_plan_frame s x) as (F1 & F2 & _).
  unfold paso in *.
  destruct (procesar_plan fe anyo mes periodo_start periodo_end s x) as [s1 r].
  simpl in *.
  destruct Hin as [-> | Hin]; [|now apply IH].
  pose proof (generar_loop_frame rows s1 (contar c r)) as (G1 & G2 & _ & _ & _ & _ & [e G7]).
  unfold bucle in *.
  destruct Hc as [(-> & _ & [H | [H | H]]) | (_ & _ & _ & _ & ->)].
  - now left.
  - right; left. eapply existe_devengamiento_app; eauto.
  - right; right. rewrite <- H. apply insertable_frame; congruence.
  - right; left. eapply existe_devengamiento_app; eauto.
    eapply existe_devengamiento_nuevo. reflexivity.
Qed.

(** A loop over plans that are all covered creates nothing. *)
Lemma generar_loop_quieto (rows : list Plan) (s : Store) (c : conteo) :
  (forall p, In p rows ->
     vigente fe periodo_start periodo_end p = false
     \/ existe_devengamiento s (pl_cliente_id p) (pl_id p) anyo mes = true
     \/ insertable fe mes s p = false) ->
  fst (bucle rows s c) = s /\ created (snd (bucle rows s c)) = created c.
Proof.
  revert c. induction rows as [|x rows IH]; intros c Hall; [now split|].
  unfold bucle in *. simpl.
  pose proof (procesar_plan_cases s x) as Hc. unfold paso in *.
  destruct (procesar_plan fe anyo mes periodo_start periodo_end s x) as [s1 r].
  simpl in *.
  destruct Hc as [(-> & Hr & _) | (_ & Hv)].
  - destruct (IH (contar c r)) as [E1 E2]; [intros; apply Hall; now right|].
    split; [exact E1|]. rewrite E2. destruct r; simpl; congruence.
  - exfalso. destruct Hv as (Hv & He & Hi & _).
    destruct (Hall x (or_introl eq_refl)) as [H | [H | H]]; congruence.
Qed.

End Generacion.

Lemma planes_a_procesar_frame (s s' : Store) :
  clientes s' = clientes s -> planes s' = planes s ->
  planes_a_procesar s' = planes_a_procesar s.
Proof.
  unfold planes_a_procesar. now intros -> ->.
Qed.

Lemma planes_a_procesar_in (s : Store) (p : Plan) :
  In p (planes_a_procesar s) ->
  In p (planes s) /\ pl_activo p = true
  /\ exists c, In c (clientes s) /\ cl_id c = pl_cliente_id p /\ cl_activo c = true.
Proof.
  unfold planes_a_procesar. rewrite in_flat_map.
  intros (q & Hq & Hin). apply filter_In in Hq as [Hq Hact].
  apply in_map_iff in Hin as (c & <- & Hc).
  apply filter_In in Hc as [Hc Hb]. apply andb_true_iff in Hb as [Hid Hca].
  apply Z.eqb_eq in Hid. repeat split; auto. now exists c.
Qed.

(** A second run on the store left by a first run changes nothing and
    creates nothing. *)
Lemma generar_estable (fe : frontend) (s : Store) (anyo mes : Z) :
  fst (generar fe (fst (generar fe s anyo mes)) anyo mes) = fst (generar fe s anyo mes)
  /\ forall c2,
       snd (generar fe (fst (generar fe s anyo mes)) anyo mes) = Generado c2 ->
       created c2 = 0%nat.
Proof.
  unfold generar.
  destruct (make anyo mes 1) as [ps|]; [|simpl; split; [reflexivity | discriminate]].
  destruct (periodo_end_de fe anyo mes) as [pe|];
    [|simpl; split; [reflexivity | discriminate]].
  pose proof (generar_loop_frame fe anyo mes ps pe (planes_a_procesar s) s (mkConteo 0 0 0))
    as (F1 & F2 & _).
  pose proof (fun p => generar_loop_cubre fe anyo mes ps pe (planes_a_procesar s) s
                         (mkConteo 0 0 0) p) as Hcub.
  destruct (generar_loop fe anyo mes ps pe (planes_a_procesar s) s (mkConteo 0 0 0))
    as [s1 c1].
  simpl in *.
  rewrite (planes_a_procesar_frame s s1 F1 F2).
  destruct (generar_loop_quieto fe anyo mes ps pe (planes_a_procesar s) s1
              (mkConteo 0 0 0) Hcub) as [Q1 Q2].
  destruct (generar_loop fe anyo mes ps pe (planes_a_procesar s) s1 (mkConteo 0 0 0))
    as [s2 c2].
  simpl in *. split; [exact Q1|]. intros c [= <-]. exact Q2.
Qed.

(** Whether a run gets as far as the loop depends on the period alone. *)
Lemma generar_clase (fe : frontend) (s s' : Store) (anyo mes : Z) (c : conteo) :
  snd (generar fe s anyo mes) = Generado c ->
  exists c', snd (generar fe s' anyo mes) = Generado c'.
Proof.
  unfold generar.
  destruct (make anyo mes 1) as [ps|]; [|discriminate].
  destruct (periodo_end_de fe anyo mes) as [pe|]; [|discriminate].
  intros _.
  destruct (generar_loop fe anyo mes ps pe (planes_a_procesar s') s' (mkConteo 0 0 0))
    as [s2 c2].
  now exists c2.
Qed.

(** C5.  Generation for a fixed (year, month) is idempotent: a second run on
    the store left by the first creates no accrual and leaves the store, and
    so the accrual set, as it was. *)
Theorem generar_idempotente (fe : frontend) (s s1 : Store) (anyo mes : Z) (c1 : conteo) :
  generar fe s anyo mes = (s1, Generado c1) ->
  exists c2,
    generar fe s1 anyo mes = (s1, Generado c2)
    /\ created c2 = 0%nat
    /\ devengamientos_nuevos s1 (fst (generar fe s1 anyo mes)) = [].
Proof.
  intro H.
  destruct (generar_estable fe s anyo mes) as [Hs Hc].
  destruct (generar_clase fe s s1 anyo mes c1) as [c2 Hk]; [now rewrite H|].
  rewrite H in Hs, Hc. simpl in Hs, Hc.
  exists c2. split; [|split].
  - rewrite (surjective_pairing (generar fe s1 anyo mes)). now rewrite Hs, Hk.
  - now apply Hc.
  - rewrite Hs. unfold devengamientos_nuevos. apply skipn_all.
Qed.

(** The same for the entry point of the text menu, with its defaults for a
    missing month or year. *)
Corollary generate_devengamientos_for_idempotente
    (s s1 : Store) (hoy : date) (month year : option Z) (c1 : conteo) :
  generate_devengamientos_for s hoy month year = (s1, Generado c1) ->
  exists c2,
    generate_devengamientos_for s1 hoy month year = (s1, Generado c2)
    /\ created c2 = 0%nat.
Proof.
  unfold generate_devengamientos_for.
  destruct (negb _); [discriminate|].
  set (m := if truthy month then _ else _). set (y := if truthy year then _ else _).
  intro H.
  destruct (generar_estable Cli s y m) as [Hs Hc].
  destruct (generar_clase Cli s s1 y m c1) as [c2 Hk]; [now rewrite H|].
  rewrite H in Hs, Hc. simpl in Hs, Hc.
  exists c2. split; [|now apply Hc].
  rewrite (surjective_pairing (generar Cli s1 y m)). now rewrite Hs, Hk.
Qed.

(** ** Dates of a period *)

Lemma days_in_month_bounds (y m : Z) : (28 <= days_in_month y m <= 31)%Z.
Proof.
  unfold days_in_month.
  destruct (m =? 2)%Z; [destruct (leap y); lia|].
  destruct ((m =? 4) || (m =? 6) || (m =? 9) || (m =? 11))%Z; lia.
Qed.

Lemma make_some (y m d : Z) (x : date) :
  make y m d = Some x <->
  (1 <= y <= 9999 /\ 1 <= m <= 12 /\ 1 <= d <= days_in_month y m)%Z
  /\ x = mkdate y m d.
Proof.
  unfold make.
  destruct ((1 <=? y) && (y <=? 9999) && (1 <=? m) && (m <=? 12)
            && (1 <=? d) && (d <=? days_in_month y m))%Z eqn:E.
  - rewrite !andb_true_iff, !Z.leb_le in E.
    split; [intros [= <-]; split; [lia | reflexivity] | intros [_ ->]; reflexivity].
  - split; [discriminate|]. intros [H _].
    rewrite !andb_false_iff, !Z.leb_gt in E. lia.
Qed.

Lemma make_none (y m d : Z) :
  (days_in_month y m < d)%Z -> make y m d = None.
Proof.
  intro H. destruct (make y m d) eqn:E; [|reflexivity].
  apply make_some in E. lia.
Qed.

(** Inside the calendar, [ultimo_dia_mes] is the day numbered
    [days_in_month]. *)
Lemma ultimo_dia_mes_valor (anyo mes : Z) (ps : date) :
  make anyo mes 1 = Some ps ->
  ultimo_dia_mes anyo mes = Some (mkdate anyo mes (days_in_month anyo mes)).
Proof.
  intro H. apply make_some in H as [(Hy & Hm & _) _].
  unfold ultimo_dia_mes.
  destruct (mes =? 12)%Z eqn:E.
  - apply Z.eqb_eq in E. subst mes.
    apply make_some. split; [|reflexivity]. cbn. lia.
  - apply Z.eqb_neq in E.
    assert (Hn : make anyo (mes + 1) 1 = Some (mkdate anyo (mes + 1) 1)).
    { apply make_some. split; [|reflexivity].
      pose proof (days_in_month_bounds anyo (mes + 1)). lia. }
    rewrite Hn. unfold pred_day. simpl.
    destruct (1 <? mes + 1)%Z eqn:E2; [|apply Z.ltb_ge in E2; lia].
    now replace (mes + 1 - 1)%Z with mes by lia.
Qed.

Lemma periodo_end_web (fe : frontend) (anyo mes : Z) (ps pe : date) :
  fe <> Cli ->
  make anyo mes 1 = Some ps ->
  periodo_end_de fe anyo mes = Some pe ->
  pe = mkdate anyo mes (days_in_month anyo mes).
Proof.
  intros Hfe Hps Hpe. pose proof (ultimo_dia_mes_valor _ _ _ Hps) as Hu.
  destruct fe; [congruence | |]; simpl in Hpe.
  - congruence.
  - unfold ultimo_dia_mes_v2 in Hpe. rewrite Hu in Hpe. congruence.
Qed.

Lemma es_ultimo_dia_days_in_month (anyo mes : Z) (ps : date) :
  make anyo mes 1 = Some ps ->
  es_ultimo_dia anyo mes (mkdate anyo mes (days_in_month anyo mes)).
Proof.
  intro H. apply make_some in H as [(Hy & Hm & _) _].
  pose proof (days_in_month_bounds anyo mes).
  split; simpl.
  - apply make_some. split; [lia | reflexivity].
  - apply make_none. lia.
Qed.

Lemma es_ultimo_dia_unico (anyo mes : Z) (d : date) :
  es_ultimo_dia anyo mes d -> d = mkdate anyo mes (days_in_month anyo mes).
Proof.
  intros [H1 H2]. apply make_some in H1 as [(Hy & Hm & Hd) Hx].
  rewrite Hx. f_equal.
  destruct (Z.eq_dec (day d) (days_in_month anyo mes)) as [->|Hne]; [reflexivity|].
  exfalso.
  assert (Hs : make anyo mes (day d + 1) = Some (mkdate anyo mes (day d + 1))).
  { apply make_some. split; [lia | reflexivity]. }
  congruence.
Qed.

(** ** Vigency and the generated rows *)

(** The plan vigency boundary, as the two dashboards implement it: a plan
    that starts after the last day of the period is skipped, a plan that ends
    before its first day is skipped, and a plan without end date that has
    started by the last day of the period is in force. *)
Lemma vigencia_web (fe : frontend) (anyo mes : Z) (ps pe : date) (s : Store) (p : Plan) :
  fe <> Cli ->
  make anyo mes 1 = Some ps ->
  periodo_end_de fe anyo mes = Some pe ->
  (ltb (mkdate anyo mes (days_in_month anyo mes)) (pl_fecha_inicio p) = true ->
   procesar_plan fe anyo mes ps pe s p = (s, Omitido))
  /\ (forall fin, pl_fecha_fin p = Some fin -> ltb fin (mkdate anyo mes 1) = true ->
      procesar_plan fe anyo mes ps pe s p = (s, Omitido))
  /\ (pl_fecha_fin p = None ->
      ltb (mkdate anyo mes (days_in_month anyo mes)) (pl_fecha_inicio p) = false ->
      vigente fe ps pe p = true).
Proof.
  intros Hfe Hps Hpe.
  pose proof (periodo_end_web _ _ _ _ _ Hfe Hps Hpe) as ->.
  apply make_some in Hps as [_ ->].
  assert (Hv : vigente fe (mkdate anyo mes 1) (mkdate anyo mes (days_in_month anyo mes)) p
               = vigente_web (mkdate anyo mes 1) (mkdate anyo mes (days_in_month anyo mes)) p)
    by (destruct fe; [congruence | reflexivity | reflexivity]).
  unfold procesar_plan. rewrite Hv. unfold vigente_web, gtb.
  repeat split.
  - intros ->. reflexivity.
  - intros fin -> ->. now destruct (ltb _ (pl_fecha_inicio p)).
  - intros -> ->. reflexivity.
Qed.

(** The text menu skips the same two kinds of plan. *)
Lemma vigencia_cli_omite (anyo mes : Z) (ps pe : date) (s : Store) (p : Plan) :
  make anyo mes 1 = Some ps ->
  (ltb (mkdate anyo mes (days_in_month anyo mes)) (pl_fecha_inicio p) = true ->
   procesar_plan Cli anyo mes ps pe s p = (s, Omitido))
  /\ (forall fin, pl_fecha_fin p = Some fin -> ltb fin (mkdate anyo mes 1) = true ->
      procesar_plan Cli anyo mes ps pe s p = (s, Omitido)).
Proof.
  intro Hps. apply make_some in Hps as [_ ->].
  pose proof (days_in_month_bounds anyo mes) as Hb.
  unfold procesar_plan, vigente, vigente_cli. split.
  - intro H.
    assert (E : gtb (pl_fecha_inicio p) (mkdate anyo mes 1) = true)
      by (destruct (pl_fecha_inicio p); fecha_lia).
    now rewrite E.
  - intros fin -> H.
    destruct (gtb (pl_fecha_inicio p) (mkdate anyo mes 1)); [reflexivity|].
    assert (E : ltb fin (mkdate anyo mes 28) = true) by (destruct fin; fecha_lia).
    simpl. now rewrite E.
Qed.

(** In the text menu a plan without end date is in force exactly when it has
    started by the first day of the period. *)
Lemma vigencia_cli_sin_fin (ps : date) (p : Plan) :
  pl_fecha_fin p = None ->
  vigente_cli ps p = negb (ltb ps (pl_fecha_inicio p)).
Proof.
  unfold vigente_cli, gtb. intros ->. now destruct (ltb ps (pl_fecha_inicio p)).
Qed.

(** The rows appended by the loop: one per created accrual, each built from
    one of the processed plans and dated [fecha_dev]. *)
Lemma generar_loop_filas (fe : frontend) (anyo mes : Z) (ps pe : date)
    (rows : list Plan) (s : Store) (c : conteo) :
  exists extra,
    devengamientos (fst (generar_loop fe anyo mes ps pe rows s c))
    = devengamientos s ++ extra
    /\ created (snd (generar_loop fe anyo mes ps pe rows s c))
       = (created c + List.length extra)%nat
    /\ Forall (fun d => dv_fecha_devengada d = fecha_dev fe ps pe
                        /\ exists p, In p rows /\ generado_de anyo mes p d) extra.
Proof.
  revert s c. induction rows as [|x rows IH]; intros s c; simpl.
  - exists []. rewrite app_nil_r. repeat split; auto.
  - pose proof (procesar_plan_cases fe anyo mes ps pe s x) as Hc.
    destruct (procesar_plan fe anyo mes ps pe s x) as [s1 r]. simpl in Hc.
    destruct (IH s1 (contar c r)) as (e & E1 & E2 & E3).
    assert (E3' : Forall (fun d => dv_fecha_devengada d = fecha_dev fe ps pe
                   /\ exists p, In p (x :: rows) /\ generado_de anyo mes p d) e).
    { eapply Forall_impl; [|exact E3]. intros d (Hd & q & Hq & Hg).
      split; [exact Hd|]. exists q. split; [now right | exact Hg]. }
    destruct Hc as [(-> & Hr & _) | (Hr & _ & _ & _ & Hs)].
    + exists e. repeat split; auto. rewrite E2. destruct r; simpl; congruence.
    + subst r s1.
      exists (mkDevengamiento (seq_devengamientos s + 1) (pl_cliente_id x)
                (Some (pl_id x)) anyo mes (pl_importe x) (fecha_dev fe ps pe) :: e).
      split; [rewrite E1; simpl; now rewrite <- app_assoc|]. split.
      * rewrite E2. simpl. lia.
      * constructor; [|exact E3']. simpl. split; [reflexivity|].
        exists x. split; [now left|]. repeat split.
Qed.

Lemma generar_filas (fe : frontend) (s s' : Store) (anyo mes : Z) (c : conteo)
    (ps pe : date) :
  make anyo mes 1 = Some ps ->
  periodo_end_de fe anyo mes = Some pe ->
  generar fe s anyo mes = (s', Generado c) ->
  List.length (devengamientos_nuevos s s') = created c
  /\ forall d, In d (devengamientos_nuevos s s') ->
       dv_fecha_devengada d = fecha_dev fe ps pe
       /\ exists p, In p (planes s) /\ pl_activo p = true /\ generado_de anyo mes p d.
Proof.
  unfold generar. intros -> -> H.
  destruct (generar_loop_filas fe anyo mes ps pe (planes_a_procesar s) s (mkConteo 0 0 0))
    as (e & E1 & E2 & E3).
  destruct (generar_loop fe anyo mes ps pe (planes_a_procesar s) s (mkConteo 0 0 0))
    as [sa ca].
  simpl in *. inversion H; subst sa ca; clear H.
  unfold devengamientos_nuevos. rewrite E1, skipn_app, skipn_all, Nat.sub_diag. simpl.
  split; [now rewrite E2|].
  intros d Hd. rewrite Forall_forall in E3. destruct (E3 d Hd) as (Hf & p & Hp & Hg).
  split; [exact Hf|]. exists p.
  apply planes_a_procesar_in in Hp as (Hp & Ha & _). auto.
Qed.

(** The generator of the dashboards: every accrual that it creates for
    (year, month) is dated to the last calendar day of the month and
    carries the amount of its plan. *)
Lemma generar_web_fecha_importe (fe : frontend) (s s' : Store) (anyo mes : Z)
    (c : conteo) :
  fe <> Cli ->
  generar fe s anyo mes = (s', Generado c) ->
  forall d, In d (devengamientos_nuevos s s') ->
    es_ultimo_dia anyo mes (dv_fecha_devengada d)
    /\ exists p, In p (planes s) /\ pl_activo p = true /\ generado_de anyo mes p d.
Proof.
  intros Hfe H d Hd.
  assert (Hsome : exists ps pe, make anyo mes 1 = Some ps
                                /\ periodo_end_de fe anyo mes = Some pe).
  { unfold generar in H. destruct (make anyo mes 1) as [ps|]; [|discriminate].
    destruct (periodo_end_de fe anyo mes) as [pe|]; [|discriminate]. eauto. }
  destruct Hsome as (ps & pe & Hps & Hpe).
  destruct (generar_filas _ _ _ _ _ _ _ _ Hps Hpe H) as [_ Hall].
  destruct (Hall d Hd) as (Hf & Hp). split; [|exact Hp].
  rewrite Hf. pose proof (periodo_end_web _ _ _ _ _ Hfe Hps Hpe) as ->.
  destruct fe; [congruence | |]; simpl; eapply es_ultimo_dia_days_in_month; eauto.
Qed.

(** The text menu dates every accrual it creates to the first day of the
    month, which is never the last one; the amount is that of the plan. *)
Lemma generar_cli_fecha_importe (s s' : Store) (anyo mes : Z) (c : conteo) :
  generar Cli s anyo mes = (s', Generado c) ->
  forall d, In d (devengamientos_nuevos s s') ->
    dv_fecha_devengada d = mkdate anyo mes 1
    /\ ~ es_ultimo_dia anyo mes (dv_fecha_devengada d)
    /\ exists p, In p (planes s) /\ pl_activo p = true /\ generado_de anyo mes p d.
Proof.
  intros H d Hd.
  assert (Hsome : exists ps pe, make anyo mes 1 = Some ps
                                /\ periodo_end_de Cli anyo mes = Some pe).
  { unfold generar in H. destruct (make anyo mes 1) as [ps|]; [|discriminate].
    destruct (periodo_end_de Cli anyo mes) as [pe|]; [|discriminate]. eauto. }
  destruct Hsome as (ps & pe & Hps & Hpe).
  destruct (generar_filas _ _ _ _ _ _ _ _ Hps Hpe H) as [_ Hall].
  destruct (Hall d Hd) as (Hf & Hp). simpl in Hf.
  pose proof Hps as Hps'. apply make_some in Hps' as [_ ->].
  repeat split; auto.
  rewrite Hf. intro Hu. apply es_ultimo_dia_unico in Hu.
  pose proof (days_in_month_bounds anyo mes). injection Hu. lia.
Qed.

(** ** Inserting an allocation *)

Lemma solo_imputaciones_refl (s : Store) : solo_imputaciones s s.
Proof. repeat split. Qed.

Lemma solo_imputaciones_trans (s1 s2 s3 : Store) :
  solo_imputaciones s1 s2 -> solo_imputaciones s2 s3 -> solo_imputaciones s1 s3.
Proof.
  unfold solo_imputaciones. intuition congruence.
Qed.

Lemma insert_imputacion_some (fe : frontend) (s s' : Store) (d c : Z) (m : Q) :
  insert_imputacion fe s d c m = Some s' ->
  solo_imputaciones s s'
  /\ devengamientos_cobros s' =
     devengamientos_cobros s
       ++ [mkImputacion (seq_devengamientos_cobros s + 1) d c m].
Proof.
  unfold insert_imputacion.
  destruct (_ && _); [|discriminate].
  intros [= <-]. simpl. repeat split.
Qed.

Lemma insert_imputacion_ok (fe : frontend) (s : Store) (d c : Z) (m : Q) :
  devengamiento_exists s d = true -> cobro_exists s c = true -> 0 < m ->
  exists s', insert_imputacion fe s d c m = Some s'.
Proof.
  intros Hd Hc Hm. unfold insert_imputacion. rewrite Hd, Hc.
  apply Qltb_true in Hm. rewrite Hm.
  destruct (has_checks fe); simpl; eauto.
Qed.

Lemma exists_frame (s s' : Store) :
  solo_imputaciones s s' ->
  (forall id, devengamiento_exists s' id = devengamiento_exists s id)
  /\ (forall id, cobro_exists s' id = cobro_exists s id).
Proof.
  intros (_ & _ & Hd & Hc & _). unfold devengamiento_exists, cobro_exists.
  rewrite Hd, Hc. auto.
Qed.

(** An allocation against another accrual leaves a balance as it was. *)
Lemma saldo_otro (s s' : Store) (row : Imputacion) (id : Z) :
  solo_imputaciones s s' ->
  devengamientos_cobros s' = devengamientos_cobros s ++ [row] ->
  im_devengamiento_id row <> id ->
  devengamiento_saldo s' id = devengamiento_saldo s id.
Proof.
  intros (_ & _ & Hd & _ & Ha & _) Hr Hne.
  unfold devengamiento_saldo, aplicado, ajustes_de.
  rewrite Hd, Ha, Hr, filter_app. simpl.
  apply Z.eqb_neq in Hne. rewrite Hne, app_nil_r. reflexivity.
Qed.

Lemma py_min_pos (a b : Q) : eps < a -> eps < b -> 0 < py_min a b.
Proof.
  intros Ha Hb. pose proof eps_pos. unfold py_min. destruct (Qltb b a); lra.
Qed.

(** ** Automatic allocation walks the balances *)

Lemma imputar_loop_repartir (fe : frontend) (snap base : Store) (cobro : Z)
    (devs : list Devengamiento) :
  NoDup (map dv_id devs) ->
  forall (cur : Store) (restante : Q),
  (forall d, In d devs -> devengamiento_exists cur (dv_id d) = true) ->
  cobro_exists cur cobro = true ->
  (forall d, In d devs ->
     devengamiento_saldo (vista fe snap cur) (dv_id d) = devengamiento_saldo base (dv_id d)) ->
  exists nuevas,
    imputar_loop fe snap cobro devs cur restante
    = mkImputado (r_store (imputar_loop fe snap cobro devs cur restante))
        (snd (repartir restante
                (map (fun d => (dv_id d, devengamiento_saldo base (dv_id d))) devs)))
        true
    /\ solo_imputaciones cur (r_store (imputar_loop fe snap cobro devs cur restante))
    /\ devengamientos_cobros (r_store (imputar_loop fe snap cobro devs cur restante))
       = devengamientos_cobros cur ++ nuevas
    /\ map (fun i => (im_devengamiento_id i, im_monto i)) nuevas
       = fst (repartir restante
                (map (fun d => (dv_id d, devengamiento_saldo base (dv_id d))) devs))
    /\ Forall (fun i => im_cobro_id i = cobro) nuevas.
Proof.
  induction devs as [|d rest IH]; intros Hnd cur restante Hex Hc Hv.
  - exists []. simpl. rewrite app_nil_r. repeat split. constructor.
  - inversion Hnd as [|? ? Hnot Hnd']; subst. simpl.
    destruct (Qle_bool restante eps) eqn:E1.
    { exists []. simpl. rewrite app_nil_r. repeat split. constructor. }
    rewrite (Hv d (or_introl eq_refl)).
    destruct (Qle_bool (devengamiento_saldo base (dv_id d)) eps) eqn:E2.
    { apply IH; auto. intros; apply Hex; now right. intros; apply Hv; now right. }
    apply Qle_bool_false in E1, E2.
    pose proof (py_min_pos _ _ E1 E2) as Hpos.
    destruct (insert_imputacion_ok fe cur (dv_id d) cobro _
                (Hex d (or_introl eq_refl)) Hc Hpos) as [cur' Hins].
    rewrite Hins.
    destruct (insert_imputacion_some _ _ _ _ _ _ Hins) as [Hf Hrows].
    destruct (exists_frame _ _ Hf) as [Hed Hec].
    destruct (IH Hnd' cur' (restante - py_min restante (devengamiento_saldo base (dv_id d))))
      as (nuevas & E & Hs & Hr & Hm & Hall).
    + intros x Hx. rewrite Hed. apply Hex. now right.
    + now rewrite Hec.
    + intros x Hx. rewrite <- (Hv x (or_intror Hx)).
      destruct fe; simpl; try reflexivity;
        (eapply saldo_otro; [exact Hf | exact Hrows |]; simpl;
         intro Heq; apply Hnot; rewrite Heq; now apply in_map).
    + destruct (repartir _ (map _ rest)) as [l r] eqn:Er. simpl in *.
      eexists (_ :: nuevas). rewrite E at 1. simpl.
      split; [reflexivity|].
      split; [eapply solo_imputaciones_trans; eauto|].
      split; [rewrite Hr, Hrows, <- app_assoc; reflexivity|].
      split; [simpl; now rewrite Hm|].
      constructor; [reflexivity | exact Hall].
Qed.

(** ** The walk over the balances *)

Section Repartir.

Implicit Types (restante : Q) (saldos : list (Z * Q)).

Lemma repartir_agotado restante saldos :
  restante <= eps -> repartir restante saldos = ([], restante).
Proof.
  intro H. destruct saldos as [|[id b] rest]; simpl; [reflexivity|].
  apply Qle_bool_iff in H. now rewrite H.
Qed.

(** The walk over a concatenation is the walk over the first part followed
    by the walk over the second with what the first left. *)
Lemma repartir_app restante (pre post : list (Z * Q)) :
  repartir restante (pre ++ post)
  = (fst (repartir restante pre) ++ fst (repartir (snd (repartir restante pre)) post),
     snd (repartir (snd (repartir restante pre)) post)).
Proof.
  revert restante. induction pre as [|[id b] pre IH]; intro restante; simpl.
  - now destruct (repartir restante post).
  - destruct (Qle_bool restante eps) eqn:E1; simpl.
    + apply Qle_bool_iff in E1. now rewrite (repartir_agotado _ post E1).
    + destruct (Qle_bool b eps); [apply IH|].
      rewrite IH.
      destruct (repartir (restante - py_min restante b) pre) as [l r]. reflexivity.
Qed.

Lemma repartir_total restante saldos :
  sum_montos (montos (fst (repartir restante saldos)))
  == restante - snd (repartir restante saldos).
Proof.
  revert restante. induction saldos as [|[id b] rest IH]; intro restante; simpl.
  - lra.
  - destruct (Qle_bool restante eps); simpl; [lra|].
    destruct (Qle_bool b eps); [apply IH|].
    specialize (IH (restante - py_min restante b)).
    destruct (repartir (restante - py_min restante b) rest) as [l r].
    simpl in *. rewrite IH. lra.
Qed.

Lemma py_min_le (a b : Q) : py_min a b <= a /\ py_min a b <= b.
Proof.
  unfold py_min. destruct (Qltb b a) eqn:E;
    [apply Qltb_true in E | apply Qltb_false in E]; lra.
Qed.

Lemma repartir_resto_nonneg restante saldos :
  0 <= restante -> 0 <= snd (repartir restante saldos).
Proof.
  revert restante. induction saldos as [|[id b] rest IH]; intros restante H; simpl.
  - exact H.
  - destruct (Qle_bool restante eps); simpl; [exact H|].
    destruct (Qle_bool b eps); [now apply IH|].
    specialize (IH (restante - py_min restante b)).
    destruct (repartir (restante - py_min restante b) rest) as [l r].
    simpl in *. apply IH. pose proof (py_min_le restante b). lra.
Qed.

(** Nothing is applied beyond the balances. *)
Lemma repartir_cota restante saldos :
  (forall x, In x saldos -> 0 <= snd x) ->
  sum_montos (montos (fst (repartir restante saldos))) <= sum_montos (montos saldos).
Proof.
  revert restante. induction saldos as [|[id b] rest IH]; intros restante H; simpl.
  - lra.
  - assert (Hb : 0 <= b) by (apply (H (id, b)); now left).
    assert (Hr : forall x, In x rest -> 0 <= snd x) by (intros; apply H; now right).
    assert (Hs : 0 <= sum_montos (montos rest)).
    { clear - Hr. induction rest as [|x rest IH]; simpl; [lra|].
      assert (0 <= snd x) by (apply Hr; now left).
      assert (0 <= sum_montos (montos rest)) by (apply IH; intros; apply Hr; now right).
      lra. }
    destruct (Qle_bool restante eps); simpl; [lra|].
    destruct (Qle_bool b eps); [specialize (IH restante Hr); lra|].
    specialize (IH (restante - py_min restante b) Hr).
    destruct (repartir (restante - py_min restante b) rest) as [l r].
    simpl in *. pose proof (py_min_le restante b). lra.
Qed.

(** Only visited accruals receive something. *)
Lemma repartir_ids restante saldos (id : Z) :
  In id (map fst (fst (repartir restante saldos))) -> In id (map fst saldos).
Proof.
  revert restante. induction saldos as [|[i b] rest IH]; intro restante; simpl.
  - auto.
  - destruct (Qle_bool restante eps); simpl; [contradiction|].
    destruct (Qle_bool b eps); [intro H; right; eapply IH; eauto|].
    specialize (IH (restante - py_min restante b)).
    destruct (repartir (restante - py_min restante b) rest) as [l r].
    simpl in *. intros [H | H]; auto.
Qed.

(** If the walk leaves more than the tolerance, every balance it passed was
    within the tolerance or has been applied in full. *)
Lemma repartir_pagados restante saldos :
  eps < snd (repartir restante saldos) ->
  forall id b, In (id, b) saldos ->
    b <= eps \/ In (id, b) (fst (repartir restante saldos)).
Proof.
  revert restante. induction saldos as [|[i c] rest IH]; intros restante Hr id b Hin.
  - contradiction.
  - simpl in *.
    destruct (Qle_bool restante eps) eqn:E1.
    { apply Qle_bool_iff in E1. simpl in Hr. lra. }
    destruct (Qle_bool c eps) eqn:E2.
    { destruct Hin as [[= <- <-] | Hin]; [left; now apply Qle_bool_iff | now apply IH]. }
    apply Qle_bool_false in E1, E2.
    unfold py_min in *. destruct (Qltb c restante) eqn:E3.
    + specialize (IH (restante - c)).
      destruct (repartir (restante - c) rest) as [l r]. simpl in *.
      destruct Hin as [[= <- <-] | Hin]; [right; now left|].
      destruct (IH Hr id b Hin); auto.
    + exfalso.
      assert (Hz : restante - restante <= eps) by (pose proof eps_pos; lra).
      rewrite (repartir_agotado _ rest Hz) in Hr. simpl in Hr. lra.
Qed.

End Repartir.

Lemma sum_montos_nonneg (l : list Q) :
  (forall b, In b l -> 0 <= b) -> 0 <= sum_montos l.
Proof.
  induction l as [|x l IH]; simpl; intro H; [lra|].
  assert (0 <= x) by (apply H; now left).
  assert (0 <= sum_montos l) by (apply IH; intros; apply H; now right).
  lra.
Qed.

(** When no balance and no intermediate remainder is a residue within the
    tolerance, the walk applies exactly min(amount, total balance). *)
Lemma repartir_exacto (restante : Q) (saldos : list (Z * Q)) :
  0 <= restante ->
  (forall b, In b (montos saldos) -> 0 <= b) ->
  sin_residuos restante (montos saldos) ->
  sum_montos (montos (fst (repartir restante saldos)))
  == Qmin restante (sum_montos (montos saldos))
  /\ snd (repartir restante saldos)
     == Qmax 0 (restante - sum_montos (montos saldos)).
Proof.
  revert restante.
  induction saldos as [|[id b] rest IH]; intros restante Hr Hpos [H1 H2]; simpl.
  - split; qminmax.
  - assert (Hb : 0 <= b) by (apply Hpos; now left).
    assert (Hpos' : forall x, In x (montos rest) -> 0 <= x)
      by (intros; apply Hpos; now right).
    pose proof (sum_montos_nonneg _ Hpos') as HB.
    assert (H1b : b <= 0 \/ eps < b) by (apply H1; now left).
    assert (H1' : forall x, In x (montos rest) -> x <= 0 \/ eps < x)
      by (intros; apply H1; now right).
    pose proof (H2 0%nat) as H20. simpl in H20.
    pose proof eps_pos as Heps.
    destruct (Qle_bool restante eps) eqn:E1.
    { apply Qle_bool_iff in E1. simpl. split; qminmax. }
    apply Qle_bool_false in E1.
    destruct (Qle_bool b eps) eqn:E2.
    { apply Qle_bool_iff in E2.
      destruct (IH restante Hr Hpos') as [I1 I2].
      { split; [exact H1'|]. intro k. specialize (H2 (S k)). simpl in H2. lra. }
      rewrite I1, I2. split; qminmax. }
    apply Qle_bool_false in E2.
    unfold py_min. destruct (Qltb b restante) eqn:E3.
    + apply Qltb_true in E3.
      destruct (IH (restante - b)) as [I1 I2]; [lra | exact Hpos' | |].
      { split; [exact H1'|]. intro k. specialize (H2 (S k)). simpl in H2. lra. }
      destruct (repartir (restante - b) rest) as [l r]. simpl in *.
      rewrite I1, I2. split; qminmax.
    + apply Qltb_false in E3.
      assert (Hz : restante - restante <= eps) by lra.
      rewrite (repartir_agotado _ rest Hz). simpl. split; qminmax.
Qed.

(** ** The visiting order *)

Lemma insertar_ordenado_perm (d : Devengamiento) (l : list Devengamiento) :
  Permutation (insertar_ordenado d l) (d :: l).
Proof.
  induction l as [|x l IH]; simpl; [reflexivity|].
  destruct (clave_leb d x); [reflexivity|].
  rewrite IH. apply perm_swap.
Qed.

Lemma ordenar_perm (l : list Devengamiento) : Permutation (ordenar l) l.
Proof.
  induction l as [|x l IH]; simpl; [reflexivity|].
  rewrite insertar_ordenado_perm. now constructor.
Qed.

Lemma insertar_ordenado_sorted (d : Devengamiento) (l : list Devengamiento) :
  StronglySorted (fun a b => clave_leb a b = true) l ->
  StronglySorted (fun a b => clave_leb a b = true) (insertar_ordenado d l).
Proof.
  induction l as [|x l IH]; simpl; intro Hs.
  - repeat constructor.
  - inversion Hs as [|? ? Hs' Hall]; subst.
    destruct (clave_leb d x) eqn:E.
    + constructor; [exact Hs|]. constructor; [exact E|].
      eapply Forall_impl; [|exact Hall]. intros y Hy. clave_lia.
    + constructor; [now apply IH|].
      assert (Hxd : clave_leb x d = true) by clave_lia.
      rewrite Forall_forall. intros y Hy.
      apply (Permutation_in _ (insertar_ordenado_perm d l)) in Hy.
      destruct Hy as [<- | Hy]; [exact Hxd|].
      rewrite Forall_forall in Hall. now apply Hall.
Qed.

Lemma ordenar_sorted (l : list Devengamiento) :
  StronglySorted (fun a b => clave_leb a b = true) (ordenar l).
Proof.
  induction l as [|x l IH]; simpl; [constructor|].
  now apply insertar_ordenado_sorted.
Qed.

(** Selecting rows keeps their ids distinct. *)
Lemma ids_filtrados_distintos (rows : list Devengamiento) (cond : Devengamiento -> bool) :
  NoDup (map dv_id rows) -> NoDup (map dv_id (filter cond rows)).
Proof.
  intro Hnd. induction rows as [|x rows IH]; simpl; [constructor|].
  simpl in Hnd. apply NoDup_cons_iff in Hnd as [Hnot Hnd].
  destruct (cond x); simpl; [|now apply IH].
  apply NoDup_cons; [|now apply IH].
  intro Hin. apply Hnot. apply in_map_iff in Hin as (y & Hy & Hin).
  apply filter_In in Hin as [Hin _]. rewrite <- Hy. now apply in_map.
Qed.

Lemma devengamientos_de_in (s : Store) (cliente_id : Z) (d : Devengamiento) :
  In d (devengamientos_de s cliente_id)
  <-> In d (devengamientos s) /\ dv_cliente_id d = cliente_id.
Proof.
  unfold devengamientos_de. split.
  - intro H. apply (Permutation_in _ (ordenar_perm _)) in H.
    apply filter_In in H as [H1 H2]. apply Z.eqb_eq in H2. now split.
  - intros [H1 H2].
    apply (Permutation_in _ (Permutation_sym (ordenar_perm _))).
    apply filter_In. split; [exact H1 | now apply Z.eqb_eq].
Qed.

Lemma devengamientos_de_nodup (s : Store) (cliente_id : Z) :
  pk_devengamientos s -> NoDup (map dv_id (devengamientos_de s cliente_id)).
Proof.
  intro Hpk. unfold devengamientos_de.
  eapply Permutation_NoDup.
  - apply Permutation_map. apply Permutation_sym. apply ordenar_perm.
  - now apply ids_filtrados_distintos.
Qed.

(** With distinct ids the order is strict: ascending (year, month, id). *)
Lemma devengamientos_de_sorted (s : Store) (cliente_id : Z) :
  pk_devengamientos s -> StronglySorted clave_lt (devengamientos_de s cliente_id).
Proof.
  intro Hpk. pose proof (devengamientos_de_nodup s cliente_id Hpk) as Hnd.
  unfold devengamientos_de in *.
  pose proof (ordenar_sorted
                (filter (fun d => (dv_cliente_id d =? cliente_id)%Z) (devengamientos s)))
    as Hs.
  induction Hs as [|x l Hs IH Hall]; [constructor|].
  simpl in Hnd. inversion Hnd as [|? ? Hnot Hnd']; subst.
  constructor; [now apply IH|].
  rewrite Forall_forall in *. intros y Hy.
  assert (Hne : dv_id x <> dv_id y).
  { intro Heq. apply Hnot. rewrite Heq. now apply in_map. }
  specialize (Hall y Hy). clave_lia.
Qed.

Lemma devengamientos_de_exists (s : Store) (cliente_id : Z) (d : Devengamiento) :
  In d (devengamientos_de s cliente_id) -> devengamiento_exists s (dv_id d) = true.
Proof.
  intro H. apply devengamientos_de_in in H as [H _].
  unfold devengamiento_exists. apply existsb_exists. exists d.
  split; [exact H | apply Z.eqb_refl].
Qed.

Lemma sum_montos_perm (l l' : list Q) :
  Permutation l l' -> sum_montos l == sum_montos l'.
Proof.
  induction 1; simpl; try lra.
Qed.

Lemma saldo_cliente_saldos_de (s : Store) (cliente_id : Z) :
  saldo_cliente s cliente_id == sum_montos (montos (saldos_de s cliente_id)).
Proof.
  unfold saldo_cliente, saldos_de, montos, devengamientos_de.
  rewrite map_map. simpl. apply sum_montos_perm.
  apply Permutation_map. apply Permutation_sym. apply ordenar_perm.
Qed.

(** ** Automatic allocation on the store *)

Lemma vista_inicial (fe : frontend) (s : Store) : vista fe s s = s.
Proof. now destruct fe. Qed.

Lemma imputaciones_nuevas_app (s s' : Store) (nuevas : list Imputacion) :
  devengamientos_cobros s' = devengamientos_cobros s ++ nuevas ->
  imputaciones_nuevas s s' = nuevas.
Proof.
  unfold imputaciones_nuevas. intros ->.
  now rewrite skipn_app, skipn_all, Nat.sub_diag.
Qed.

Lemma total_montos_pares (nuevas : list Imputacion) :
  total_montos nuevas
  = sum_montos (montos (map (fun i => (im_devengamiento_id i, im_monto i)) nuevas)).
Proof.
  unfold total_montos, montos. now rewrite map_map.
Qed.

(** On a store with distinct accrual ids and an existing payment, automatic
    allocation is the walk over the balances read at the start, in every
    front-end. *)
Lemma imputar_automatico_repartir (fe : frontend) (s : Store)
    (cobro_id cliente_id : Z) (importe : Q) :
  pk_devengamientos s ->
  cobro_exists s cobro_id = true ->
  exists nuevas s',
    imputar_automatico fe s s cobro_id cliente_id importe
    = (s', Some (snd (repartir importe (saldos_de s cliente_id))))
    /\ solo_imputaciones s s'
    /\ devengamientos_cobros s' = devengamientos_cobros s ++ nuevas
    /\ map (fun i => (im_devengamiento_id i, im_monto i)) nuevas
       = fst (repartir importe (saldos_de s cliente_id))
    /\ Forall (fun i => im_cobro_id i = cobro_id) nuevas.
Proof.
  intros Hpk Hc.
  destruct (imputar_loop_repartir fe s s cobro_id (devengamientos_de s cliente_id)
              (devengamientos_de_nodup s cliente_id Hpk) s importe)
    as (nuevas & E & Hs & Hr & Hm & Hall).
  - intros d Hd. eapply devengamientos_de_exists; eauto.
  - exact Hc.
  - intros d _. now rewrite vista_inicial.
  - exists nuevas.
    exists (r_store (imputar_loop fe s cobro_id (devengamientos_de s cliente_id) s importe)).
    unfold imputar_automatico. rewrite E. simpl.
    repeat split; auto; apply Hs.
Qed.

Lemma saldos_de_nonneg (s : Store) (cliente_id : Z) (b : Q) :
  In b (montos (saldos_de s cliente_id)) -> 0 <= b.
Proof.
  unfold montos, saldos_de. rewrite map_map. simpl.
  intro H. apply in_map_iff in H as (d & <- & _).
  apply devengamiento_saldo_nonneg.
Qed.

(** C2, amended.  For a payment amount A >= 0 and a client with total
    outstanding balance B, automatic allocation inserts allocations that
    total exactly A - r, where r is the returned remainder; the total never
    exceeds min(A, B) and r is at least max(0, A - B).  The total is exactly
    min(A, B), and r exactly max(0, A - B), when no balance of the client and
    no intermediate remaining amount lies in (0, 0.01]. *)
Theorem imputar_automatico_conserva (fe : frontend) (s : Store)
    (cobro_id cliente_id : Z) (importe : Q) :
  pk_devengamientos s ->
  cobro_exists s cobro_id = true ->
  0 <= importe ->
  exists s' r,
    imputar_automatico fe s s cobro_id cliente_id importe = (s', Some r)
    /\ total_montos (imputaciones_nuevas s s') == importe - r
    /\ total_montos (imputaciones_nuevas s s') <= Qmin importe (saldo_cliente s cliente_id)
    /\ Qmax 0 (importe - saldo_cliente s cliente_id) <= r
    /\ (sin_residuos importe (montos (saldos_de s cliente_id)) ->
        total_montos (imputaciones_nuevas s s') == Qmin importe (saldo_cliente s cliente_id)
        /\ r == Qmax 0 (importe - saldo_cliente s cliente_id)).
Proof.
  intros Hpk Hc Hpos.
  destruct (imputar_automatico_repartir fe s cobro_id cliente_id importe Hpk Hc)
    as (nuevas & s' & E & _ & Hrows & Hm & _).
  exists s', (snd (repartir importe (saldos_de s cliente_id))).
  rewrite (imputaciones_nuevas_app _ _ _ Hrows), total_montos_pares, Hm.
  pose proof (repartir_total importe (saldos_de s cliente_id)) as Ht.
  pose proof (repartir_resto_nonneg importe (saldos_de s cliente_id) Hpos) as Hr.
  pose proof (repartir_cota importe (saldos_de s cliente_id)) as Hcota.
  pose proof (saldo_cliente_saldos_de s cliente_id) as HB.
  assert (Hnn : forall b, In b (montos (saldos_de s cliente_id)) -> 0 <= b)
    by apply saldos_de_nonneg.
  assert (Hcota' : sum_montos (montos (fst (repartir importe (saldos_de s cliente_id))))
                   <= sum_montos (montos (saldos_de s cliente_id))).
  { apply Hcota. intros x Hx. apply Hnn. unfold montos. now apply in_map. }
  split; [exact E|]. split; [exact Ht|].
  split; [qminmax|]. split; [qminmax|].
  intro Hsr.
  destruct (repartir_exacto importe (saldos_de s cliente_id) Hpos Hnn Hsr) as [X1 X2].
  rewrite X1, X2. split; qminmax.
Qed.

(** ** Lists of (accrual id, amount) pairs *)

Lemma filter_todos {A : Type} (p : A -> bool) (l : list A) :
  (forall x, In x l -> p x = true) -> filter p l = l.
Proof.
  induction l as [|x l IH]; simpl; intro H; [reflexivity|].
  rewrite (H x (or_introl eq_refl)), IH; auto.
Qed.

Lemma filter_ninguno {A : Type} (p : A -> bool) (l : list A) :
  (forall x, In x l -> p x = false) -> filter p l = [].
Proof.
  induction l as [|x l IH]; simpl; intro H; [reflexivity|].
  rewrite (H x (or_introl eq_refl)), IH; auto.
Qed.

Lemma filter_unico (l : list (Z * Q)) (id : Z) (m : Q) :
  NoDup (map fst l) -> In (id, m) l ->
  filter (fun x => (fst x =? id)%Z) l = [(id, m)].
Proof.
  induction l as [|[i c] l IH]; simpl; intros Hnd Hin; [contradiction|].
  inversion Hnd as [|? ? Hnot Hnd']; subst.
  destruct Hin as [[= -> ->] | Hin].
  - rewrite Z.eqb_refl. f_equal. apply filter_ninguno.
    intros [j e] Hj. simpl. apply Z.eqb_neq. intros ->.
    apply Hnot. change id with (fst (id, e)). now apply in_map.
  - destruct (i =? id)%Z eqn:E; [|now apply IH].
    apply Z.eqb_eq in E. subst i. exfalso. apply Hnot.
    change id with (fst (id, m)). now apply in_map.
Qed.

Lemma filter_pares (p : Z -> bool) (nuevas : list Imputacion) :
  map (fun i => (im_devengamiento_id i, im_monto i))
      (filter (fun i => p (im_devengamiento_id i)) nuevas)
  = filter (fun x => p (fst x))
      (map (fun i => (im_devengamiento_id i, im_monto i)) nuevas).
Proof.
  induction nuevas as [|i l IH]; simpl; [reflexivity|].
  destruct (p (im_devengamiento_id i)); simpl; now rewrite IH.
Qed.

Lemma repartir_nodup (restante : Q) (saldos : list (Z * Q)) :
  NoDup (map fst saldos) -> NoDup (map fst (fst (repartir restante saldos))).
Proof.
  revert restante. induction saldos as [|[i b] rest IH]; intros restante Hnd; simpl.
  - constructor.
  - inversion Hnd as [|? ? Hnot Hnd']; subst.
    destruct (Qle_bool restante eps); simpl; [constructor|].
    destruct (Qle_bool b eps); [now apply IH|].
    pose proof (repartir_ids (restante - py_min restante b) rest i) as Hids.
    specialize (IH (restante - py_min restante b) Hnd').
    destruct (repartir (restante - py_min restante b) rest) as [l r].
    simpl in *. constructor; auto.
Qed.

Lemma repartir_montos_pos (restante : Q) (saldos : list (Z * Q)) (x : Z * Q) :
  In x (fst (repartir restante saldos)) -> 0 < snd x.
Proof.
  revert restante. induction saldos as [|[i b] rest IH]; intro restante; simpl.
  - contradiction.
  - destruct (Qle_bool restante eps) eqn:E1; simpl; [contradiction|].
    destruct (Qle_bool b eps) eqn:E2; [apply IH|].
    apply Qle_bool_false in E1, E2.
    specialize (IH (restante - py_min restante b)).
    destruct (repartir (restante - py_min restante b) rest) as [l r].
    simpl in *. intros [<- | H]; [simpl; now apply py_min_pos | now apply IH].
Qed.

(** ** Balances after new allocations *)

Lemma saldo_despues (s s' : Store) (nuevas : list Imputacion) (id : Z) :
  solo_imputaciones s s' ->
  devengamientos_cobros s' = devengamientos_cobros s ++ nuevas ->
  devengamiento_exists s id = true ->
  exists raw,
    devengamiento_saldo s id == Qmax 0 raw
    /\ devengamiento_saldo s' id == Qmax 0 (raw - asignado nuevas id).
Proof.
  intros (_ & _ & Hd & _ & Ha & _) Hr Hex.
  unfold devengamiento_saldo, aplicado, ajustes_de, asignado, total_montos.
  rewrite Hd, Ha, Hr, filter_app, map_app.
  destruct (find (fun d => (dv_id d =? id)%Z) (devengamientos s)) as [row|] eqn:Ef.
  - eexists. split; [apply py_max_Qmax|].
    rewrite py_max_Qmax, sum_montos_app.
    apply Q.max_compat; [reflexivity | lra].
  - exfalso. unfold devengamiento_exists in Hex.
    apply existsb_exists in Hex as (d & Hin & Hid).
    eapply find_none in Ef; eauto. simpl in Ef. congruence.
Qed.

Lemma NoDup_app_disjoint {A : Type} (l1 l2 : list A) (x : A) :
  NoDup (l1 ++ l2) -> In x l1 -> In x l2 -> False.
Proof.
  induction l1 as [|y l1 IH]; simpl; intros Hnd H1 H2; [contradiction|].
  inversion Hnd as [|? ? Hnot Hnd']; subst.
  destruct H1 as [-> | H1]; [|now apply IH].
  apply Hnot. apply in_or_app. now right.
Qed.

(** ** The walk, cut at one accrual *)

Section Tramo.

Variable s : Store.
Variable importe : Q.
Variables (pre post : list Devengamiento) (d : Devengamiento).

Let par := fun x : Devengamiento => (dv_id x, devengamiento_saldo s (dv_id x)).
Let antes := repartir importe (map par pre).
Let desde := repartir (snd antes) (par d :: map par post).

Hypothesis Hnd : NoDup (map dv_id (pre ++ d :: post)).

Lemma tramo_app :
  repartir importe (map par (pre ++ d :: post))
  = (fst antes ++ fst desde, snd desde).
Proof.
  rewrite map_app. simpl. apply repartir_app.
Qed.

Lemma tramo_ids_antes (x : Z * Q) :
  In x (fst antes) -> existsb (fun y => (dv_id y =? fst x)%Z) pre = true.
Proof.
  intro H. assert (Hin : In (fst x) (map fst (map par pre))).
  { eapply repartir_ids. apply in_map. exact H. }
  rewrite map_map in Hin. simpl in Hin.
  apply in_map_iff in Hin as (y & Hy & Hin).
  apply existsb_exists. exists y. split; [exact Hin | now apply Z.eqb_eq].
Qed.

Lemma tramo_ids_desde (x : Z * Q) :
  In x (fst desde) -> existsb (fun y => (dv_id y =? fst x)%Z) pre = false.
Proof.
  intro H. assert (Hin : In (fst x) (map fst (par d :: map par post))).
  { eapply repartir_ids. apply in_map. exact H. }
  change (par d :: map par post) with (map par (d :: post)) in Hin.
  rewrite map_map in Hin. simpl map in Hin.
  apply not_true_iff_false. intro Hex.
  apply existsb_exists in Hex as (y & Hy & Hid). apply Z.eqb_eq in Hid.
  rewrite map_app in Hnd.
  apply (NoDup_app_disjoint _ _ (fst x) Hnd).
  - rewrite <- Hid. now apply in_map.
  - exact Hin.
Qed.

Lemma tramo_filter_antes :
  filter (fun x => existsb (fun y => (dv_id y =? fst x)%Z) pre)
         (fst antes ++ fst desde)
  = fst antes.
Proof.
  rewrite filter_app, (filter_todos _ _ tramo_ids_antes),
    (filter_ninguno _ _ tramo_ids_desde).
  apply app_nil_r.
Qed.

Lemma tramo_nodup : NoDup (map fst (fst antes ++ fst desde)).
Proof.
  change (fst antes ++ fst desde) with (fst (fst antes ++ fst desde, snd desde)).
  rewrite <- tramo_app. apply repartir_nodup.
  rewrite map_map. exact Hnd.
Qed.

End Tramo.

Lemma asignado_pares (nuevas : list Imputacion) (id : Z) :
  asignado nuevas id
  = sum_montos (montos (filter (fun x => (fst x =? id)%Z)
                          (map (fun i => (im_devengamiento_id i, im_monto i)) nuevas))).
Proof.
  unfold asignado. rewrite total_montos_pares.
  now rewrite (filter_pares (fun i => (i =? id)%Z)).
Qed.

Lemma asignado_a_pares (nuevas : list Imputacion) (ds : list Devengamiento) :
  asignado_a nuevas ds
  = sum_montos (montos (filter (fun x => existsb (fun y => (dv_id y =? fst x)%Z) ds)
                          (map (fun i => (im_devengamiento_id i, im_monto i)) nuevas))).
Proof.
  unfold asignado_a. rewrite total_montos_pares.
  now rewrite (filter_pares (fun i => existsb (fun y => (dv_id y =? i)%Z) ds)).
Qed.

Lemma sum_filter_nonneg (p : Z * Q -> bool) (l : list (Z * Q)) :
  (forall x, In x l -> 0 < snd x) -> 0 <= sum_montos (montos (filter p l)).
Proof.
  intro H. apply sum_montos_nonneg. intros b Hb.
  unfold montos in Hb. apply in_map_iff in Hb as (x & <- & Hx).
  apply filter_In in Hx as [Hx _]. apply Qlt_le_weak. now apply H.
Qed.

Lemma saldos_de_split (s : Store) (cliente_id : Z)
    (pre post : list Devengamiento) (d : Devengamiento) :
  devengamientos_de s cliente_id = pre ++ d :: post ->
  saldos_de s cliente_id
  = map (fun x => (dv_id x, devengamiento_saldo s (dv_id x))) (pre ++ d :: post).
Proof.
  unfold saldos_de. now intros ->.
Qed.

(** No allocation goes to a later accrual while an earlier one keeps a
    balance above the tolerance. *)
Lemma orden_anteriores (fe : frontend) (s s' : Store) (cobro_id cliente_id : Z)
    (importe : Q) (nuevas : list Imputacion)
    (pre post : list Devengamiento) (d : Devengamiento) :
  pk_devengamientos s ->
  solo_imputaciones s s' ->
  devengamientos_cobros s' = devengamientos_cobros s ++ nuevas ->
  map (fun i => (im_devengamiento_id i, im_monto i)) nuevas
  = fst (repartir importe (saldos_de s cliente_id)) ->
  devengamientos_de s cliente_id = pre ++ d :: post ->
  In (dv_id d) (map im_devengamiento_id nuevas) ->
  forall d', In d' pre -> devengamiento_saldo s' (dv_id d') <= eps.
Proof.
  intros Hpk Hs Hrows Hm Hsplit Hd d' Hd'.
  pose proof (devengamientos_de_nodup s cliente_id Hpk) as Hnd.
  rewrite Hsplit in Hnd.
  set (par := fun x : Devengamiento => (dv_id x, devengamiento_saldo s (dv_id x))).
  set (antes := repartir importe (map par pre)).
  set (desde := repartir (snd antes) (par d :: map par post)).
  assert (Hm' : map (fun i => (im_devengamiento_id i, im_monto i)) nuevas
                = fst antes ++ fst desde).
  { rewrite Hm, (saldos_de_split _ _ _ _ _ Hsplit), tramo_app. reflexivity. }
  clear Hm. rename Hm' into Hm.
  (* the row of [d] comes from the second part of the walk *)
  assert (Hr1 : eps < snd antes).
  { apply Qnot_le_lt. intro Hle.
    assert (Hin : In (dv_id d) (map fst (fst antes ++ fst desde))).
    { rewrite <- Hm, map_map. exact Hd. }
    unfold desde in Hin. rewrite (repartir_agotado _ _ Hle), app_nil_r in Hin.
    apply in_map_iff in Hin as (x & Hx & Hin).
    pose proof (tramo_ids_antes s importe pre x Hin) as Hex.
    apply existsb_exists in Hex as (y & Hy & Hid). apply Z.eqb_eq in Hid.
    rewrite map_app in Hnd.
    apply (NoDup_app_disjoint _ _ (dv_id d) Hnd).
    - rewrite <- Hx, <- Hid. now apply in_map.
    - now left. }
  assert (Hex : devengamiento_exists s (dv_id d') = true).
  { eapply devengamientos_de_exists. rewrite Hsplit. apply in_or_app. now left. }
  destruct (saldo_despues s s' nuevas (dv_id d') Hs Hrows Hex) as (raw & R1 & R2).
  rewrite R2, asignado_pares, Hm.
  assert (Hpos : forall x, In x (fst antes ++ fst desde) -> 0 < snd x).
  { intros x Hx. apply in_app_or in Hx as [Hx | Hx];
      eapply repartir_montos_pos; eauto. }
  destruct (repartir_pagados importe (map par pre) Hr1 (dv_id d')
              (devengamiento_saldo s (dv_id d'))) as [Hle | Hin].
  - apply (in_map par) in Hd'. exact Hd'.
  - pose proof (sum_filter_nonneg (fun x => (fst x =? dv_id d')%Z) _ Hpos).
    revert R1 Hle. generalize (devengamiento_saldo s (dv_id d')). intros b R1 Hle.
    pose proof eps_pos. qminmax.
  - rewrite (filter_unico _ (dv_id d') (devengamiento_saldo s (dv_id d'))).
    + simpl. revert R1. generalize (devengamiento_saldo s (dv_id d')). intros b R1.
      pose proof eps_pos. qminmax.
    + apply (tramo_nodup s importe pre post d Hnd).
    + apply in_or_app. now left.
Qed.

(** A visited accrual with balance above the tolerance receives one row of
    min(remaining amount, balance). *)
Lemma orden_monto (s s' : Store) (cobro_id cliente_id : Z)
    (importe : Q) (nuevas : list Imputacion)
    (pre post : list Devengamiento) (d : Devengamiento) :
  pk_devengamientos s ->
  map (fun i => (im_devengamiento_id i, im_monto i)) nuevas
  = fst (repartir importe (saldos_de s cliente_id)) ->
  Forall (fun i => im_cobro_id i = cobro_id) nuevas ->
  devengamientos_de s cliente_id = pre ++ d :: post ->
  eps < importe - asignado_a nuevas pre ->
  eps < devengamiento_saldo s (dv_id d) ->
  exists i,
    filter (fun i => (im_devengamiento_id i =? dv_id d)%Z) nuevas = [i]
    /\ im_cobro_id i = cobro_id
    /\ im_monto i == Qmin (importe - asignado_a nuevas pre)
                          (devengamiento_saldo s (dv_id d)).
Proof.
  intros Hpk Hm Hall Hsplit Hrest Hsaldo.
  pose proof (devengamientos_de_nodup s cliente_id Hpk) as Hnd.
  rewrite Hsplit in Hnd.
  set (par := fun x : Devengamiento => (dv_id x, devengamiento_saldo s (dv_id x))).
  set (antes := repartir importe (map par pre)).
  set (desde := repartir (snd antes) (par d :: map par post)).
  assert (Hm' : map (fun i => (im_devengamiento_id i, im_monto i)) nuevas
                = fst antes ++ fst desde).
  { rewrite Hm, (saldos_de_split _ _ _ _ _ Hsplit), tramo_app. reflexivity. }
  clear Hm. rename Hm' into Hm.
  assert (Hasig : asignado_a nuevas pre == importe - snd antes).
  { rewrite asignado_a_pares, Hm. unfold desde, antes, par.
    rewrite (tramo_filter_antes s importe pre post d Hnd).
    apply repartir_total. }
  assert (Hr1 : eps < snd antes) by lra.
  assert (Hdesde : exists l,
             fst desde = (dv_id d, py_min (snd antes) (devengamiento_saldo s (dv_id d))) :: l).
  { unfold desde. simpl.
    apply Qle_bool_false in Hr1, Hsaldo. rewrite Hr1, Hsaldo.
    destruct (repartir _ (map par post)) as [l r]. now exists l. }
  destruct Hdesde as [l Hl].
  pose proof (filter_pares (fun id => (id =? dv_id d)%Z) nuevas) as Hf.
  cbv beta in Hf. rewrite Hm in Hf.
  rewrite (filter_unico _ (dv_id d) (py_min (snd antes) (devengamiento_saldo s (dv_id d))))
    in Hf.
  2: { apply (tramo_nodup s importe pre post d Hnd). }
  2: { apply in_or_app. right. rewrite Hl. now left. }
  destruct (filter (fun i => (im_devengamiento_id i =? dv_id d)%Z) nuevas)
    as [|i [|j rest]] eqn:Ef; simpl in Hf; try discriminate.
  exists i. split; [reflexivity|].
  assert (Hin : In i nuevas).
  { assert (Hi : In i (filter (fun i => (im_devengamiento_id i =? dv_id d)%Z) nuevas))
      by (rewrite Ef; now left).
    now apply filter_In in Hi. }
  split.
  - rewrite Forall_forall in Hall. now apply Hall.
  - injection Hf as _ Hmonto. rewrite Hmonto, py_min_Qmin.
    revert Hasig. generalize (asignado_a nuevas pre). intros a Hasig.
    clear - Hasig. qminmax.
Qed.

(** C8.  Automatic allocation visits the accruals of the client in ascending
    (year, month, accrual id) order: no allocation is inserted against a
    later accrual while an earlier one keeps a balance above the 0.01
    tolerance, and every visited accrual whose balance exceeds the tolerance
    receives min(remaining payment amount, accrual balance). *)
Theorem imputar_automatico_orden (fe : frontend) (s : Store)
    (cobro_id cliente_id : Z) (importe : Q) :
  pk_devengamientos s ->
  cobro_exists s cobro_id = true ->
  exists s' r,
    imputar_automatico fe s s cobro_id cliente_id importe = (s', r)
    /\ (forall d, In d (devengamientos_de s cliente_id)
                  <-> In d (devengamientos s) /\ dv_cliente_id d = cliente_id)
    /\ StronglySorted clave_lt (devengamientos_de s cliente_id)
    /\ (forall pre d post,
          devengamientos_de s cliente_id = pre ++ d :: post ->
          In (dv_id d) (map im_devengamiento_id (imputaciones_nuevas s s')) ->
          forall d', In d' pre -> devengamiento_saldo s' (dv_id d') <= eps)
    /\ (forall pre d post,
          devengamientos_de s cliente_id = pre ++ d :: post ->
          eps < importe - asignado_a (imputaciones_nuevas s s') pre ->
          eps < devengamiento_saldo s (dv_id d) ->
          exists i,
            filter (fun i => (im_devengamiento_id i =? dv_id d)%Z)
                   (imputaciones_nuevas s s') = [i]
            /\ im_cobro_id i = cobro_id
            /\ im_monto i == Qmin (importe - asignado_a (imputaciones_nuevas s s') pre)
                                  (devengamiento_saldo s (dv_id d))).
Proof.
  intros Hpk Hc.
  destruct (imputar_automatico_repartir fe s cobro_id cliente_id importe Hpk Hc)
    as (nuevas & s' & E & Hs & Hrows & Hm & Hall).
  exists s', (Some (snd (repartir importe (saldos_de s cliente_id)))).
  rewrite (imputaciones_nuevas_app _ _ _ Hrows).
  split; [exact E|].
  split; [apply devengamientos_de_in|].
  split; [now apply devengamientos_de_sorted|].
  split.
  - intros pre d post Hsplit Hd d' Hd'.
    eapply (orden_anteriores fe); eauto.
  - intros pre d post Hsplit Hr Hb.
    eapply orden_monto; eauto.
Qed.

(** ** Manual allocation *)

Lemma ajustar_monto_casos (monto saldo restante : Q) :
  (saldo + eps < monto -> saldo <= restante + eps ->
   ajustar_monto monto saldo restante = saldo)
  /\ (saldo + eps < monto -> restante + eps < saldo ->
      ajustar_monto monto saldo restante = restante)
  /\ (monto <= saldo + eps -> restante + eps < monto ->
      ajustar_monto monto saldo restante = restante)
  /\ (monto <= saldo + eps -> monto <= restante + eps ->
      ajustar_monto monto saldo restante = monto).
Proof.
  unfold ajustar_monto. repeat split; intros H1 H2.
  - apply Qltb_true in H1. apply Qltb_false in H2. now rewrite H1, H2.
  - apply Qltb_true in H1, H2. now rewrite H1, H2.
  - apply Qltb_false in H1. apply Qltb_true in H2. now rewrite H1, H2.
  - apply Qltb_false in H1, H2. now rewrite H1, H2.
Qed.

Lemma ajustar_monto_cotas (monto saldo restante : Q) :
  ajustar_monto monto saldo restante <= saldo + eps
  /\ ajustar_monto monto saldo restante <= restante + eps
  /\ ajustar_monto monto saldo restante <= monto + eps.
Proof.
  pose proof eps_pos. unfold ajustar_monto.
  destruct (Qltb (saldo + eps) monto) eqn:E1;
    [apply Qltb_true in E1 | apply Qltb_false in E1];
    (match goal with
     | |- context [Qltb ?a ?b] =>
         destruct (Qltb a b) eqn:E2;
         [apply Qltb_true in E2 | apply Qltb_false in E2]
     end); repeat split; lra.
Qed.

(** The rows written by the loop of manual allocation: all linked to the
    payment, totalling what the remaining amount lost, and never taking the
    remaining amount below minus the tolerance. *)
Lemma manual_loop_filas (snap : Store) (cobro_id : Z) (pairs : list (option (Z * Q))) :
  forall (cur : Store) (restante : Q),
  exists nuevas,
    solo_imputaciones cur (r_store (fst (manual_loop snap cobro_id pairs cur restante)))
    /\ devengamientos_cobros (r_store (fst (manual_loop snap cobro_id pairs cur restante)))
       = devengamientos_cobros cur ++ nuevas
    /\ Forall (fun i => im_cobro_id i = cobro_id) nuevas
    /\ total_montos nuevas
       == restante - r_restante (fst (manual_loop snap cobro_id pairs cur restante))
    /\ (nuevas = []
        \/ - eps <= r_restante (fst (manual_loop snap cobro_id pairs cur restante))).
Proof.
  assert (Hnil : forall cur restante, exists nuevas : list Imputacion,
             solo_imputaciones cur cur
             /\ devengamientos_cobros cur = devengamientos_cobros cur ++ nuevas
             /\ Forall (fun i => im_cobro_id i = cobro_id) nuevas
             /\ total_montos nuevas == restante - restante
             /\ (nuevas = [] \/ - eps <= restante)).
  { intros. exists []. rewrite app_nil_r. repeat split; auto.
    - unfold total_montos. simpl. lra. }
  induction pairs as [|[[did monto]|] rest IH]; intros cur restante; simpl.
  - apply Hnil.
  - destruct (Qle_bool monto 0).
    { specialize (IH cur restante).
      destruct (manual_loop snap cobro_id rest cur restante) as [r out]. exact IH. }
    destruct (negb (devengamiento_exists snap did)).
    { specialize (IH cur restante).
      destruct (manual_loop snap cobro_id rest cur restante) as [r out]. exact IH. }
    set (m := ajustar_monto monto (devengamiento_saldo snap did) restante).
    destruct (Qle_bool m 0).
    { specialize (IH cur restante).
      destruct (manual_loop snap cobro_id rest cur restante) as [r out]. exact IH. }
    destruct (insert_imputacion Cli cur did cobro_id m) as [cur'|] eqn:Hins;
      [|apply Hnil].
    destruct (insert_imputacion_some _ _ _ _ _ _ Hins) as [Hf Hrows].
    destruct (ajustar_monto_cotas monto (devengamiento_saldo snap did) restante)
      as (_ & Hcota & _).
    fold m in Hcota.
    destruct (Qle_bool (restante - m) eps).
    + simpl. eexists. split; [exact Hf|]. split; [exact Hrows|].
      split; [repeat constructor|].
      split; [unfold total_montos; simpl; lra|].
      right. lra.
    + specialize (IH cur' (restante - m)).
      destruct (manual_loop snap cobro_id rest cur' (restante - m)) as [r out].
      simpl in *. destruct IH as (nuevas & I1 & I2 & I3 & I4 & I5).
      eexists (_ :: nuevas).
      split; [eapply solo_imputaciones_trans; eauto|].
      split; [rewrite I2, Hrows, <- app_assoc; reflexivity|].
      split; [constructor; [reflexivity | exact I3]|].
      split; [unfold total_montos in *; simpl; lra|].
      right. destruct I5 as [-> | I5]; [|exact I5].
      unfold total_montos in I4. simpl in I4. lra.
  - specialize (IH cur restante).
    destruct (manual_loop snap cobro_id rest cur restante) as [r out]. exact IH.
Qed.

(** One well-formed directive item with a positive clamped amount inserts a
    row of that amount, the first of the rows written, and reports it. *)
Lemma manual_loop_aplica (snap cur : Store) (cobro_id did : Z) (monto restante : Q)
    (rest : list (option (Z * Q))) :
  0 < monto ->
  devengamiento_exists snap did = true ->
  devengamiento_exists cur did = true ->
  cobro_exists cur cobro_id = true ->
  0 < ajustar_monto monto (devengamiento_saldo snap did) restante ->
  exists r out,
    manual_loop snap cobro_id (Some (did, monto) :: rest) cur restante
    = (r, Aplicado did (ajustar_monto monto (devengamiento_saldo snap did) restante)
            :: out)
    /\ nth_error (imputaciones_nuevas cur (r_store r)) 0
       = Some (mkImputacion (seq_devengamientos_cobros cur + 1) did cobro_id
                 (ajustar_monto monto (devengamiento_saldo snap did) restante))
    /\ (rest = [] ->
        r_restante r
        = restante - ajustar_monto monto (devengamiento_saldo snap did) restante
        /\ out = []).
Proof.
  intros Hm Hes Hec Hc Hpos.
  destruct (insert_imputacion_ok Cli cur did cobro_id _ Hec Hc Hpos) as [cur' Hins].
  destruct (insert_imputacion_some _ _ _ _ _ _ Hins) as [Hf Hrows].
  simpl.
  assert (E1 : Qle_bool monto 0 = false) by now apply Qle_bool_false.
  assert (E2 : Qle_bool (ajustar_monto monto (devengamiento_saldo snap did) restante) 0
               = false) by now apply Qle_bool_false.
  rewrite E1, Hes, E2, Hins. simpl.
  destruct (Qle_bool (restante - ajustar_monto monto (devengamiento_saldo snap did) restante)
              eps) eqn:E3.
  - eexists. exists [].
    split; [reflexivity|]. split; [|intros _; now split].
    simpl. now rewrite (imputaciones_nuevas_app _ _ _ Hrows).
  - pose proof (manual_loop_filas snap cobro_id rest cur'
                  (restante - ajustar_monto monto (devengamiento_saldo snap did) restante))
      as (nuevas & _ & Hr & _).
    destruct (manual_loop snap cobro_id rest cur'
                (restante - ajustar_monto monto (devengamiento_saldo snap did) restante))
      as [r out] eqn:Er.
    exists r, out. simpl in Hr.
    split; [reflexivity|]. split.
    + rewrite Hrows, <- app_assoc in Hr.
      now rewrite (imputaciones_nuevas_app _ _ _ Hr).
    + intros ->. simpl in Er. inversion Er. now split.
Qed.

(** A directive item whose clamped amount is not positive writes nothing:
    the loop goes on with the next item. *)
Lemma manual_loop_omite (snap cur : Store) (cobro_id did : Z) (monto restante : Q)
    (rest : list (option (Z * Q))) :
  0 < monto ->
  devengamiento_exists snap did = true ->
  ajustar_monto monto (devengamiento_saldo snap did) restante <= 0 ->
  manual_loop snap cobro_id (Some (did, monto) :: rest) cur restante
  = (fst (manual_loop snap cobro_id rest cur restante),
     SinMonto did :: snd (manual_loop snap cobro_id rest cur restante)).
Proof.
  intros Hm Hes Hle. simpl.
  assert (E1 : Qle_bool monto 0 = false) by now apply Qle_bool_false.
  assert (E2 : Qle_bool (ajustar_monto monto (devengamiento_saldo snap did) restante) 0
               = true) by now apply Qle_bool_iff.
  rewrite E1, Hes. simpl. rewrite E2.
  now destruct (manual_loop snap cobro_id rest cur restante).
Qed.

(** A clamped amount never exceeds the request; it is at most the balance
    when the request exceeds the balance by more than the tolerance, and
    below the request when the request exceeds the remaining amount by more
    than the tolerance. *)
Lemma ajustar_monto_reduce (monto saldo restante : Q) :
  ajustar_monto monto saldo restante <= monto
  /\ (saldo + eps < monto -> ajustar_monto monto saldo restante <= saldo)
  /\ (restante + eps < monto -> ajustar_monto monto saldo restante < monto).
Proof.
  pose proof eps_pos. unfold ajustar_monto.
  destruct (Qltb (saldo + eps) monto) eqn:E1;
    [apply Qltb_true in E1 | apply Qltb_false in E1];
    (match goal with
     | |- context [Qltb ?a ?b] =>
         destruct (Qltb a b) eqn:E2;
         [apply Qltb_true in E2 | apply Qltb_false in E2]
     end); repeat split; intros; lra.
Qed.

(** The first item of a directive, when it reports a row: the row is the
    first one written and its amount is the clamped request. *)
Lemma manual_loop_fila (snap cur : Store) (cobro_id did : Z) (monto restante : Q)
    (rest : list (option (Z * Q))) (r : imputado) (out : list resultado_par) (m : Q) :
  0 < monto ->
  devengamiento_exists snap did = true ->
  devengamiento_exists cur did = true ->
  cobro_exists cur cobro_id = true ->
  manual_loop snap cobro_id (Some (did, monto) :: rest) cur restante
  = (r, Aplicado did m :: out) ->
  m = ajustar_monto monto (devengamiento_saldo snap did) restante
  /\ nth_error (imputaciones_nuevas cur (r_store r)) 0
     = Some (mkImputacion (seq_devengamientos_cobros cur + 1) did cobro_id m).
Proof.
  intros Hm Hes Hec Hc E.
  destruct (Qlt_le_dec 0 (ajustar_monto monto (devengamiento_saldo snap did) restante))
    as [Hpos | Hle].
  - destruct (manual_loop_aplica snap cur cobro_id did monto restante rest
                Hm Hes Hec Hc Hpos) as (r' & out' & E' & Hn & _).
    rewrite E' in E. injection E as <- <- <-. now split.
  - rewrite (manual_loop_omite snap cur cobro_id did monto restante rest Hm Hes Hle) in E.
    discriminate.
Qed.

(** C3, amended.  For a directive pair with a positive amount and an existing
    accrual.  A request that exceeds the accrual's balance by more than 0.01
    inserts a row of exactly the balance when the balance is positive and
    does not exceed the payment's remaining amount.  A request that, like
    the balance, exceeds the remaining amount by more than 0.01 inserts a
    row of exactly the remaining amount.  A request above 0.01 against an
    accrual that is covered beyond its amount by 0.01 or more, whose balance
    is therefore zero, inserts nothing: the pair is skipped and the loop
    goes on with the next pair.  In particular the directive [(id, 1000)]
    against a balance of 300 and a remaining amount of 800 applies 300 and
    leaves 500.  (A request that exceeds a bound by 0.01 or less is outside
    this statement.) *)
Theorem imputar_manual_ajusta (snap cur : Store) (cobro_id did : Z)
    (monto restante : Q) (rest : list (option (Z * Q))) :
  0 < monto ->
  devengamiento_exists snap did = true ->
  devengamiento_exists cur did = true ->
  cobro_exists cur cobro_id = true ->
  (devengamiento_saldo snap did + eps < monto ->
   devengamiento_saldo snap did <= restante ->
   0 < devengamiento_saldo snap did ->
   exists r out,
     manual_loop snap cobro_id (Some (did, monto) :: rest) cur restante
     = (r, Aplicado did (devengamiento_saldo snap did) :: out)
     /\ nth_error (imputaciones_nuevas cur (r_store r)) 0
        = Some (mkImputacion (seq_devengamientos_cobros cur + 1) did cobro_id
                  (devengamiento_saldo snap did)))
  /\ (restante + eps < monto ->
      restante + eps < devengamiento_saldo snap did ->
      0 < restante ->
      exists r out,
        manual_loop snap cobro_id (Some (did, monto) :: rest) cur restante
        = (r, Aplicado did restante :: out)
        /\ nth_error (imputaciones_nuevas cur (r_store r)) 0
           = Some (mkImputacion (seq_devengamientos_cobros cur + 1) did cobro_id
                     restante))
  /\ (forall d,
        find (fun x => (dv_id x =? did)%Z) (devengamientos snap) = Some d ->
        dv_importe d + ajustes_de snap did - aplicado snap did <= - eps ->
        eps < monto -> 0 <= restante ->
        manual_loop snap cobro_id (Some (did, monto) :: rest) cur restante
        = (fst (manual_loop snap cobro_id rest cur restante),
           SinMonto did :: snd (manual_loop snap cobro_id rest cur restante)))
  /\ (monto == 1000 -> devengamiento_saldo snap did == 300 -> restante == 800 ->
      exists r,
        manual_loop snap cobro_id [Some (did, monto)] cur restante
        = (r, [Aplicado did (devengamiento_saldo snap did)])
        /\ r_restante r == 500).
Proof.
  intros Hm Hes Hec Hc.
  destruct (ajustar_monto_casos monto (devengamiento_saldo snap did) restante)
    as (C1 & C2 & C3 & _).
  pose proof eps_pos as Heps.
  split; [|split; [|split]].
  - intros H1 H2 H3.
    assert (Ha : ajustar_monto monto (devengamiento_saldo snap did) restante
                 = devengamiento_saldo snap did) by (apply C1; lra).
    assert (Hpos : 0 < ajustar_monto monto (devengamiento_saldo snap did) restante)
      by now rewrite Ha.
    destruct (manual_loop_aplica snap cur cobro_id did monto restante rest
                Hm Hes Hec Hc Hpos) as (r & out & E & Hn & _).
    rewrite Ha in E, Hn. now exists r, out.
  - intros H1 H2 H3.
    assert (Ha : ajustar_monto monto (devengamiento_saldo snap did) restante = restante).
    { destruct (Qlt_le_dec (devengamiento_saldo snap did + eps) monto) as [Hlt | Hle].
      - now apply C2.
      - apply C3; [exact Hle | exact H1]. }
    assert (Hpos : 0 < ajustar_monto monto (devengamiento_saldo snap did) restante)
      by now rewrite Ha.
    destruct (manual_loop_aplica snap cur cobro_id did monto restante rest
                Hm Hes Hec Hc Hpos) as (r & out & E & Hn & _).
    rewrite Ha in E, Hn. now exists r, out.
  - intros d Hf Hx Hgt Hr.
    apply manual_loop_omite; [exact Hm | exact Hes |].
    assert (S0 : devengamiento_saldo snap did == 0).
    { unfold devengamiento_saldo. rewrite Hf. rewrite py_max_Qmax.
      apply Q.max_l. lra. }
    destruct (ajustar_monto_reduce monto (devengamiento_saldo snap did) restante)
      as (_ & R2 & _).
    assert (Hex : devengamiento_saldo snap did + eps < monto) by lra.
    specialize (R2 Hex). lra.
  - intros M S R.
    assert (Ha : ajustar_monto monto (devengamiento_saldo snap did) restante
                 = devengamiento_saldo snap did).
    { apply C1; unfold eps; lra. }
    assert (Hpos : 0 < ajustar_monto monto (devengamiento_saldo snap did) restante)
      by (rewrite Ha; lra).
    destruct (manual_loop_aplica snap cur cobro_id did monto restante []
                Hm Hes Hec Hc Hpos) as (r & out & E & _ & Hr).
    destruct (Hr eq_refl) as [Hr1 ->].
    exists r. rewrite Ha in *. split; [exact E|]. rewrite Hr1. lra.
Qed.

(** C10, amended.  The clamps of manual allocation and their tolerance, for
    a directive pair with a positive amount and an existing accrual.  A
    request that exceeds neither the accrual's balance nor the payment's
    remaining amount is inserted in full.  Whatever row the pair inserts,
    its amount is at most the request, at most the balance plus 0.01 and at
    most the remaining amount plus 0.01; it is at most the balance when the
    request exceeds the balance by more than 0.01, and below the request
    when the request exceeds the remaining amount by more than 0.01.  A
    request above a bound by exactly 0.01 is inserted in full or reduced as
    the binary64 sum falls: 300.01 against a balance of 300 is inserted in
    full, 50.02 against a balance of 50.01 is reduced to 50.01. *)
Theorem ajuste_con_tolerancia (snap cur : Store) (cobro_id did : Z)
    (monto restante : Q) (rest : list (option (Z * Q))) :
  0 < monto ->
  devengamiento_exists snap did = true ->
  devengamiento_exists cur did = true ->
  cobro_exists cur cobro_id = true ->
  (monto <= devengamiento_saldo snap did ->
   monto <= restante ->
   exists r out,
     manual_loop snap cobro_id (Some (did, monto) :: rest) cur restante
     = (r, Aplicado did monto :: out)
     /\ nth_error (imputaciones_nuevas cur (r_store r)) 0
        = Some (mkImputacion (seq_devengamientos_cobros cur + 1) did cobro_id monto))
  /\ (forall r out m,
        manual_loop snap cobro_id (Some (did, monto) :: rest) cur restante
        = (r, Aplicado did m :: out) ->
        nth_error (imputaciones_nuevas cur (r_store r)) 0
        = Some (mkImputacion (seq_devengamientos_cobros cur + 1) did cobro_id m)
        /\ m <= monto
        /\ m <= devengamiento_saldo snap did + eps
        /\ m <= restante + eps
        /\ (devengamiento_saldo snap did + eps < monto ->
            m <= devengamiento_saldo snap did)
        /\ (restante + eps < monto -> m < monto))
  /\ par_manual_f 300.01 300 800 = Some 300.01%float
  /\ par_manual_f 50.02 50.01 100 = Some 50.01%float.
Proof.
  intros Hm Hes Hec Hc.
  pose proof eps_pos as Heps.
  split; [|split; [|split; reflexivity]].
  - intros H1 H2.
    destruct (ajustar_monto_casos monto (devengamiento_saldo snap did) restante)
      as (_ & _ & _ & C4).
    assert (Ha : ajustar_monto monto (devengamiento_saldo snap did) restante = monto)
      by (apply C4; lra).
    assert (Hpos : 0 < ajustar_monto monto (devengamiento_saldo snap did) restante)
      by now rewrite Ha.
    destruct (manual_loop_aplica snap cur cobro_id did monto restante rest
                Hm Hes Hec Hc Hpos) as (r & out & E & Hn & _).
    rewrite Ha in E, Hn. now exists r, out.
  - intros r out m E.
    destruct (manual_loop_fila snap cur cobro_id did monto restante rest r out m
                Hm Hes Hec Hc E) as [-> Hn].
    destruct (ajustar_monto_cotas monto (devengamiento_saldo snap did) restante)
      as (B1 & B2 & _).
    destruct (ajustar_monto_reduce monto (devengamiento_saldo snap did) restante)
      as (R1 & R2 & R3).
    repeat split; assumption.
Qed.

(** ** Payments never over-allocated beyond the tolerance *)

(** The rows written by the loop of automatic allocation, on any store: all
    linked to the payment, totalling what the remaining amount lost, and
    never taking the remaining amount below zero. *)
Lemma imputar_loop_filas (fe : frontend) (snap : Store) (cobro_id : Z)
    (devs : list Devengamiento) :
  forall (cur : Store) (restante : Q),
  exists nuevas,
    solo_imputaciones cur (r_store (imputar_loop fe snap cobro_id devs cur restante))
    /\ devengamientos_cobros (r_store (imputar_loop fe snap cobro_id devs cur restante))
       = devengamientos_cobros cur ++ nuevas
    /\ Forall (fun i => im_cobro_id i = cobro_id) nuevas
    /\ total_montos nuevas
       == restante - r_restante (imputar_loop fe snap cobro_id devs cur restante)
    /\ (nuevas = [] \/ 0 <= r_restante (imputar_loop fe snap cobro_id devs cur restante)).
Proof.
  assert (Hnil : forall cur restante, exists nuevas : list Imputacion,
             solo_imputaciones cur cur
             /\ devengamientos_cobros cur = devengamientos_cobros cur ++ nuevas
             /\ Forall (fun i => im_cobro_id i = cobro_id) nuevas
             /\ total_montos nuevas == restante - restante
             /\ (nuevas = [] \/ 0 <= restante)).
  { intros. exists []. rewrite app_nil_r. repeat split; auto.
    - unfold total_montos. simpl. lra. }
  induction devs as [|d rest IH]; intros cur restante; simpl.
  - apply Hnil.
  - destruct (Qle_bool restante eps) eqn:E1; [apply Hnil|].
    destruct (Qle_bool (devengamiento_saldo (vista fe snap cur) (dv_id d)) eps);
      [apply IH|].
    set (m := py_min restante (devengamiento_saldo (vista fe snap cur) (dv_id d))).
    destruct (insert_imputacion fe cur (dv_id d) cobro_id m) as [cur'|] eqn:Hins;
      [|apply Hnil].
    destruct (insert_imputacion_some _ _ _ _ _ _ Hins) as [Hf Hrows].
    destruct (py_min_le restante (devengamiento_saldo (vista fe snap cur) (dv_id d)))
      as [Hle _].
    fold m in Hle.
    destruct (IH cur' (restante - m)) as (nuevas & I1 & I2 & I3 & I4 & I5).
    eexists (_ :: nuevas).
    split; [eapply solo_imputaciones_trans; eauto|].
    split; [rewrite I2, Hrows, <- app_assoc; reflexivity|].
    split; [constructor; [reflexivity | exact I3]|].
    split; [unfold total_montos in *; simpl; lra|].
    right. destruct I5 as [-> | I5]; [|exact I5].
    unfold total_montos in I4. simpl in I4. lra.
Qed.

Lemma inv_cobros_frame (tol : Q) (s s' : Store) :
  cobros s' = cobros s ->
  devengamientos_cobros s' = devengamientos_cobros s ->
  seq_cobros s' = seq_cobros s ->
  inv_cobros tol s -> inv_cobros tol s'.
Proof.
  unfold inv_cobros, imputado_de_cobro. intros -> -> ->. auto.
Qed.

Lemma inv_cobros_mono (tol tol' : Q) (s : Store) :
  tol <= tol' -> inv_cobros tol s -> inv_cobros tol' s.
Proof.
  intros Hle (I1 & I2 & I3). repeat split; auto.
  intros c Hc Hpos. specialize (I3 c Hc Hpos). lra.
Qed.

Lemma total_montos_app (l1 l2 : list Imputacion) :
  total_montos (l1 ++ l2) == total_montos l1 + total_montos l2.
Proof.
  unfold total_montos. rewrite map_app. apply sum_montos_app.
Qed.

(** A payment that has just been inserted and allocated keeps the
    invariant when its new rows total at most its amount plus [tol]. *)
Lemma inv_cobros_nuevo (tol : Q) (s s1 s2 : Store) (fe : frontend)
    (cliente_id cobro_id : Z) (fecha : date) (importe : Q) (nuevas : list Imputacion) :
  0 <= tol ->
  inv_cobros tol s ->
  insert_cobro fe s cliente_id fecha importe = Some (s1, cobro_id) ->
  solo_imputaciones s1 s2 ->
  devengamientos_cobros s2 = devengamientos_cobros s1 ++ nuevas ->
  Forall (fun i => im_cobro_id i = cobro_id) nuevas ->
  (0 <= importe -> total_montos nuevas <= importe + tol) ->
  inv_cobros tol s2.
Proof.
  intros Htol (I1 & I2 & I3) Hins (_ & _ & _ & Hc & _ & _ & Hseq & _) Hrows Hall Htot.
  unfold insert_cobro in Hins.
  destruct (_ && _); [|discriminate].
  injection Hins as <- <-. simpl in *.
  rewrite Forall_forall in Hall.
  unfold inv_cobros, imputado_de_cobro. rewrite Hc, Hseq, Hrows.
  repeat split.
  - intros i Hi. apply in_app_or in Hi as [Hi | Hi].
    + specialize (I1 i Hi). lia.
    + rewrite (Hall i Hi). lia.
  - intros c Hin. apply in_app_or in Hin as [Hin | [<- | []]].
    + specialize (I2 c Hin). lia.
    + simpl. lia.
  - intros c Hin Hpos. rewrite filter_app, total_montos_app.
    apply in_app_or in Hin as [Hin | [<- | []]].
    + rewrite (filter_ninguno _ nuevas).
      * specialize (I3 c Hin Hpos). unfold imputado_de_cobro, total_montos in *.
        simpl. lra.
      * intros i Hi. rewrite (Hall i Hi). apply Z.eqb_neq.
        specialize (I2 c Hin). lia.
    + simpl in *. rewrite (filter_ninguno _ (devengamientos_cobros s)).
      * rewrite (filter_todos _ nuevas).
        -- specialize (Htot Hpos). unfold total_montos in *. simpl. lra.
        -- intros i Hi. rewrite (Hall i Hi). apply Z.eqb_refl.
      * intros i Hi. apply Z.eqb_neq. specialize (I1 i Hi). lia.
Qed.

Lemma record_cobro_inv (tol : Q) (fe : frontend) (s : Store) (cliente_id : Z)
    (fecha : date) (importe : Q) (m : modo) :
  0 <= tol ->
  (eps <= tol \/ modo_de fe m = Automatico) ->
  inv_cobros tol s ->
  inv_cobros tol (fst (record_cobro fe s cliente_id fecha importe m)).
Proof.
  intros Htol Hmodo Hinv. unfold record_cobro.
  destruct (negb (cobro_valido fe s cliente_id importe)); [exact Hinv|].
  destruct (insert_cobro fe s cliente_id fecha importe) as [[s1 cobro_id]|] eqn:Hins;
    [|exact Hinv].
  destruct (modo_de fe m) as [|pairs|] eqn:Em.
  - (* automatic *)
    replace (match fe with
             | Cli => imputar_automatico Cli s1 s1 cobro_id cliente_id importe
             | Streamlit | StreamlitV2 =>
                 imputar_automatico_db fe s1 cobro_id cliente_id importe
             end)
      with (imputar_automatico fe s1 s1 cobro_id cliente_id importe)
      by (destruct fe; reflexivity).
    unfold imputar_automatico.
    destruct (imputar_loop_filas fe s1 cobro_id (devengamientos_de s1 cliente_id)
                s1 importe) as (nuevas & F1 & F2 & F3 & F4 & F5).
    set (r := imputar_loop fe s1 cobro_id (devengamientos_de s1 cliente_id) s1 importe)
      in *.
    assert (Hgoal : inv_cobros tol (r_store r)).
    { apply (inv_cobros_nuevo tol s s1 (r_store r) fe cliente_id cobro_id fecha
               importe nuevas); auto.
      intro Hpos. destruct F5 as [-> | F5]; [unfold total_montos; simpl; lra | lra]. }
    destruct (r_ok r); [exact Hgoal|]. destruct fe; exact Hgoal.
  - (* manual *)
    destruct Hmodo as [Hmodo | Hmodo]; [|discriminate].
    unfold imputar_manual.
    destruct (devengamientos_de s1 cliente_id) as [|d0 ds].
    + simpl.
      apply (inv_cobros_nuevo tol s s1 s1 fe cliente_id cobro_id fecha importe []);
        auto.
      * apply solo_imputaciones_refl.
      * now rewrite app_nil_r.
      * intro. unfold total_montos. simpl. lra.
    + destruct (manual_loop_filas s1 cobro_id pairs s1 importe)
        as (nuevas & F1 & F2 & F3 & F4 & F5).
      destruct (manual_loop s1 cobro_id pairs s1 importe) as [r out]. simpl in *.
      apply (inv_cobros_nuevo tol s s1 (r_store r) fe cliente_id cobro_id fecha
               importe nuevas); auto.
      intro Hpos. destruct F5 as [-> | F5]; [unfold total_montos; simpl; lra | lra].
  - (* not allocated *)
    simpl.
    apply (inv_cobros_nuevo tol s s1 s1 fe cliente_id cobro_id fecha importe []);
      auto.
    + apply solo_imputaciones_refl.
    + now rewrite app_nil_r.
    + intro. unfold total_montos. simpl. lra.
Qed.

Lemma generar_inv (tol : Q) (fe : frontend) (s : Store) (anyo mes : Z) :
  inv_cobros tol s -> inv_cobros tol (fst (generar fe s anyo mes)).
Proof.
  intro Hinv. unfold generar.
  destruct (make anyo mes 1) as [ps|]; [|exact Hinv].
  destruct (periodo_end_de fe anyo mes) as [pe|]; [|exact Hinv].
  pose proof (generar_loop_frame fe anyo mes ps pe (planes_a_procesar s) s (mkConteo 0 0 0))
    as (_ & _ & F3 & F4 & _ & F6 & _).
  destruct (generar_loop fe anyo mes ps pe (planes_a_procesar s) s (mkConteo 0 0 0))
    as [s' c].
  simpl in *. eapply inv_cobros_frame; eauto.
Qed.

Lemma guardar_ajuste_inv (tol : Q) (fe : frontend) (s : Store) (cliente_id : Z)
    (fecha : date) (descripcion : option string) (monto : Q) (tipo : string)
    (ref_id : option Z) :
  inv_cobros tol s ->
  inv_cobros tol
    (fst (guardar_ajuste fe s cliente_id fecha descripcion monto tipo ref_id)).
Proof.
  intro Hinv. unfold guardar_ajuste.
  destruct (limpiar_referencia s ref_id) as [r aviso].
  unfold insert_ajuste.
  destruct descripcion as [texto|]; [|exact Hinv].
  destruct (_ && _); [|exact Hinv].
  simpl. eapply inv_cobros_frame; eauto.
Qed.

Lemma ejecutar_inv (tol : Q) (s : Store) (op : operacion) :
  0 <= tol ->
  (eps <= tol
   \/ forall fe cliente_id fecha importe m,
        op = OpCobro fe cliente_id fecha importe m -> modo_de fe m = Automatico) ->
  inv_cobros tol s -> inv_cobros tol (ejecutar s op).
Proof.
  intros Htol Hmodo Hinv. destruct op; simpl.
  - apply record_cobro_inv; auto.
    destruct Hmodo as [H | H]; [now left | right; eapply H; reflexivity].
  - now apply generar_inv.
  - unfold registrar_ajuste_web, registrar_ajuste_web_en.
    destruct (cliente_id =? 0)%Z; [exact Hinv|].
    destruct (v2 && String.eqb descripcion ""); [exact Hinv|].
    destruct (match ref_id with Some r => negb (entero_sqlite r) | None => false end);
      [exact Hinv|].
    now apply guardar_ajuste_inv.
  - unfold registrar_ajuste.
    destruct (negb (cliente_exists s cliente_id)); [exact Hinv|].
    destruct (String.eqb descripcion ""); [exact Hinv|].
    destruct (tipo_map opcion) as [[tipo signo]|]; [|exact Hinv].
    destruct (Qle_bool monto 0); [exact Hinv|].
    now apply guardar_ajuste_inv.
Qed.

Lemma ejecutar_todas_inv (tol : Q) (ops : list operacion) :
  0 <= tol ->
  (eps <= tol \/ solo_automatico ops) ->
  forall s, inv_cobros tol s -> inv_cobros tol (ejecutar_todas s ops).
Proof.
  intros Htol. unfold ejecutar_todas.
  induction ops as [|op ops IH]; intros Hmodo s Hinv; simpl; [exact Hinv|].
  apply IH.
  - destruct Hmodo as [H | H]; [now left | right].
    intros fe c f i m Hin. eapply H. right. exact Hin.
  - apply ejecutar_inv; auto.
    destruct Hmodo as [H | H]; [now left | right].
    intros fe c f i m ->. eapply H. now left.
Qed.

(** C4, amended.  After any sequence of ledger operations (payments
    allocated automatically or manually, accrual generation, adjustments)
    started from a store without over-allocated payments, the allocations
    linked to a payment of non-negative amount never exceed the payment's
    amount by more than the 0.01 tolerance of manual allocation; when every
    payment of the sequence is allocated automatically they never exceed the
    amount. *)
Theorem imputaciones_no_exceden (s : Store) (ops : list operacion) (c : Cobro) :
  inv_cobros 0 s ->
  In c (cobros (ejecutar_todas s ops)) ->
  0 <= cb_importe c ->
  imputado_de_cobro (ejecutar_todas s ops) (cb_id c) <= cb_importe c + eps
  /\ (solo_automatico ops ->
      imputado_de_cobro (ejecutar_todas s ops) (cb_id c) <= cb_importe c).
Proof.
  intros Hinv Hin Hpos. pose proof eps_pos as Heps. split.
  - assert (H : inv_cobros eps (ejecutar_todas s ops)).
    { apply ejecutar_todas_inv; [lra | left; lra |].
      eapply inv_cobros_mono; [|exact Hinv]. lra. }
    destruct H as (_ & _ & H). now apply H.
  - intro Hauto.
    assert (H : inv_cobros 0 (ejecutar_todas s ops)).
    { apply ejecutar_todas_inv; [lra | now right | exact Hinv]. }
    destruct H as (_ & _ & H). specialize (H c Hin Hpos). lra.
Qed.

(** ** Adjustments with a dangling reference *)

(** A reference to an accrual that does not exist, other than 0, is
    cleared and the adjustment is inserted without it. *)
Lemma guardar_ajuste_sin_referencia (fe : frontend) (s : Store) (cliente_id : Z)
    (fecha : date) (texto : string) (monto : Q) (tipo : string) (r : Z) :
  r <> 0%Z ->
  devengamiento_exists s r = false ->
  cliente_exists s cliente_id = true ->
  (has_checks fe = true -> tipo_permitido tipo = true) ->
  guardar_ajuste fe s cliente_id fecha (Some texto) monto tipo (Some r)
  = (mkStore (clientes s) (planes s) (devengamientos s) (cobros s)
       (devengamientos_cobros s)
       (ajustes s ++ [mkAjuste (seq_ajustes s + 1) cliente_id fecha texto monto tipo None])
       (seq_devengamientos s) (seq_cobros s) (seq_devengamientos_cobros s)
       (seq_ajustes s + 1),
     AjusteRegistrado (seq_ajustes s + 1) true).
Proof.
  intros Hr Hex Hc Ht. unfold guardar_ajuste, limpiar_referencia, truthy.
  apply Z.eqb_neq in Hr. rewrite Hr, Hex. simpl.
  unfold insert_ajuste. rewrite Hc. simpl.
  destruct (has_checks fe); [rewrite Ht|]; reflexivity.
Qed.

(** The reference 0 is not looked up: it reaches the INSERT, whose foreign
    key rejects it, and nothing is recorded. *)
Lemma guardar_ajuste_referencia_cero (fe : frontend) (s : Store) (cliente_id : Z)
    (fecha : date) (descripcion : option string) (monto : Q) (tipo : string) :
  devengamiento_exists s 0 = false ->
  guardar_ajuste fe s cliente_id fecha descripcion monto tipo (Some 0%Z)
  = (s, AjusteError).
Proof.
  intro Hex. unfold guardar_ajuste, limpiar_referencia, truthy. simpl.
  unfold insert_ajuste. rewrite Hex.
  destruct descripcion; [|reflexivity].
  now rewrite andb_false_r.
Qed.

Lemma registrar_ajuste_sin_referencia (s : Store) (cliente_id : Z) (fecha : date)
    (descripcion opcion tipo : string) (signo : Z) (monto : Q) (es_negativo : bool)
    (r : Z) :
  cliente_exists s cliente_id = true ->
  descripcion <> ""%string ->
  tipo_map opcion = Some (tipo, signo) ->
  0 < monto ->
  r <> 0%Z ->
  devengamiento_exists s r = false ->
  exists s',
    registrar_ajuste s cliente_id fecha descripcion opcion monto es_negativo (Some r)
    = (s', AjusteRegistrado (seq_ajustes s + 1) true)
    /\ ajustes s'
       = ajustes s ++ [mkAjuste (seq_ajustes s + 1) cliente_id fecha descripcion
                         (monto_con_signo signo monto es_negativo) tipo None].
Proof.
  intros Hc Hd Ht Hm Hr Hex. unfold registrar_ajuste.
  rewrite Hc. simpl.
  apply String.eqb_neq in Hd. rewrite Hd, Ht.
  apply Qle_bool_false in Hm. rewrite Hm.
  rewrite guardar_ajuste_sin_referencia; auto.
  - eexists. split; reflexivity.
  - intros _. unfold tipo_map in Ht.
    repeat match type of Ht with
           | (if ?b then _ else _) = _ => destruct b
           end; inversion Ht; reflexivity.
Qed.

(** X5.  The adjustment form of the dashboards, for an existing selected
    client, a description, one of the six categories of the form and a
    reference other than 0 that names no accrual.  On tables created by a
    dashboard and for a reference that fits in 64 bits, the adjustment is
    recorded with a null reference and the client, date, description, signed
    amount and category as given.  On tables created by the text menu the
    CHECK on [tipo] rejects the capitalised category, and a reference that
    does not fit in 64 bits cannot be bound: in both cases an error is
    reported and nothing is recorded. *)
Lemma registrar_ajuste_web_sin_referencia (esquema : frontend) (v2 : bool) (s : Store)
    (cliente_id : Z) (fecha : date) (descripcion tipo : string) (monto : Q) (r : Z) :
  cliente_id <> 0%Z ->
  cliente_exists s cliente_id = true ->
  descripcion <> ""%string ->
  In tipo tipos_web ->
  r <> 0%Z ->
  devengamiento_exists s r = false ->
  (has_checks esquema = false -> entero_sqlite r = true ->
   exists s',
     registrar_ajuste_web_en esquema v2 s cliente_id fecha descripcion monto tipo (Some r)
     = (s', AjusteRegistrado (seq_ajustes s + 1) true)
     /\ ajustes s'
        = ajustes s ++ [mkAjuste (seq_ajustes s + 1) cliente_id fecha descripcion
                          monto tipo None])
  /\ (has_checks esquema = true \/ entero_sqlite r = false ->
      registrar_ajuste_web_en esquema v2 s cliente_id fecha descripcion monto tipo (Some r)
      = (s, AjusteError)).
Proof.
  intros Hz Hc Hd Ht Hr Hex. unfold registrar_ajuste_web_en.
  apply Z.eqb_neq in Hz. rewrite Hz.
  pose proof Hd as Hd'. apply String.eqb_neq in Hd'. rewrite Hd', andb_false_r.
  assert (Hn : no_vacio descripcion = Some descripcion)
    by (destruct descripcion; [contradiction | reflexivity]).
  assert (Hno : tipo_permitido tipo = false).
  { unfold tipos_web in Ht. simpl in Ht.
    repeat (destruct Ht as [<- | Ht]; [reflexivity|]). contradiction. }
  split.
  - intros He Hint. rewrite Hint. simpl.
    rewrite Hn, guardar_ajuste_sin_referencia; auto.
    + eexists. split; reflexivity.
    + rewrite He. discriminate.
  - intros [He | Hint].
    + destruct (negb (entero_sqlite r)); [reflexivity|].
      rewrite Hn. unfold guardar_ajuste, limpiar_referencia, truthy.
      apply Z.eqb_neq in Hr. rewrite Hr, Hex. simpl.
      unfold insert_ajuste. rewrite Hc, He, Hno. reflexivity.
    + rewrite Hint. reflexivity.
Qed.

(** ** Accrual ids and period keys stay unique *)

Lemma record_cobro_devengamientos (fe : frontend) (s : Store) (cliente_id : Z)
    (fecha : date) (importe : Q) (m : modo) :
  devengamientos (fst (record_cobro fe s cliente_id fecha importe m)) = devengamientos s
  /\ seq_devengamientos (fst (record_cobro fe s cliente_id fecha importe m))
     = seq_devengamientos s.
Proof.
  unfold record_cobro.
  destruct (negb (cobro_valido fe s cliente_id importe)); [now split|].
  destruct (insert_cobro fe s cliente_id fecha importe) as [[s1 cobro_id]|] eqn:Hins;
    [|now split].
  assert (H1 : devengamientos s1 = devengamientos s
               /\ seq_devengamientos s1 = seq_devengamientos s).
  { unfold insert_cobro in Hins. destruct (_ && _); [|discriminate].
    injection Hins as <- _. now split. }
  destruct H1 as [H1 H2].
  assert (Hsolo : forall s2, solo_imputaciones s1 s2 ->
            devengamientos s2 = devengamientos s
            /\ seq_devengamientos s2 = seq_devengamientos s).
  { intros s2 (_ & _ & E1 & _ & _ & E2 & _). split; congruence. }
  destruct (modo_de fe m) as [|pairs|].
  - replace (match fe with
             | Cli => imputar_automatico Cli s1 s1 cobro_id cliente_id importe
             | Streamlit | StreamlitV2 =>
                 imputar_automatico_db fe s1 cobro_id cliente_id importe
             end)
      with (imputar_automatico fe s1 s1 cobro_id cliente_id importe)
      by (destruct fe; reflexivity).
    unfold imputar_automatico.
    destruct (imputar_loop_filas fe s1 cobro_id (devengamientos_de s1 cliente_id)
                s1 importe) as (nuevas & F1 & _).
    destruct (r_ok _); [|destruct fe]; simpl; now apply Hsolo.
  - unfold imputar_manual.
    destruct (devengamientos_de s1 cliente_id) as [|d0 ds]; [now split|].
    destruct (manual_loop_filas s1 cobro_id pairs s1 importe) as (nuevas & F1 & _).
    destruct (manual_loop s1 cobro_id pairs s1 importe) as [r out].
    simpl in *. now apply Hsolo.
  - now split.
Qed.

Lemma guardar_ajuste_devengamientos (fe : frontend) (s : Store) (cliente_id : Z)
    (fecha : date) (descripcion : option string) (monto : Q) (tipo : string)
    (ref_id : option Z) :
  devengamientos (fst (guardar_ajuste fe s cliente_id fecha descripcion monto tipo ref_id))
  = devengamientos s
  /\ seq_devengamientos
       (fst (guardar_ajuste fe s cliente_id fecha descripcion monto tipo ref_id))
     = seq_devengamientos s.
Proof.
  unfold guardar_ajuste.
  destruct (limpiar_referencia s ref_id) as [r aviso].
  unfold insert_ajuste.
  destruct descripcion as [texto|]; [|now split].
  destruct (_ && _); now split.
Qed.

Lemma procesar_plan_ids (fe : frontend) (anyo mes : Z) (ps pe : date)
    (s : Store) (p : Plan) :
  ids_devengamientos s ->
  ids_devengamientos (fst (procesar_plan fe anyo mes ps pe s p)).
Proof.
  intros [Hpk Hseq].
  destruct (procesar_plan_cases fe anyo mes ps pe s p)
    as [(-> & _) | (_ & _ & _ & _ & ->)]; [now split|].
  unfold ids_devengamientos, pk_devengamientos. simpl. split.
  - rewrite map_app. simpl. apply NoDup_app; [exact Hpk | repeat constructor; auto |].
    intros id Hin [<- | []]. apply in_map_iff in Hin as (d & Hd & Hin).
    specialize (Hseq d Hin). lia.
  - intros d Hin. apply in_app_or in Hin as [Hin | [<- | []]].
    + specialize (Hseq d Hin). lia.
    + simpl. lia.
Qed.

Lemma existe_devengamiento_clave (s : Store) (cliente_id plan_id anyo mes : Z) :
  existe_devengamiento s cliente_id plan_id anyo mes = false ->
  ~ In (cliente_id, Some plan_id, anyo, mes)
       (map clave_periodo
          (filter (fun d => match dv_plan_id d with Some _ => true | None => false end)
             (devengamientos s))).
Proof.
  intros Hex Hin. apply in_map_iff in Hin as (d & Hk & Hin).
  apply filter_In in Hin as [Hin _].
  unfold existe_devengamiento in Hex.
  rewrite <- not_true_iff_false in Hex. apply Hex.
  apply existsb_exists. exists d. split; [exact Hin|].
  unfold clave_periodo in Hk. injection Hk as -> -> -> ->.
  simpl. now rewrite !Z.eqb_refl.
Qed.

Lemma procesar_plan_sin_duplicados (fe : frontend) (anyo mes : Z) (ps pe : date)
    (s : Store) (p : Plan) :
  sin_duplicados s ->
  sin_duplicados (fst (procesar_plan fe anyo mes ps pe s p)).
Proof.
  intro Hnd.
  destruct (procesar_plan_cases fe anyo mes ps pe s p)
    as [(-> & _) | (_ & _ & Hex & _ & ->)]; [exact Hnd|].
  unfold sin_duplicados. simpl. rewrite filter_app, map_app. simpl.
  apply NoDup_app; [exact Hnd | repeat constructor; auto |].
  intros k Hin [<- | []].
  now apply (existe_devengamiento_clave s _ _ _ _ Hex).
Qed.

Lemma generar_loop_unicos (fe : frontend) (anyo mes : Z) (ps pe : date)
    (rows : list Plan) :
  forall (s : Store) (c : conteo),
    (ids_devengamientos s ->
     ids_devengamientos (fst (generar_loop fe anyo mes ps pe rows s c)))
    /\ (sin_duplicados s ->
        sin_duplicados (fst (generar_loop fe anyo mes ps pe rows s c))).
Proof.
  induction rows as [|p rows IH]; intros s c; simpl; [now split|].
  pose proof (procesar_plan_ids fe anyo mes ps pe s p) as H1.
  pose proof (procesar_plan_sin_duplicados fe anyo mes ps pe s p) as H2.
  destruct (procesar_plan fe anyo mes ps pe s p) as [s1 r]. simpl in *.
  destruct (IH s1 (contar c r)) as [I1 I2]. split; auto.
Qed.

(** Generation keeps accrual ids distinct and never stores a second accrual
    for a (client, plan, year, month). *)
Lemma generar_unicos (fe : frontend) (s : Store) (anyo mes : Z) :
  (ids_devengamientos s -> ids_devengamientos (fst (generar fe s anyo mes)))
  /\ (sin_duplicados s -> sin_duplicados (fst (generar fe s anyo mes))).
Proof.
  unfold generar.
  destruct (make anyo mes 1) as [ps|]; [|now split].
  destruct (periodo_end_de fe anyo mes) as [pe|]; [|now split].
  pose proof (generar_loop_unicos fe anyo mes ps pe (planes_a_procesar s) s
                (mkConteo 0 0 0)) as H.
  destruct (generar_loop fe anyo mes ps pe (planes_a_procesar s) s (mkConteo 0 0 0))
    as [s' c].
  exact H.
Qed.

Lemma ejecutar_unicos (s : Store) (op : operacion) :
  (ids_devengamientos s -> ids_devengamientos (ejecutar s op))
  /\ (sin_duplicados s -> sin_duplicados (ejecutar s op)).
Proof.
  assert (Hframe : forall s', devengamientos s' = devengamientos s
                              /\ seq_devengamientos s' = seq_devengamientos s ->
            (ids_devengamientos s -> ids_devengamientos s')
            /\ (sin_duplicados s -> sin_duplicados s')).
  { intros s' [E1 E2].
    unfold ids_devengamientos, pk_devengamientos, sin_duplicados.
    now rewrite E1, E2. }
  destruct op; simpl.
  - apply Hframe, record_cobro_devengamientos.
  - apply generar_unicos.
  - apply Hframe. unfold registrar_ajuste_web, registrar_ajuste_web_en.
    destruct (cliente_id =? 0)%Z; [now split|].
    destruct (v2 && String.eqb descripcion ""); [now split|].
    destruct (match ref_id with Some r => negb (entero_sqlite r) | None => false end);
      [now split|].
    apply guardar_ajuste_devengamientos.
  - apply Hframe. unfold registrar_ajuste.
    destruct (negb (cliente_exists s cliente_id)); [now split|].
    destruct (String.eqb descripcion ""); [now split|].
    destruct (tipo_map opcion) as [[tipo signo]|]; [|now split].
    destruct (Qle_bool monto 0); [now split|].
    apply guardar_ajuste_devengamientos.
Qed.

(** The primary key assumed of the store by the properties of the balance
    calculator and of automatic allocation holds after every sequence of
    operations on a store that has it. *)
Lemma ejecutar_todas_unicos (ops : list operacion) :
  forall s,
    (ids_devengamientos s -> ids_devengamientos (ejecutar_todas s ops))
    /\ (sin_duplicados s -> sin_duplicados (ejecutar_todas s ops)).
Proof.
  unfold ejecutar_todas.
  induction ops as [|op ops IH]; intro s; simpl; [now split|].
  destruct (ejecutar_unicos s op) as [E1 E2].
  destruct (IH (ejecutar s op)) as [I1 I2]. split; auto.
Qed.

(** No duplicate accrual.  After any sequence of ledger operations on a store
    whose accrual ids are distinct and below the counter and which holds at
    most one accrual per (client, plan, year, month), both still hold. *)
Theorem sin_devengamientos_duplicados (s : Store) (ops : list operacion) :
  ids_devengamientos s ->
  sin_duplicados s ->
  ids_devengamientos (ejecutar_todas s ops) /\ sin_duplicados (ejecutar_todas s ops).
Proof.
  intros H1 H2. destruct (ejecutar_todas_unicos ops s) as [E1 E2]. split; auto.
Qed.

Lemma imputar_manual_con_devengamientos (snap cur : Store) (cobro_id cliente_id : Z)
    (importe : Q) (pairs : list (option (Z * Q))) :
  devengamientos_de cur cliente_id <> [] ->
  imputar_manual snap cur cobro_id cliente_id importe pairs
  = manual_loop snap cobro_id pairs cur importe.
Proof.
  unfold imputar_manual. now destruct (devengamientos_de cur cliente_id).
Qed.

Lemma empty_store_bien_formado :
  ids_devengamientos empty_store /\ sin_duplicados empty_store
  /\ inv_cobros 0 empty_store.
Proof.
  repeat split; try constructor; simpl; intros ? [].
Qed.

(** * Worked instances *)

Lemma pk_ej_marzo : pk_devengamientos ej_marzo.
Proof.
  unfold pk_devengamientos. simpl.
  repeat constructor; simpl; intuition discriminate.
Qed.

Lemma pk_ej_dos (importe : Q) : pk_devengamientos (ej_dos importe).
Proof.
  unfold pk_devengamientos. simpl.
  repeat constructor; simpl; intuition discriminate.
Qed.

Lemma inv_cobros_ej_marzo : inv_cobros 0 ej_marzo.
Proof.
  repeat split; simpl; intros ? [].
Qed.

(** Instance of C1: accrual 2 of [ej_marzo]. *)
Lemma devengamiento_saldo_formula_witness :
  devengamiento_saldo ej_marzo 2 == balance_formula ej_marzo
                                      (mkDevengamiento 2 1 (Some 2%Z) 2024 3 500
                                         (mkdate 2024 3 31))
  /\ (forall id, 0 <= devengamiento_saldo ej_marzo id).
Proof.
  apply (devengamiento_saldo_formula ej_marzo
           (mkDevengamiento 2 1 (Some 2%Z) 2024 3 500 (mkdate 2024 3 31))).
  - exact pk_ej_marzo.
  - simpl. right. left. reflexivity.
Defined.

(** Instance of C5: March 2024 generated twice by a dashboard. *)
Lemma generar_idempotente_witness :
  generar Streamlit ej_base 2024 3 = (ej_marzo, Generado (mkConteo 2 0 0))
  /\ exists c2,
       generar Streamlit ej_marzo 2024 3 = (ej_marzo, Generado c2)
       /\ created c2 = 0%nat
       /\ devengamientos_nuevos ej_marzo (fst (generar Streamlit ej_marzo 2024 3)) = [].
Proof.
  split; [reflexivity|].
  apply (generar_idempotente Streamlit ej_base ej_marzo 2024 3 (mkConteo 2 0 0)).
  reflexivity.
Defined.

(** C2 as stated fails.  Two accruals of 500 and a payment of 500.01: the
    first accrual receives 500, the remaining 0.01 is within the tolerance
    and the walk stops.  The allocations total 500, not
    min(500.01, 1000) = 500.01, and the remainder is 0.01, not 0. *)
Lemma imputar_automatico_no_exacto :
  let s := ej_dos 500.01 in
  let res := imputar_automatico Streamlit s s 1 1 500.01 in
  saldo_cliente s 1 == 1000
  /\ total_montos (imputaciones_nuevas s (fst res)) == 500
  /\ ~ total_montos (imputaciones_nuevas s (fst res))
       == Qmin 500.01 (saldo_cliente s 1)
  /\ exists r, snd res = Some r
               /\ r == 0.01
               /\ ~ r == Qmax 0 (500.01 - saldo_cliente s 1).
Proof.
  cbv zeta. split; [reflexivity|]. split; [reflexivity|].
  split; [intro H; vm_compute in H; discriminate|].
  eexists. split; [vm_compute; reflexivity|].
  split; [reflexivity | intro H; vm_compute in H; discriminate].
Qed.

Lemma sin_residuos_ej_dos : sin_residuos 600 (montos (saldos_de (ej_dos 600) 1)).
Proof.
  split.
  - intros b Hb. vm_compute in Hb.
    destruct Hb as [<- | [<- | []]]; right; reflexivity.
  - intros [|[|k]].
    + right. reflexivity.
    + right. reflexivity.
    + left. replace (firstn (S (S k)) (montos (saldos_de (ej_dos 600) 1)))
        with (montos (saldos_de (ej_dos 600) 1)).
      * vm_compute. discriminate.
      * vm_compute. now destruct k.
Qed.

(** Instance of C2, amended: the payment of 600 against the two accruals of
    500 applies min(600, 1000) = 600 and leaves 0. *)
Lemma imputar_automatico_conserva_witness :
  exists s' r,
    imputar_automatico Streamlit (ej_dos 600) (ej_dos 600) 1 1 600 = (s', Some r)
    /\ total_montos (imputaciones_nuevas (ej_dos 600) s') == 600 - r
    /\ total_montos (imputaciones_nuevas (ej_dos 600) s')
       == Qmin 600 (saldo_cliente (ej_dos 600) 1)
    /\ r == Qmax 0 (600 - saldo_cliente (ej_dos 600) 1).
Proof.
  destruct (imputar_automatico_conserva Streamlit (ej_dos 600) 1 1 600)
    as (s' & r & E & H1 & _ & _ & H4).
  - exact (pk_ej_dos 600).
  - reflexivity.
  - discriminate.
  - destruct (H4 sin_residuos_ej_dos) as [H5 H6].
    exists s', r. repeat split; assumption.
Defined.

(** Instance of C8: the payment of 600 visits 2024-01 before 2024-02. *)
Lemma imputar_automatico_orden_witness :
  exists s' r,
    imputar_automatico Cli (ej_dos 600) (ej_dos 600) 1 1 600 = (s', r)
    /\ StronglySorted clave_lt (devengamientos_de (ej_dos 600) 1)
    /\ forall pre d post,
         devengamientos_de (ej_dos 600) 1 = pre ++ d :: post ->
         In (dv_id d) (map im_devengamiento_id (imputaciones_nuevas (ej_dos 600) s')) ->
         forall d', In d' pre -> devengamiento_saldo s' (dv_id d') <= eps.
Proof.
  destruct (imputar_automatico_orden Cli (ej_dos 600) 1 1 600)
    as (s' & r & E & _ & H2 & H3 & _).
  - exact (pk_ej_dos 600).
  - reflexivity.
  - exists s', r. repeat split; assumption.
Defined.

(** C3 as stated fails.  Against accrual 7 (balance 300) and a remaining
    amount of 800, a request of 300.01 exceeds the balance and is applied in
    full, not reduced to 300; a request of 1000 exceeds the remaining amount
    and applies 300, not the remainder 800. *)
Lemma imputar_manual_no_iguala_saldo :
  devengamiento_saldo ej_manual 7 == 300
  /\ devengamiento_saldo ej_manual 7 < 300.01
  /\ snd (manual_loop ej_manual 1 [Some (7%Z, 300.01)] ej_manual 800)
     = [Aplicado 7 300.01]
  /\ ~ 300.01 == devengamiento_saldo ej_manual 7
  /\ 800 < 1000
  /\ (exists m, snd (manual_loop ej_manual 1 [Some (7%Z, 1000)] ej_manual 800)
                = [Aplicado 7 m]
                /\ ~ m == 800).
Proof.
  split; [reflexivity|]. split; [reflexivity|]. split; [reflexivity|].
  split; [intro H; vm_compute in H; discriminate|]. split; [reflexivity|].
  eexists. split; [vm_compute; reflexivity|].
  intro H; vm_compute in H; discriminate.
Qed.

(** Instance of C3, amended: the scenario of the specification. *)
Lemma imputar_manual_ajusta_witness :
  (exists r out,
     manual_loop ej_manual 1 [Some (7%Z, 1000)] ej_manual 800
     = (r, Aplicado 7 (devengamiento_saldo ej_manual 7) :: out)
     /\ nth_error (imputaciones_nuevas ej_manual (r_store r)) 0
        = Some (mkImputacion (seq_devengamientos_cobros ej_manual + 1) 7 1
                  (devengamiento_saldo ej_manual 7)))
  /\ exists r,
       manual_loop ej_manual 1 [Some (7%Z, 1000)] ej_manual 800
       = (r, [Aplicado 7 (devengamiento_saldo ej_manual 7)])
       /\ r_restante r == 500.
Proof.
  destruct (imputar_manual_ajusta ej_manual ej_manual 1 7 1000 800 [])
    as (H1 & _ & _ & H5); try reflexivity.
  split.
  - apply H1; [reflexivity | discriminate | reflexivity].
  - apply H5; reflexivity.
Defined.

(** The skipped pair of C3: after an adjustment of -1000 on accrual 7 (amount
    300), a request of 50 for it inserts nothing. *)
Example manual_omite_ejemplo :
  manual_loop
    (fst (registrar_ajuste_web true ej_manual 1 (mkdate 2024 2 1) "nota" (-1000)
            "Nota_credito" (Some 7%Z)))
    1 [Some (7%Z, 50)]
    (fst (registrar_ajuste_web true ej_manual 1 (mkdate 2024 2 1) "nota" (-1000)
            "Nota_credito" (Some 7%Z)))
    800
  = (mkImputado
       (fst (registrar_ajuste_web true ej_manual 1 (mkdate 2024 2 1) "nota" (-1000)
               "Nota_credito" (Some 7%Z)))
       800 true,
     [SinMonto 7]).
Proof. reflexivity. Qed.

(** C10 as stated fails.  A request of 50.02 against a balance of 50.01 is
    within 0.01 above the balance, yet the row that is inserted carries
    50.01: in binary64, 50.01 + 0.01 falls below 50.02.  In the same way a
    request of 1000 against a balance of 50.02 and a remaining amount of
    50.01 is reduced to the balance and then, although the balance is within
    0.01 above the remaining amount, to 50.01. *)
Lemma ajuste_en_banda_reducido :
  50.01 < 50.02
  /\ 50.02 <= 50.01 + eps
  /\ par_manual_f 50.02 50.01 100 = Some 50.01%float
  /\ ajustar_monto_f 1000 50.02 1000 = 50.02%float
  /\ par_manual_f 1000 50.02 50.01 = Some 50.01%float.
Proof.
  split; [reflexivity|]. split; [discriminate|]. repeat split.
Qed.

(** Instance of C10, amended: a request of 250 against the balance of 300
    and the remaining amount of 800 is inserted in full. *)
Lemma ajuste_con_tolerancia_witness :
  exists r out,
    manual_loop ej_manual 1 [Some (7%Z, 250)] ej_manual 800
    = (r, Aplicado 7 250 :: out)
    /\ nth_error (imputaciones_nuevas ej_manual (r_store r)) 0
       = Some (mkImputacion (seq_devengamientos_cobros ej_manual + 1) 7 1 250).
Proof.
  destruct (ajuste_con_tolerancia ej_manual ej_manual 1 7 250 800 [])
    as (H1 & _); try reflexivity.
  apply H1; discriminate.
Defined.

(** C4 as stated fails.  A payment of 100 recorded in the text menu with the
    directive [(2, 100.01)] inserts an allocation of 100.01 against accrual
    2 (balance 500): the allocations of the payment exceed its amount. *)
Lemma imputacion_excede_cobro :
  let s' := ejecutar_todas ej_marzo
              [OpCobro Cli 1 (mkdate 2024 4 10) 100 (Manual [Some (2%Z, 100.01)])] in
  inv_cobros 0 ej_marzo
  /\ In (mkCobro 1 1 (mkdate 2024 4 10) 100) (cobros s')
  /\ imputado_de_cobro s' 1 == 100.01
  /\ ~ imputado_de_cobro s' 1 <= 100.
Proof.
  cbv zeta. split; [exact inv_cobros_ej_marzo|].
  split; [vm_compute; now left|].
  split; [reflexivity|].
  intro H. vm_compute in H. now apply H.
Qed.

(** Instance of C4, amended, on the same run. *)
Lemma imputaciones_no_exceden_witness :
  imputado_de_cobro
    (ejecutar_todas ej_marzo
       [OpCobro Cli 1 (mkdate 2024 4 10) 100 (Manual [Some (2%Z, 100.01)])]) 1
  <= 100 + eps.
Proof.
  apply (imputaciones_no_exceden ej_marzo
           [OpCobro Cli 1 (mkdate 2024 4 10) 100 (Manual [Some (2%Z, 100.01)])]
           (mkCobro 1 1 (mkdate 2024 4 10) 100)).
  - exact inv_cobros_ej_marzo.
  - vm_compute. now left.
  - discriminate.
Defined.

(** C6 on the text menu.  Plan 2 of [ej_base] is active, belongs to an active
    client, has no end date and starts on 2024-03-15, which is not after the
    last day of March 2024.  The text menu skips it for March 2024, because
    it starts after the first day of the month; both dashboards treat it as
    in force and create its accrual. *)
Lemma cli_omite_plan_iniciado_en_el_mes :
  let p := mkPlan 2 1 500 (mkdate 2024 3 15) None true in
  In p (planes_a_procesar ej_base)
  /\ pl_fecha_fin p = None
  /\ ltb (mkdate 2024 3 (days_in_month 2024 3)) (pl_fecha_inicio p) = false
  /\ vigente Cli (mkdate 2024 3 1) (mkdate 2024 3 28) p = false
  /\ procesar_plan Cli 2024 3 (mkdate 2024 3 1) (mkdate 2024 3 28) ej_base p
     = (ej_base, Omitido)
  /\ snd (generar Cli ej_base 2024 3) = Generado (mkConteo 1 1 0)
  /\ vigente Streamlit (mkdate 2024 3 1) (mkdate 2024 3 31) p = true
  /\ snd (generar Streamlit ej_base 2024 3) = Generado (mkConteo 2 0 0)
  /\ snd (generar StreamlitV2 ej_base 2024 3) = Generado (mkConteo 2 0 0).
Proof.
  cbv zeta. split; [simpl; auto|]. repeat split.
Qed.

(** C7 on the text menu.  The accrual that the text menu creates for March
    2024 is dated 2024-03-01, not the last day of the month; the dashboards
    date theirs 2024-03-31.  The amount is that of the plan in both. *)
Lemma cli_fecha_primer_dia :
  devengamientos_nuevos ej_base (fst (generar Cli ej_base 2024 3))
  = [mkDevengamiento 1 1 (Some 1%Z) 2024 3 1000 (mkdate 2024 3 1)]
  /\ ~ es_ultimo_dia 2024 3 (mkdate 2024 3 1)
  /\ es_ultimo_dia 2024 3 (mkdate 2024 3 31)
  /\ devengamientos_nuevos ej_base (fst (generar Streamlit ej_base 2024 3))
     = [mkDevengamiento 1 1 (Some 1%Z) 2024 3 1000 (mkdate 2024 3 31);
        mkDevengamiento 2 1 (Some 2%Z) 2024 3 500 (mkdate 2024 3 31)].
Proof.
  split; [reflexivity|]. split; [|split; [split; reflexivity | reflexivity]].
  intros [_ H]. discriminate.
Qed.

(** C9 with the reference 0.  No accrual has id 0, yet the adjustment is not
    recorded in any front-end: the test [if ref_id and ...] takes 0 for "no
    reference given", the existence check is skipped and the foreign key of
    the INSERT rejects the row.  Any other missing id is cleared and the
    adjustment is recorded. *)
Lemma registrar_ajuste_referencia_cero :
  devengamiento_exists ej_marzo 0 = false
  /\ registrar_ajuste ej_marzo 1 (mkdate 2024 4 2) "descuento" "1" 100 false (Some 0%Z)
     = (ej_marzo, AjusteError)
  /\ registrar_ajuste_web false ej_marzo 1 (mkdate 2024 4 2) "descuento" (-100)
       "Bonificacion" (Some 0%Z)
     = (ej_marzo, AjusteError)
  /\ registrar_ajuste_web true ej_marzo 1 (mkdate 2024 4 2) "descuento" (-100)
       "Bonificacion" (Some 0%Z)
     = (ej_marzo, AjusteError)
  /\ devengamiento_exists ej_marzo 9 = false
  /\ ajustes (fst (registrar_ajuste ej_marzo 1 (mkdate 2024 4 2) "descuento" "1" 100
                     false (Some 9%Z)))
     = [mkAjuste 1 1 (mkdate 2024 4 2) "descuento" (-100) "bonificacion" None].
Proof.
  repeat split.
Qed.

(** ** The scenarios of the specification *)

(** Plan of 1000 since 2024-01-01 without end date: generating 2024-03 gives
    one accrual of 1000 with balance 1000; a payment of 1500 allocated
    automatically applies 1000 to it and leaves 500. *)
Example escenario_generar_y_cobrar :
  let s0 := mkStore [mkCliente 1 true]
              [mkPlan 1 1 1000 (mkdate 2024 1 1) None true] [] [] [] [] 0 0 0 0 in
  let s1 := fst (generar StreamlitV2 s0 2024 3) in
  let res := record_cobro StreamlitV2 s1 1 (mkdate 2024 4 5) 1500 Automatico in
  devengamientos s1
  = [mkDevengamiento 1 1 (Some 1%Z) 2024 3 1000 (mkdate 2024 3 31)]
  /\ devengamiento_saldo s1 1 == 1000
  /\ map (fun i => (im_devengamiento_id i, im_monto i)) (devengamientos_cobros (fst res))
     = [(1%Z, 1000)]
  /\ devengamiento_saldo (fst res) 1 == 0
  /\ exists r, snd res = CobroRegistrado 1 (Some r) /\ r == 500.
Proof.
  cbv zeta. repeat split. eexists. split; reflexivity.
Qed.

(** Accruals of 500 for 2024-01 and 2024-02, payment of 600: 500 goes to
    2024-01, 100 to 2024-02, nothing remains. *)
Example escenario_dos_devengamientos :
  let res := imputar_automatico Cli (ej_dos 600) (ej_dos 600) 1 1 600 in
  map (fun i => (im_devengamiento_id i, im_monto i)) (devengamientos_cobros (fst res))
  = [(1%Z, 500); (2%Z, 100)]
  /\ devengamiento_saldo (fst res) 1 == 0
  /\ devengamiento_saldo (fst res) 2 == 400
  /\ exists r, snd res = Some r /\ r == 0.
Proof.
  cbv zeta. repeat split. eexists. split; reflexivity.
Qed.

(** Accrual with balance 300: an adjustment of -100 referencing it leaves
    200, one of -1000 leaves 0. *)
Example escenario_ajuste :
  devengamiento_saldo ej_manual 7 == 300
  /\ devengamiento_saldo
       (fst (registrar_ajuste_web true ej_manual 1 (mkdate 2024 2 1) "nota" (-100)
               "Nota_credito" (Some 7%Z))) 7 == 200
  /\ devengamiento_saldo
       (fst (registrar_ajuste_web true ej_manual 1 (mkdate 2024 2 1) "nota" (-1000)
               "Nota_credito" (Some 7%Z))) 7 == 0.
Proof.
  repeat split.
Qed.

(** ** Instances of the general properties of the front-ends *)

(** A dashboard in March 2024 and the plan that starts on 2024-03-15. *)
Lemma vigencia_web_witness :
  vigente Streamlit (mkdate 2024 3 1) (mkdate 2024 3 31)
    (mkPlan 2 1 500 (mkdate 2024 3 15) None true) = true.
Proof.
  destruct (vigencia_web Streamlit 2024 3 (mkdate 2024 3 1) (mkdate 2024 3 31) ej_base
              (mkPlan 2 1 500 (mkdate 2024 3 15) None true))
    as (_ & _ & H); [discriminate | reflexivity | reflexivity |].
  apply H; reflexivity.
Defined.

(** The second accrual that a dashboard creates for March 2024. *)
Lemma generar_web_fecha_importe_witness :
  es_ultimo_dia 2024 3 (mkdate 2024 3 31)
  /\ exists p, In p (planes ej_base) /\ pl_activo p = true
               /\ generado_de 2024 3 p
                    (mkDevengamiento 2 1 (Some 2%Z) 2024 3 500 (mkdate 2024 3 31)).
Proof.
  apply (generar_web_fecha_importe Streamlit ej_base ej_marzo 2024 3 (mkConteo 2 0 0)
           ltac:(discriminate) eq_refl
           (mkDevengamiento 2 1 (Some 2%Z) 2024 3 500 (mkdate 2024 3 31))).
  simpl. right. left. reflexivity.
Defined.

(** Generation in the text menu, then in a dashboard, then a payment. *)
Lemma sin_devengamientos_duplicados_witness :
  ids_devengamientos
    (ejecutar_todas ej_base
       [OpGenerar Cli 2024 3; OpGenerar Streamlit 2024 3;
        OpCobro Cli 1 (mkdate 2024 4 10) 1200 Automatico])
  /\ sin_duplicados
       (ejecutar_todas ej_base
          [OpGenerar Cli 2024 3; OpGenerar Streamlit 2024 3;
           OpCobro Cli 1 (mkdate 2024 4 10) 1200 Automatico]).
Proof.
  apply sin_devengamientos_duplicados.
  - split; [constructor | intros ? []].
  - constructor.
Defined.

(** The text menu with the missing reference 9. *)
Lemma registrar_ajuste_sin_referencia_witness :
  exists s',
    registrar_ajuste ej_marzo 1 (mkdate 2024 4 2) "descuento" "1" 100 false (Some 9%Z)
    = (s', AjusteRegistrado 1 true)
    /\ ajustes s'
       = [mkAjuste 1 1 (mkdate 2024 4 2) "descuento"
            (monto_con_signo (-1) 100 false) "bonificacion" None].
Proof.
  apply (registrar_ajuste_sin_referencia ej_marzo 1 (mkdate 2024 4 2) "descuento" "1"
           "bonificacion" (-1) 100 false 9);
    try reflexivity; discriminate.
Defined.

(** Instance of X5: the missing reference 9 on tables of a dashboard and on
    tables of the text menu, and the reference 2^63. *)
Lemma registrar_ajuste_web_sin_referencia_witness :
  (exists s',
     registrar_ajuste_web_en StreamlitV2 true ej_marzo 1 (mkdate 2024 4 2) "descuento"
       (-100) "Bonificacion" (Some 9%Z)
     = (s', AjusteRegistrado 1 true)
     /\ ajustes s'
        = [mkAjuste 1 1 (mkdate 2024 4 2) "descuento" (-100) "Bonificacion" None])
  /\ registrar_ajuste_web_en Cli true ej_marzo 1 (mkdate 2024 4 2) "descuento"
       (-100) "Bonificacion" (Some 9%Z)
     = (ej_marzo, AjusteError)
  /\ registrar_ajuste_web_en StreamlitV2 true ej_marzo 1 (mkdate 2024 4 2) "descuento"
       (-100) "Bonificacion" (Some (2 ^ 63)%Z)
     = (ej_marzo, AjusteError).
Proof.
  split; [|split].
  - apply (registrar_ajuste_web_sin_referencia StreamlitV2 true ej_marzo 1
             (mkdate 2024 4 2) "descuento" "Bonificacion" (-100) 9);
      try reflexivity; try discriminate. now left.
  - apply (registrar_ajuste_web_sin_referencia Cli true ej_marzo 1
             (mkdate 2024 4 2) "descuento" "Bonificacion" (-100) 9);
      try reflexivity; try discriminate; now left.
  - apply (registrar_ajuste_web_sin_referencia StreamlitV2 true ej_marzo 1
             (mkdate 2024 4 2) "descuento" "Bonificacion" (-100) (2 ^ 63));
      try reflexivity; try discriminate; [now left | now right].
Defined.

(** ** Deleting rows in the dashboards *)

Lemma contar_filas_cero {A : Type} (p : A -> bool) (l : list A) :
  (0 <? contar_filas p l)%nat = false -> filter p l = [].
Proof.
  unfold contar_filas. destruct (filter p l); simpl; [reflexivity | discriminate].
Qed.

Lemma contar_filas_pos {A : Type} (p : A -> bool) (l : list A) :
  (0 <? contar_filas p l)%nat = true -> exists x, In x l /\ p x = true.
Proof.
  unfold contar_filas. destruct (filter p l) as [|x r] eqn:E; simpl; [discriminate|].
  intros _. exists x. apply filter_In. rewrite E. now left.
Qed.

Lemma filter_vacio {A : Type} (p : A -> bool) (l : list A) :
  filter p l = [] <-> forall x, In x l -> p x = false.
Proof.
  split.
  - intros E x Hx. destruct (p x) eqn:Ep; [|reflexivity].
    assert (H : In x (filter p l)) by (apply filter_In; now split).
    rewrite E in H. destruct H.
  - apply filter_ninguno.
Qed.

Lemma filter_negb_todos {A : Type} (p : A -> bool) (l : list A) :
  filter p l = [] -> filter (fun x => negb (p x)) l = l.
Proof.
  intro E. apply filter_todos. intros x Hx.
  rewrite (proj1 (filter_vacio p l) E x Hx). reflexivity.
Qed.

Lemma map_sin_cambio {A : Type} (c : A -> bool) (f : A -> A) (l : list A) :
  filter c l = [] -> map (fun x => if c x then f x else x) l = l.
Proof.
  intro E. rewrite <- (map_id l) at 2. apply map_ext_in. intros x Hx.
  now rewrite (proj1 (filter_vacio c l) E x Hx).
Qed.

Lemma eliminar_cliente_casos (v2 : bool) (s : Store) (sel : Z) :
  (snd (eliminar_cliente v2 s sel) <> Hecho /\ fst (eliminar_cliente v2 s sel) = s
   /\ (seleccionado v2 sel = false \/ cliente_exists s sel = false
       \/ (exists p, In p (planes s) /\ pl_cliente_id p = sel)
       \/ (exists d, In d (devengamientos s) /\ dv_cliente_id d = sel)
       \/ (exists c, In c (cobros s) /\ cb_cliente_id c = sel)))
  \/ (snd (eliminar_cliente v2 s sel) = Hecho
      /\ seleccionado v2 sel = true /\ cliente_exists s sel = true
      /\ filter (fun p => (pl_cliente_id p =? sel)%Z) (planes s) = []
      /\ filter (fun d => (dv_cliente_id d =? sel)%Z) (devengamientos s) = []
      /\ filter (fun c => (cb_cliente_id c =? sel)%Z) (cobros s) = []
      /\ fst (eliminar_cliente v2 s sel)
         = mkStore (filter (fun c => negb (cl_id c =? sel)%Z) (clientes s))
             (planes s) (devengamientos s) (cobros s) (devengamientos_cobros s)
             (filter (fun a => negb (aj_cliente_id a =? sel)%Z) (ajustes s))
             (seq_devengamientos s) (seq_cobros s) (seq_devengamientos_cobros s)
             (seq_ajustes s)).
Proof.
  unfold eliminar_cliente.
  destruct (seleccionado v2 sel) eqn:Es; simpl;
    [|left; repeat split; [discriminate | now left]].
  destruct (cliente_exists s sel) eqn:Ec; simpl;
    [|left; repeat split; [discriminate | now right; left]].
  destruct (0 <? contar_filas _ (planes s))%nat eqn:E1; simpl.
  { left. repeat split; [discriminate|]. right; right; left.
    apply contar_filas_pos in E1 as (p & Hp & E). exists p.
    split; [exact Hp | now apply Z.eqb_eq]. }
  destruct (0 <? contar_filas _ (devengamientos s))%nat eqn:E2; simpl.
  { left. repeat split; [discriminate|]. right; right; right; left.
    apply contar_filas_pos in E2 as (d & Hd & E). exists d.
    split; [exact Hd | now apply Z.eqb_eq]. }
  destruct (0 <? contar_filas _ (cobros s))%nat eqn:E3; simpl.
  { left. repeat split; [discriminate|]. right; right; right; right.
    apply contar_filas_pos in E3 as (c & Hc & E). exists c.
    split; [exact Hc | now apply Z.eqb_eq]. }
  right. apply contar_filas_cero in E1, E2, E3.
  repeat split; auto.
  unfold delete_cliente. rewrite Ec, E1. simpl. rewrite E2. simpl. rewrite E3. simpl.
  reflexivity.
Qed.

(** X6.  Deleting a client in a dashboard goes through exactly when a client
    is selected, exists and has no plan, no accrual and no payment; the
    adjustments of the client are not counted by the guard and are deleted
    with the client row; no other row and no counter changes.  A refused
    deletion changes nothing. *)
Theorem eliminar_cliente_efecto (v2 : bool) (s : Store) (sel : Z) :
  (snd (eliminar_cliente v2 s sel) = Hecho <->
   seleccionado v2 sel = true /\ cliente_exists s sel = true
   /\ (forall p, In p (planes s) -> pl_cliente_id p <> sel)
   /\ (forall d, In d (devengamientos s) -> dv_cliente_id d <> sel)
   /\ (forall c, In c (cobros s) -> cb_cliente_id c <> sel))
  /\ (snd (eliminar_cliente v2 s sel) = Hecho ->
      fst (eliminar_cliente v2 s sel)
      = mkStore (filter (fun c => negb (cl_id c =? sel)%Z) (clientes s))
          (planes s) (devengamientos s) (cobros s) (devengamientos_cobros s)
          (filter (fun a => negb (aj_cliente_id a =? sel)%Z) (ajustes s))
          (seq_devengamientos s) (seq_cobros s) (seq_devengamientos_cobros s)
          (seq_ajustes s))
  /\ (snd (eliminar_cliente v2 s sel) <> Hecho -> fst (eliminar_cliente v2 s sel) = s).
Proof.
  destruct (eliminar_cliente_casos v2 s sel)
    as [(Hn & Hs & Hc) | (Hr & H1 & H2 & H3 & H4 & H5 & Hs)].
  - split; [|split]; [|intro; contradiction | intros _; exact Hs].
    split; [intro; contradiction|].
    intros (G1 & G2 & G3 & G4 & G5). exfalso.
    destruct Hc as [Hc | [Hc | [(p & Hp & E) | [(d & Hd & E) | (c & Hp & E)]]]];
      try congruence.
    + now apply (G3 p).
    + now apply (G4 d).
    + now apply (G5 c).
  - split; [|split]; [|intros _; exact Hs | intro; contradiction].
    split; [|intros _; exact Hr]. intros _.
    repeat split; auto.
    + intros p Hp E. apply (proj1 (filter_vacio _ _) H3) in Hp.
      apply Z.eqb_neq in Hp. contradiction.
    + intros d Hd E. apply (proj1 (filter_vacio _ _) H4) in Hd.
      apply Z.eqb_neq in Hd. contradiction.
    + intros c Hc E. apply (proj1 (filter_vacio _ _) H5) in Hc.
      apply Z.eqb_neq in Hc. contradiction.
Qed.

Lemma opt_Z_eqb_true (a : option Z) (b : Z) :
  opt_Z_eqb a (Some b) = true <-> a = Some b.
Proof.
  destruct a as [x|]; simpl; [|split; discriminate].
  rewrite Z.eqb_eq. split; congruence.
Qed.

Lemma opt_Z_eqb_false (a : option Z) (b : Z) :
  opt_Z_eqb a (Some b) = false <-> a <> Some b.
Proof.
  rewrite <- opt_Z_eqb_true. destruct (opt_Z_eqb a (Some b)); split; congruence.
Qed.

Lemma encontrado_exists {A : Type} (id : A -> Z) (q : A -> bool) (l : list A) (sel : Z) :
  existsb (fun x => (id x =? sel)%Z && q x) l = true ->
  existsb (fun x => (id x =? sel)%Z) l = true.
Proof.
  rewrite !existsb_exists. intros (x & Hx & E).
  apply andb_true_iff in E as [E _]. now exists x.
Qed.

Lemma eliminar_devengamiento_casos (v2 : bool) (s : Store) (sel : Z) :
  (snd (eliminar_devengamiento v2 s sel) <> Hecho
   /\ fst (eliminar_devengamiento v2 s sel) = s
   /\ (seleccionado v2 sel = false \/ devengamiento_encontrado s sel = false
       \/ (exists i, In i (devengamientos_cobros s) /\ im_devengamiento_id i = sel)
       \/ (exists a, In a (ajustes s) /\ aj_referencia_devengamiento_id a = Some sel)))
  \/ (snd (eliminar_devengamiento v2 s sel) = Hecho
      /\ seleccionado v2 sel = true /\ devengamiento_encontrado s sel = true
      /\ filter (fun i => (im_devengamiento_id i =? sel)%Z) (devengamientos_cobros s) = []
      /\ filter (fun a => opt_Z_eqb (aj_referencia_devengamiento_id a) (Some sel))
           (ajustes s) = []
      /\ fst (eliminar_devengamiento v2 s sel)
         = mkStore (clientes s) (planes s)
             (filter (fun d => negb (dv_id d =? sel)%Z) (devengamientos s))
             (cobros s) (devengamientos_cobros s) (ajustes s)
             (seq_devengamientos s) (seq_cobros s) (seq_devengamientos_cobros s)
             (seq_ajustes s)).
Proof.
  unfold eliminar_devengamiento.
  destruct (seleccionado v2 sel) eqn:Es; simpl;
    [|left; repeat split; [discriminate | now left]].
  destruct (devengamiento_encontrado s sel) eqn:Ec; simpl;
    [|left; repeat split; [discriminate | now right; left]].
  destruct (0 <? contar_filas _ (devengamientos_cobros s))%nat eqn:E1; simpl.
  { left. repeat split; [discriminate|]. right; right; left.
    apply contar_filas_pos in E1 as (i & Hi & E). exists i.
    split; [exact Hi | now apply Z.eqb_eq]. }
  destruct (0 <? contar_filas _ (ajustes s))%nat eqn:E2; simpl.
  { left. repeat split; [discriminate|]. right; right; right.
    apply contar_filas_pos in E2 as (a & Ha & E). exists a.
    split; [exact Ha | now apply opt_Z_eqb_true]. }
  right. apply contar_filas_cero in E1, E2.
  repeat split; auto.
  unfold delete_devengamiento.
  unfold devengamiento_encontrado in Ec. apply encontrado_exists in Ec.
  unfold devengamiento_exists. rewrite Ec.
  rewrite (filter_negb_todos _ _ E1), (map_sin_cambio _ _ _ E2). reflexivity.
Qed.

Lemma find_filter_otro (l : list Devengamiento) (id sel : Z) :
  id <> sel ->
  find (fun d => (dv_id d =? id)%Z) (filter (fun d => negb (dv_id d =? sel)%Z) l)
  = find (fun d => (dv_id d =? id)%Z) l.
Proof.
  intro Hne. induction l as [|x l IH]; simpl; [reflexivity|].
  destruct (dv_id x =? sel)%Z eqn:E1; simpl.
  - apply Z.eqb_eq in E1. destruct (dv_id x =? id)%Z eqn:E2; [|exact IH].
    apply Z.eqb_eq in E2. congruence.
  - destruct (dv_id x =? id)%Z; [reflexivity | exact IH].
Qed.

(** X7.  Deleting an accrual in a dashboard goes through exactly when an
    accrual is selected, is found with its client, and no allocation and no
    adjustment references it; then only that accrual row disappears and the
    balance of every other accrual is what it was.  A refused deletion
    changes nothing. *)
Theorem eliminar_devengamiento_efecto (v2 : bool) (s : Store) (sel : Z) :
  (snd (eliminar_devengamiento v2 s sel) = Hecho <->
   seleccionado v2 sel = true /\ devengamiento_encontrado s sel = true
   /\ (forall i, In i (devengamientos_cobros s) -> im_devengamiento_id i <> sel)
   /\ (forall a, In a (ajustes s) -> aj_referencia_devengamiento_id a <> Some sel))
  /\ (snd (eliminar_devengamiento v2 s sel) = Hecho ->
      fst (eliminar_devengamiento v2 s sel)
      = mkStore (clientes s) (planes s)
          (filter (fun d => negb (dv_id d =? sel)%Z) (devengamientos s))
          (cobros s) (devengamientos_cobros s) (ajustes s)
          (seq_devengamientos s) (seq_cobros s) (seq_devengamientos_cobros s)
          (seq_ajustes s)
      /\ devengamiento_exists (fst (eliminar_devengamiento v2 s sel)) sel = false
      /\ forall id, id <> sel ->
           devengamiento_saldo (fst (eliminar_devengamiento v2 s sel)) id
           = devengamiento_saldo s id)
  /\ (snd (eliminar_devengamiento v2 s sel) <> Hecho ->
      fst (eliminar_devengamiento v2 s sel) = s).
Proof.
  destruct (eliminar_devengamiento_casos v2 s sel)
    as [(Hn & Hs & Hc) | (Hr & H1 & H2 & H3 & H4 & Hs)].
  - split; [|split]; [|intro; contradiction | intros _; exact Hs].
    split; [intro; contradiction|].
    intros (G1 & G2 & G3 & G4). exfalso.
    destruct Hc as [Hc | [Hc | [(i & Hi & E) | (a & Ha & E)]]]; try congruence.
    + now apply (G3 i).
    + now apply (G4 a).
  - split; [|split]; [| |intro; contradiction].
    + split; [|intros _; exact Hr]. intros _. repeat split; auto.
      * intros i Hi E. apply (proj1 (filter_vacio _ _) H3) in Hi.
        apply Z.eqb_neq in Hi. contradiction.
      * intros a Ha. apply opt_Z_eqb_false.
        now apply (proj1 (filter_vacio _ _) H4).
    + intros _. split; [exact Hs|]. rewrite Hs. split.
      * unfold devengamiento_exists. simpl.
        apply not_true_iff_false. rewrite existsb_exists. intros (d & Hd & E).
        apply filter_In in Hd as [_ Hd]. rewrite E in Hd. discriminate.
      * intros id Hne. unfold devengamiento_saldo, aplicado, ajustes_de. simpl.
        now rewrite (find_filter_otro _ _ _ Hne).
Qed.

Lemma eliminar_cobro_casos (v2 : bool) (s : Store) (sel : Z) :
  (snd (eliminar_cobro v2 s sel) <> Hecho /\ fst (eliminar_cobro v2 s sel) = s)
  \/ (snd (eliminar_cobro v2 s sel) = Hecho
      /\ filter (fun i => (im_cobro_id i =? sel)%Z) (devengamientos_cobros s) = []
      /\ fst (eliminar_cobro v2 s sel)
         = mkStore (clientes s) (planes s) (devengamientos s)
             (filter (fun c => negb (cb_id c =? sel)%Z) (cobros s))
             (devengamientos_cobros s) (ajustes s)
             (seq_devengamientos s) (seq_cobros s) (seq_devengamientos_cobros s)
             (seq_ajustes s)).
Proof.
  unfold eliminar_cobro.
  destruct (seleccionado v2 sel); simpl; [|left; split; [discriminate | reflexivity]].
  destruct (cobro_encontrado s sel) eqn:Ec; simpl;
    [|left; split; [discriminate | reflexivity]].
  destruct (0 <? contar_filas _ (devengamientos_cobros s))%nat eqn:E1; simpl;
    [left; split; [discriminate | reflexivity]|].
  right. apply contar_filas_cero in E1. repeat split; auto.
  unfold delete_cobro. unfold cobro_encontrado in Ec. apply encontrado_exists in Ec.
  unfold cobro_exists. rewrite Ec, (filter_negb_todos _ _ E1). reflexivity.
Qed.

Lemma eliminar_plan_casos (v2 : bool) (s : Store) (sel : Z) :
  (snd (eliminar_plan v2 s sel) <> Hecho /\ fst (eliminar_plan v2 s sel) = s)
  \/ (snd (eliminar_plan v2 s sel) = Hecho
      /\ filter (fun d => opt_Z_eqb (dv_plan_id d) (Some sel)) (devengamientos s) = []
      /\ fst (eliminar_plan v2 s sel)
         = mkStore (clientes s)
             (filter (fun p => negb (pl_id p =? sel)%Z) (planes s))
             (devengamientos s) (cobros s) (devengamientos_cobros s) (ajustes s)
             (seq_devengamientos s) (seq_cobros s) (seq_devengamientos_cobros s)
             (seq_ajustes s)).
Proof.
  unfold eliminar_plan.
  destruct (seleccionado v2 sel); simpl; [|left; split; [discriminate | reflexivity]].
  destruct (plan_encontrado s sel) eqn:Ec; simpl;
    [|left; split; [discriminate | reflexivity]].
  destruct (0 <? contar_filas _ (devengamientos s))%nat eqn:E1; simpl;
    [left; split; [discriminate | reflexivity]|].
  right. apply contar_filas_cero in E1. repeat split; auto.
  unfold delete_plan. unfold plan_encontrado in Ec. apply encontrado_exists in Ec.
  unfold plan_exists. rewrite Ec, (map_sin_cambio _ _ _ E1). reflexivity.
Qed.

Lemma eliminar_ajuste_casos (v2 : bool) (s : Store) (sel : Z) :
  (snd (eliminar_ajuste v2 s sel) <> Hecho /\ fst (eliminar_ajuste v2 s sel) = s)
  \/ (snd (eliminar_ajuste v2 s sel) = Hecho /\ v2 = true
      /\ fst (eliminar_ajuste v2 s sel)
         = con_ajustes s (filter (fun a => negb (aj_id a =? sel)%Z) (ajustes s))).
Proof.
  unfold eliminar_ajuste.
  destruct (seleccionado v2 sel); simpl; [|left; split; [discriminate | reflexivity]].
  destruct (ajuste_encontrado s sel); simpl;
    [|left; split; [discriminate | reflexivity]].
  destruct v2; simpl; [right; now repeat split | left; split; [discriminate | reflexivity]].
Qed.

(** ** Allocations are permanent *)

Lemma crece_refl (s : Store) : crece s s.
Proof.
  repeat split; try (exists []; now rewrite app_nil_r).
Qed.

Lemma crece_trans (s1 s2 s3 : Store) : crece s1 s2 -> crece s2 s3 -> crece s1 s3.
Proof.
  intros (A1 & A2 & (a3 & A3) & (a4 & A4) & (a5 & A5) & (a6 & A6))
         (B1 & B2 & (b3 & B3) & (b4 & B4) & (b5 & B5) & (b6 & B6)).
  repeat split; try congruence.
  - exists (a3 ++ b3). now rewrite B3, A3, app_assoc.
  - exists (a4 ++ b4). now rewrite B4, A4, app_assoc.
  - exists (a5 ++ b5). now rewrite B5, A5, app_assoc.
  - exists (a6 ++ b6). now rewrite B6, A6, app_assoc.
Qed.

Lemma solo_imputaciones_crece (s s' : Store) (nuevas : list Imputacion) :
  solo_imputaciones s s' ->
  devengamientos_cobros s' = devengamientos_cobros s ++ nuevas ->
  crece s s'.
Proof.
  intros (E1 & E2 & E3 & E4 & E5 & _) E6.
  repeat split; auto; try (exists []; rewrite app_nil_r; assumption).
  now exists nuevas.
Qed.

Lemma insert_cobro_crece (fe : frontend) (s s1 : Store) (cliente_id id : Z)
    (fecha : date) (importe : Q) :
  insert_cobro fe s cliente_id fecha importe = Some (s1, id) -> crece s s1.
Proof.
  unfold insert_cobro. destruct (_ && _); [|discriminate].
  intro H. injection H as <- _.
  repeat split; simpl; try (exists []; now rewrite app_nil_r).
  now eexists.
Qed.

Lemma record_cobro_crece (fe : frontend) (s : Store) (cliente_id : Z) (fecha : date)
    (importe : Q) (m : modo) :
  crece s (fst (record_cobro fe s cliente_id fecha importe m)).
Proof.
  unfold record_cobro.
  destruct (negb (cobro_valido fe s cliente_id importe)); [apply crece_refl|].
  destruct (insert_cobro fe s cliente_id fecha importe) as [[s1 cobro_id]|] eqn:Hins;
    [|apply crece_refl].
  apply insert_cobro_crece in Hins.
  apply (crece_trans s s1); [exact Hins|].
  destruct (modo_de fe m) as [|pairs|].
  - replace (match fe with
             | Cli => imputar_automatico Cli s1 s1 cobro_id cliente_id importe
             | Streamlit | StreamlitV2 =>
                 imputar_automatico_db fe s1 cobro_id cliente_id importe
             end)
      with (imputar_automatico fe s1 s1 cobro_id cliente_id importe)
      by (destruct fe; reflexivity).
    unfold imputar_automatico.
    destruct (imputar_loop_filas fe s1 cobro_id (devengamientos_de s1 cliente_id)
                s1 importe) as (nuevas & F1 & F2 & _).
    destruct (r_ok _); [|destruct fe]; simpl;
      now apply (solo_imputaciones_crece _ _ nuevas).
  - unfold imputar_manual.
    destruct (devengamientos_de s1 cliente_id) as [|d0 ds]; [apply crece_refl|].
    destruct (manual_loop_filas s1 cobro_id pairs s1 importe) as (nuevas & F1 & F2 & _).
    destruct (manual_loop s1 cobro_id pairs s1 importe) as [r out].
    simpl in *. now apply (solo_imputaciones_crece _ _ nuevas).
  - apply crece_refl.
Qed.

Lemma generar_crece (fe : frontend) (s : Store) (anyo mes : Z) :
  crece s (fst (generar fe s anyo mes)).
Proof.
  unfold generar.
  destruct (make anyo mes 1) as [ps|]; [|apply crece_refl].
  destruct (periodo_end_de fe anyo mes) as [pe|]; [|apply crece_refl].
  pose proof (generar_loop_frame fe anyo mes ps pe (planes_a_procesar s) s (mkConteo 0 0 0))
    as (F1 & F2 & F3 & F4 & F5 & F6 & F7).
  destruct (generar_loop fe anyo mes ps pe (planes_a_procesar s) s (mkConteo 0 0 0))
    as [s' c].
  simpl in *. repeat split; auto; exists []; rewrite app_nil_r; assumption.
Qed.

Lemma guardar_ajuste_crece (fe : frontend) (s : Store) (cliente_id : Z)
    (fecha : date) (descripcion : option string) (monto : Q) (tipo : string)
    (ref_id : option Z) :
  crece s (fst (guardar_ajuste fe s cliente_id fecha descripcion monto tipo ref_id)).
Proof.
  unfold guardar_ajuste.
  destruct (limpiar_referencia s ref_id) as [r aviso].
  unfold insert_ajuste.
  destruct descripcion as [texto|]; [|apply crece_refl].
  destruct (_ && _); [|apply crece_refl].
  simpl. repeat split; simpl; try (exists []; now rewrite app_nil_r).
  now eexists.
Qed.

Lemma ejecutar_crece (s : Store) (op : operacion) : crece s (ejecutar s op).
Proof.
  destruct op; simpl.
  - apply record_cobro_crece.
  - apply generar_crece.
  - unfold registrar_ajuste_web, registrar_ajuste_web_en.
    destruct (cliente_id =? 0)%Z; [apply crece_refl|].
    destruct (v2 && String.eqb descripcion ""); [apply crece_refl|].
    destruct (match ref_id with Some r => negb (entero_sqlite r) | None => false end);
      [apply crece_refl|].
    apply guardar_ajuste_crece.
  - unfold registrar_ajuste.
    destruct (negb (cliente_exists s cliente_id)); [apply crece_refl|].
    destruct (String.eqb descripcion ""); [apply crece_refl|].
    destruct (tipo_map opcion) as [[tipo signo]|]; [|apply crece_refl].
    destruct (Qle_bool monto 0); [apply crece_refl|].
    apply guardar_ajuste_crece.
Qed.

Lemma conserva_tablas (s s' : Store) :
  devengamientos s' = devengamientos s -> cobros s' = cobros s ->
  devengamientos_cobros s' = devengamientos_cobros s ->
  conserva s s'.
Proof.
  intros E1 E2 E3. unfold conserva. rewrite E1, E2, E3.
  split; [exists []; now rewrite app_nil_r|]. split; intros; assumption.
Qed.

Lemma conserva_refl (s : Store) : conserva s s.
Proof. now apply conserva_tablas. Qed.

Lemma conserva_trans (s1 s2 s3 : Store) :
  conserva s1 s2 -> conserva s2 s3 -> conserva s1 s3.
Proof.
  intros ((a & A1) & A2 & A3) ((b & B1) & B2 & B3).
  split; [exists (a ++ b); now rewrite B1, A1, app_assoc|].
  split.
  - intros c i Hc Hi E. apply (B2 c i); auto.
    + now apply (A2 c i).
    + rewrite A1. apply in_or_app. now left.
  - intros d i Hd Hi E. apply (B3 d i); auto.
    + now apply (A3 d i).
    + rewrite A1. apply in_or_app. now left.
Qed.

Lemma crece_conserva (s s' : Store) : crece s s' -> conserva s s'.
Proof.
  intros (_ & _ & (a & A3) & (b & A4) & A5 & _).
  split; [exact A5|]. split.
  - intros c i Hc _ _. rewrite A4. apply in_or_app. now left.
  - intros d i Hd _ _. rewrite A3. apply in_or_app. now left.
Qed.

Lemma aplicar_conserva (t : Sistema) (a : accion) :
  conserva (libro t) (libro (aplicar t a)).
Proof.
  destruct a; simpl.
  - apply crece_conserva, ejecutar_crece.
  - unfold add_cliente. destruct (String.eqb nombre ""); simpl; first [apply conserva_refl | now apply conserva_tablas].
  - unfold toggle_cliente_estado.
    destruct (find _ _); [|apply conserva_refl].
    destruct confirma; simpl; first [apply conserva_refl | now apply conserva_tablas].
  - unfold editar_cliente.
    destruct (negb (seleccionado v2 sel)); [apply conserva_refl|].
    destruct (negb (cliente_exists (libro t) sel)); [apply conserva_refl|].
    destruct (v2 && String.eqb nombre ""); simpl; first [apply conserva_refl | now apply conserva_tablas].
  - destruct (eliminar_cliente_casos v2 (libro t) sel)
      as [(_ & -> & _) | (_ & _ & _ & _ & _ & _ & ->)]; [apply conserva_refl|].
    now apply conserva_tablas.
  - unfold add_plan.
    destruct (negb (plan_valido fe (libro t) cliente_id importe)); [apply conserva_refl|].
    unfold insert_plan. destruct (_ && _); simpl; first [apply conserva_refl | now apply conserva_tablas].
  - unfold edit_plan.
    destruct (find _ _); [|apply conserva_refl].
    destruct (Qle_bool 0 _); simpl; first [apply conserva_refl | now apply conserva_tablas].
  - unfold editar_plan.
    destruct (negb (seleccionado v2 sel)); [apply conserva_refl|].
    destruct (negb (plan_encontrado (libro t) sel)); [apply conserva_refl|].
    destruct (v2 && Qle_bool importe 0); simpl; first [apply conserva_refl | now apply conserva_tablas].
  - destruct (eliminar_plan_casos v2 (libro t) sel) as [(_ & ->) | (_ & _ & ->)];
      [apply conserva_refl | now apply conserva_tablas].
  - destruct (eliminar_devengamiento_casos v2 (libro t) sel)
      as [(_ & -> & _) | (_ & _ & _ & H3 & _ & ->)]; [apply conserva_refl|].
    split; [exists []; now rewrite app_nil_r|]. split; simpl.
    + intros; assumption.
    + intros d i Hd Hi E. apply filter_In. split; [exact Hd|].
      apply (proj1 (filter_vacio _ _) H3) in Hi. now rewrite <- E, Hi.
  - destruct (eliminar_cobro_casos v2 (libro t) sel) as [(_ & ->) | (_ & H3 & ->)];
      [apply conserva_refl|].
    split; [exists []; now rewrite app_nil_r|]. split; simpl.
    + intros c i Hc Hi E. apply filter_In. split; [exact Hc|].
      apply (proj1 (filter_vacio _ _) H3) in Hi. now rewrite <- E, Hi.
    + intros; assumption.
  - destruct (eliminar_ajuste_casos v2 (libro t) sel) as [(_ & ->) | (_ & _ & ->)];
      [apply conserva_refl | now apply conserva_tablas].
Qed.

Lemma aplicar_todas_conserva (acs : list accion) :
  forall t, conserva (libro t) (libro (aplicar_todas t acs)).
Proof.
  induction acs as [|a acs IH]; intro t; simpl; [apply conserva_refl|].
  apply (conserva_trans _ (libro (aplicar t a))); [apply aplicar_conserva | apply IH].
Qed.

(** X8.  No action of any of the three programs undoes an allocation: after
    every sequence of actions the allocation table still starts with the
    rows it had, every payment that had an allocation is still recorded and
    every accrual that had an allocation is still there, unchanged.  (The
    dashboards refuse to delete such a payment or accrual, and nothing
    deletes an allocation.) *)
Theorem imputaciones_permanentes (t : Sistema) (acs : list accion) :
  (exists nuevas,
     devengamientos_cobros (libro (aplicar_todas t acs))
     = devengamientos_cobros (libro t) ++ nuevas)
  /\ (forall c i, In c (cobros (libro t)) -> In i (devengamientos_cobros (libro t)) ->
        im_cobro_id i = cb_id c -> In c (cobros (libro (aplicar_todas t acs))))
  /\ (forall d i, In d (devengamientos (libro t)) ->
        In i (devengamientos_cobros (libro t)) ->
        im_devengamiento_id i = dv_id d ->
        In d (devengamientos (libro (aplicar_todas t acs)))).
Proof.
  exact (aplicar_todas_conserva acs t).
Qed.

Lemma sum_filter_parte {A : Type} (f : A -> Q) (p q : A -> bool) (l : list A) :
  sum_montos (map f (filter p (filter (fun x => negb (q x)) l)))
  == sum_montos (map f (filter p l))
     - sum_montos (map f (filter (fun x => q x && p x) l)).
Proof.
  induction l as [|x l IH]; simpl; [lra|].
  destruct (q x); simpl; destruct (p x); simpl; lra.
Qed.

(** X9.  Deleting an adjustment.  In app.py the section fails on every
    selected adjustment before its button exists, so no adjustment is ever
    deleted there.  In appv2.py the deletion of a selected adjustment that is
    found with its client always goes through, with no guard: the rows with
    that id leave the table, nothing else changes, and the adjustment total
    of every accrual drops by the amount of the deleted rows that referenced
    it. *)
Theorem eliminar_ajuste_efecto (s : Store) (sel : Z) :
  fst (eliminar_ajuste false s sel) = s
  /\ (snd (eliminar_ajuste true s sel) = Hecho <->
      (0 < sel)%Z /\ ajuste_encontrado s sel = true)
  /\ (snd (eliminar_ajuste true s sel) = Hecho ->
      fst (eliminar_ajuste true s sel)
      = con_ajustes s (filter (fun a => negb (aj_id a =? sel)%Z) (ajustes s))
      /\ forall id,
           ajustes_de (fst (eliminar_ajuste true s sel)) id
           == ajustes_de s id
              - sum_montos
                  (map aj_monto
                     (filter (fun a => (aj_id a =? sel)%Z
                                       && opt_Z_eqb (aj_referencia_devengamiento_id a)
                                            (Some id))
                        (ajustes s))))
  /\ (snd (eliminar_ajuste true s sel) <> Hecho -> fst (eliminar_ajuste true s sel) = s).
Proof.
  split; [|split; [|split]].
  - destruct (eliminar_ajuste_casos false s sel) as [(_ & E) | (_ & E & _)];
      [exact E | discriminate].
  - unfold eliminar_ajuste, seleccionado.
    destruct (0 <? sel)%Z eqn:E1; simpl.
    + apply Z.ltb_lt in E1.
      destruct (ajuste_encontrado s sel); simpl; split; auto; try discriminate.
      intros [_ H]. discriminate.
    + apply Z.ltb_ge in E1. split; [discriminate | intros [H _]; lia].
  - intro Hr.
    destruct (eliminar_ajuste_casos true s sel) as [(Hn & _) | (_ & _ & E)];
      [contradiction|].
    split; [exact E|]. intro id. rewrite E. unfold ajustes_de. simpl.
    apply sum_filter_parte.
  - intro Hn.
    destruct (eliminar_ajuste_casos true s sel) as [(_ & E) | (Hr & _)];
      [exact E | contradiction].
Qed.

(** ** Referential integrity *)

Lemma imputar_loop_pres (P : Store -> Prop) (fe : frontend) (snap : Store)
    (cobro_id : Z) :
  (forall cur d m cur',
     insert_imputacion fe cur d cobro_id m = Some cur' -> P cur -> P cur') ->
  forall devs cur restante,
    P cur -> P (r_store (imputar_loop fe snap cobro_id devs cur restante)).
Proof.
  intros Hins devs. induction devs as [|d rest IH]; intros cur restante Hp; simpl.
  - exact Hp.
  - destruct (Qle_bool restante eps); [exact Hp|].
    destruct (Qle_bool _ eps); [now apply IH|].
    destruct (insert_imputacion fe cur (dv_id d) cobro_id _) as [cur'|] eqn:E;
      [|exact Hp].
    apply IH. eapply Hins; eauto.
Qed.

Lemma manual_loop_pres (P : Store -> Prop) (snap : Store) (cobro_id : Z) :
  (forall cur d m cur',
     insert_imputacion Cli cur d cobro_id m = Some cur' -> P cur -> P cur') ->
  forall pairs cur restante,
    P cur -> P (r_store (fst (manual_loop snap cobro_id pairs cur restante))).
Proof.
  intros Hins pairs.
  induction pairs as [|[[did monto]|] rest IH]; intros cur restante Hp; simpl.
  - exact Hp.
  - destruct (Qle_bool monto 0).
    { specialize (IH cur restante Hp).
      destruct (manual_loop snap cobro_id rest cur restante) as [r out]. exact IH. }
    destruct (negb (devengamiento_exists snap did)).
    { specialize (IH cur restante Hp).
      destruct (manual_loop snap cobro_id rest cur restante) as [r out]. exact IH. }
    set (m := ajustar_monto monto (devengamiento_saldo snap did) restante).
    destruct (Qle_bool m 0).
    { specialize (IH cur restante Hp).
      destruct (manual_loop snap cobro_id rest cur restante) as [r out]. exact IH. }
    destruct (insert_imputacion Cli cur did cobro_id m) as [cur'|] eqn:E;
      [|exact Hp].
    assert (Hp' : P cur') by (eapply Hins; eauto).
    destruct (Qle_bool (restante - m) eps); [exact Hp'|].
    specialize (IH cur' (restante - m) Hp').
    destruct (manual_loop snap cobro_id rest cur' (restante - m)) as [r out]. exact IH.
  - specialize (IH cur restante Hp).
    destruct (manual_loop snap cobro_id rest cur restante) as [r out]. exact IH.
Qed.

Lemma generar_loop_pres (P : Store -> Prop) (fe : frontend) (anyo mes : Z)
    (ps pe : date) :
  (forall s c p q f s',
     insert_devengamiento fe s c p anyo mes q f = Some s' -> P s -> P s') ->
  forall rows s c, P s -> P (fst (generar_loop fe anyo mes ps pe rows s c)).
Proof.
  intros Hins rows. induction rows as [|p rows IH]; intros s c Hp; simpl.
  - exact Hp.
  - assert (H1 : P (fst (procesar_plan fe anyo mes ps pe s p))).
    { unfold procesar_plan.
      destruct (negb (vigente fe ps pe p)); [exact Hp|].
      destruct (existe_devengamiento s (pl_cliente_id p) (pl_id p) anyo mes); [exact Hp|].
      destruct (insert_devengamiento fe s _ _ anyo mes _ _) as [s'|] eqn:E;
        [|exact Hp].
      simpl. eapply Hins; eauto. }
    destruct (procesar_plan fe anyo mes ps pe s p) as [s1 r]. now apply IH.
Qed.

(** Every operation of the ledger is a sequence of the four INSERT
    statements: what they all keep, the operation keeps. *)
Lemma ejecutar_pres (P : Store -> Prop) :
  (forall fe s c f q s' id, insert_cobro fe s c f q = Some (s', id) -> P s -> P s') ->
  (forall fe s d c m s', insert_imputacion fe s d c m = Some s' -> P s -> P s') ->
  (forall fe s c p a m q f s',
     insert_devengamiento fe s c p a m q f = Some s' -> P s -> P s') ->
  (forall fe s c f d m tp r s' id,
     insert_ajuste fe s c f d m tp r = Some (s', id) -> P s -> P s') ->
  forall s op, P s -> P (ejecutar s op).
Proof.
  intros Hc Hi Hd Ha s op Hp.
  assert (Hg : forall fe cliente_id fecha descripcion monto tipo ref_id,
             P (fst (guardar_ajuste fe s cliente_id fecha descripcion monto tipo ref_id))).
  { intros. unfold guardar_ajuste.
    destruct (limpiar_referencia s ref_id) as [r aviso].
    destruct (insert_ajuste fe s cliente_id fecha descripcion monto tipo r)
      as [[s' id]|] eqn:E; [|exact Hp].
    simpl. eapply Ha; eauto. }
  destruct op; simpl.
  - unfold record_cobro.
    destruct (negb (cobro_valido fe s cliente_id importe)); [exact Hp|].
    destruct (insert_cobro fe s cliente_id fecha importe) as [[s1 cobro_id]|] eqn:Hins;
      [|exact Hp].
    assert (Hp1 : P s1) by (eapply Hc; eauto).
    destruct (modo_de fe m) as [|pairs|].
    + replace (match fe with
               | Cli => imputar_automatico Cli s1 s1 cobro_id cliente_id importe
               | Streamlit | StreamlitV2 =>
                   imputar_automatico_db fe s1 cobro_id cliente_id importe
               end)
        with (imputar_automatico fe s1 s1 cobro_id cliente_id importe)
        by (destruct fe; reflexivity).
      unfold imputar_automatico.
      pose proof (imputar_loop_pres P fe s1 cobro_id
                    (fun cur d m cur' => Hi fe cur d cobro_id m cur')
                    (devengamientos_de s1 cliente_id) s1 importe Hp1) as H.
      destruct (r_ok _); [|destruct fe]; exact H.
    + unfold imputar_manual.
      destruct (devengamientos_de s1 cliente_id) as [|d0 ds]; [exact Hp1|].
      pose proof (manual_loop_pres P s1 cobro_id
                    (fun cur d m cur' => Hi Cli cur d cobro_id m cur')
                    pairs s1 importe Hp1) as H.
      destruct (manual_loop s1 cobro_id pairs s1 importe) as [r out]. exact H.
    + exact Hp1.
  - unfold generar.
    destruct (make anyo mes 1) as [ps|]; [|exact Hp].
    destruct (periodo_end_de fe anyo mes) as [pe|]; [|exact Hp].
    pose proof (generar_loop_pres P fe anyo mes ps pe
                  (fun s c p q f s' => Hd fe s c p anyo mes q f s')
                  (planes_a_procesar s) s (mkConteo 0 0 0) Hp) as H.
    destruct (generar_loop fe anyo mes ps pe (planes_a_procesar s) s (mkConteo 0 0 0))
      as [s' c]. exact H.
  - unfold registrar_ajuste_web, registrar_ajuste_web_en.
    destruct (cliente_id =? 0)%Z; [exact Hp|].
    destruct (v2 && String.eqb descripcion ""); [exact Hp|].
    destruct (match ref_id with Some r => negb (entero_sqlite r) | None => false end);
      [exact Hp|].
    apply Hg.
  - unfold registrar_ajuste.
    destruct (negb (cliente_exists s cliente_id)); [exact Hp|].
    destruct (String.eqb descripcion ""); [exact Hp|].
    destruct (tipo_map opcion) as [[tipo signo]|]; [|exact Hp].
    destruct (Qle_bool monto 0); [exact Hp|].
    apply Hg.
Qed.

Lemma existsb_app_l {A : Type} (p : A -> bool) (l e : list A) :
  existsb p l = true -> existsb p (l ++ e) = true.
Proof.
  rewrite existsb_app. intros ->. reflexivity.
Qed.

Lemma existsb_filter_otro {A : Type} (idf : A -> Z) (l : list A) (id sel : Z) :
  id <> sel ->
  existsb (fun x => (idf x =? id)%Z) (filter (fun x => negb (idf x =? sel)%Z) l)
  = existsb (fun x => (idf x =? id)%Z) l.
Proof.
  intro Hne. induction l as [|x l IH]; simpl; [reflexivity|].
  destruct (idf x =? sel)%Z eqn:E1; simpl.
  - apply Z.eqb_eq in E1. destruct (idf x =? id)%Z eqn:E2; [|exact IH].
    apply Z.eqb_eq in E2. congruence.
  - now rewrite IH.
Qed.

Lemma existsb_map_ids {A : Type} (idf : A -> Z) (f : A -> A) (l : list A) (id : Z) :
  (forall x, idf (f x) = idf x) ->
  existsb (fun x => (idf x =? id)%Z) (map f l) = existsb (fun x => (idf x =? id)%Z) l.
Proof.
  intro Hf. induction l as [|x l IH]; simpl; [reflexivity|].
  now rewrite Hf, IH.
Qed.

(** Integrity when rows are appended: the new rows must reference rows that
    are there. *)
Lemma integro_crece (s s' : Store) (ed : list Devengamiento) (ec : list Cobro)
    (ei : list Imputacion) (ea : list Ajuste) :
  integro s ->
  clientes s' = clientes s -> planes s' = planes s ->
  devengamientos s' = devengamientos s ++ ed ->
  cobros s' = cobros s ++ ec ->
  devengamientos_cobros s' = devengamientos_cobros s ++ ei ->
  ajustes s' = ajustes s ++ ea ->
  (forall d, In d ed ->
     cliente_exists s (dv_cliente_id d) = true
     /\ forall p, dv_plan_id d = Some p -> plan_exists s p = true) ->
  (forall c, In c ec -> cliente_exists s (cb_cliente_id c) = true) ->
  (forall i, In i ei ->
     devengamiento_exists s (im_devengamiento_id i) = true
     /\ cobro_exists s (im_cobro_id i) = true) ->
  (forall a, In a ea ->
     cliente_exists s (aj_cliente_id a) = true
     /\ forall r, aj_referencia_devengamiento_id a = Some r ->
          devengamiento_exists s r = true) ->
  integro s'.
Proof.
  intros (I1 & I2 & I3 & I4 & I5) E1 E2 E3 E4 E5 E6 N2 N3 N4 N5.
  assert (Hc : forall id, cliente_exists s' id = cliente_exists s id)
    by (intro; unfold cliente_exists; now rewrite E1).
  assert (Hp : forall id, plan_exists s' id = plan_exists s id)
    by (intro; unfold plan_exists; now rewrite E2).
  assert (Hd : forall id, devengamiento_exists s id = true ->
                          devengamiento_exists s' id = true).
  { intros id H. unfold devengamiento_exists. rewrite E3. now apply existsb_app_l. }
  assert (Hb : forall id, cobro_exists s id = true -> cobro_exists s' id = true).
  { intros id H. unfold cobro_exists. rewrite E4. now apply existsb_app_l. }
  repeat split.
  - intros p Hin. rewrite E2 in Hin. rewrite Hc. now apply I1.
  - rewrite Hc. rewrite E3 in H. apply in_app_or in H as [H | H];
      [now apply I2 | now apply N2].
  - intros p Ep. rewrite Hp. rewrite E3 in H. apply in_app_or in H as [H | H];
      [now apply (I2 d) | now apply (N2 d)].
  - intros c Hin. rewrite Hc. rewrite E4 in Hin. apply in_app_or in Hin as [H | H];
      [now apply I3 | now apply N3].
  - apply Hd. rewrite E5 in H. apply in_app_or in H as [H | H];
      [now apply I4 | now apply N4].
  - apply Hb. rewrite E5 in H. apply in_app_or in H as [H | H];
      [now apply I4 | now apply N4].
  - rewrite Hc. rewrite E6 in H. apply in_app_or in H as [H | H];
      [now apply I5 | now apply N5].
  - intros r Er. apply Hd. rewrite E6 in H. apply in_app_or in H as [H | H];
      [now apply (I5 a) | now apply (N5 a)].
Qed.

Lemma ejecutar_integro (s : Store) (op : operacion) :
  integro s -> integro (ejecutar s op).
Proof.
  apply ejecutar_pres.
  - intros fe s0 c f q s' id H Hi. unfold insert_cobro in H.
    destruct (cliente_exists s0 c) eqn:Ec; simpl in H; [|discriminate].
    destruct (if has_checks fe then Qltb 0 q else true); [|discriminate].
    injection H as <- _.
    apply (integro_crece s0 _ [] [mkCobro (seq_cobros s0 + 1) c f q] [] []);
      simpl; auto; try (now rewrite app_nil_r); try (now intros ? []).
    intros x [<- | []]. exact Ec.
  - intros fe s0 d c m s' H Hi. unfold insert_imputacion in H.
    destruct (devengamiento_exists s0 d) eqn:Ed; simpl in H; [|discriminate].
    destruct (cobro_exists s0 c) eqn:Ec; simpl in H; [|discriminate].
    destruct (if has_checks fe then Qltb 0 m else true); [|discriminate].
    injection H as <-.
    apply (integro_crece s0 _ [] []
             [mkImputacion (seq_devengamientos_cobros s0 + 1) d c m] []);
      simpl; auto; try (now rewrite app_nil_r); try (now intros ? []).
    intros x [<- | []]. now split.
  - intros fe s0 c p a m q f s' H Hi. unfold insert_devengamiento in H.
    destruct (cliente_exists s0 c) eqn:Ec; simpl in H; [|discriminate].
    destruct (plan_exists s0 p) eqn:Ep; simpl in H; [|discriminate].
    destruct (_ && _); [|discriminate].
    injection H as <-.
    apply (integro_crece s0 _
             [mkDevengamiento (seq_devengamientos s0 + 1) c (Some p) a m q f] [] [] []);
      simpl; auto; try (now rewrite app_nil_r); try (now intros ? []).
    intros x [<- | []]. split; [exact Ec|]. simpl. intros p' E. now injection E as <-.
  - intros fe s0 c f d m tp r s' id H Hi. unfold insert_ajuste in H.
    destruct d as [texto|]; [|discriminate].
    destruct (cliente_exists s0 c) eqn:Ec; simpl in H; [|discriminate].
    destruct (match r with Some r0 => devengamiento_exists s0 r0 | None => true end)
      eqn:Er; simpl in H; [|discriminate].
    destruct (if has_checks fe then tipo_permitido tp else true); [|discriminate].
    injection H as <- _.
    apply (integro_crece s0 _ [] [] []
             [mkAjuste (seq_ajustes s0 + 1) c f texto m tp r]);
      simpl; auto; try (now rewrite app_nil_r); try (now intros ? []).
    intros x [<- | []]. split; [exact Ec|]. simpl. intros r' E. now subst r.
Qed.

(** Integrity when only the client table changes and every referenced
    client stays. *)
Lemma integro_clientes (s : Store) (l : list Cliente) :
  integro s ->
  (forall id, cliente_exists s id = true ->
     (exists p, In p (planes s) /\ pl_cliente_id p = id)
     \/ (exists d, In d (devengamientos s) /\ dv_cliente_id d = id)
     \/ (exists c, In c (cobros s) /\ cb_cliente_id c = id)
     \/ (exists a, In a (ajustes s) /\ aj_cliente_id a = id) ->
     existsb (fun c => (cl_id c =? id)%Z) l = true) ->
  integro (con_clientes s l).
Proof.
  intros (I1 & I2 & I3 & I4 & I5) H.
  repeat split; simpl.
  - intros p Hp. apply H; [now apply I1|]. left. now exists p.
  - apply H; [now apply I2|]. right; left. now exists d.
  - now apply (I2 d).
  - intros c Hc. apply H; [now apply I3|]. right; right; left. now exists c.
  - now apply (I4 i).
  - now apply (I4 i).
  - apply H; [now apply I5|]. right; right; right. now exists a.
  - now apply (I5 a).
Qed.

Lemma update_cliente_activo_integro (s : Store) (id : Z) (activo : bool) :
  integro s -> integro (update_cliente_activo s id activo).
Proof.
  intro Hi. unfold update_cliente_activo. apply integro_clientes; [exact Hi|].
  intros x Hx _. unfold cliente_exists in Hx. rewrite <- Hx.
  apply existsb_map_ids. intro c. now destruct (cl_id c =? id)%Z.
Qed.

Lemma update_plan_integro (s : Store) (id : Z) (f : Plan -> Plan) :
  (forall p, pl_id (f p) = pl_id p /\ pl_cliente_id (f p) = pl_cliente_id p) ->
  integro s -> integro (update_plan s id f).
Proof.
  intros Hf (I1 & I2 & I3 & I4 & I5). unfold update_plan.
  assert (Hp : forall x, plan_exists (con_planes s
                 (map (fun p => if (pl_id p =? id)%Z then f p else p) (planes s))) x
               = plan_exists s x).
  { intro x. unfold plan_exists. simpl. apply existsb_map_ids.
    intro p. destruct (pl_id p =? id)%Z; [apply Hf | reflexivity]. }
  repeat split; simpl.
  - intros p Hin. apply in_map_iff in Hin as (p0 & <- & Hin).
    change (cliente_exists s
              (pl_cliente_id (if (pl_id p0 =? id)%Z then f p0 else p0)) = true).
    destruct (pl_id p0 =? id)%Z; [rewrite (proj2 (Hf p0))|]; now apply I1.
  - now apply I2.
  - intros p Ep. rewrite Hp. now apply (I2 d).
  - exact I3.
  - now apply (I4 i).
  - now apply (I4 i).
  - now apply (I5 a).
  - now apply (I5 a).
Qed.

Lemma aplicar_integro (t : Sistema) (a : accion) :
  integro (libro t) -> integro (libro (aplicar t a)).
Proof.
  intro Hi. destruct a; simpl.
  - now apply ejecutar_integro.
  - unfold add_cliente. destruct (String.eqb nombre ""); simpl; [exact Hi|].
    apply integro_clientes; [exact Hi|].
    intros id Hid _. now apply existsb_app_l.
  - unfold toggle_cliente_estado.
    destruct (find _ _); [|exact Hi].
    destruct confirma; simpl; [now apply update_cliente_activo_integro | exact Hi].
  - unfold editar_cliente.
    destruct (negb (seleccionado v2 sel)); [exact Hi|].
    destruct (negb (cliente_exists (libro t) sel)); [exact Hi|].
    destruct (v2 && String.eqb nombre ""); simpl;
      [exact Hi | now apply update_cliente_activo_integro].
  - destruct (eliminar_cliente_casos v2 (libro t) sel)
      as [(_ & -> & _) | (_ & _ & _ & H3 & H4 & H5 & ->)]; [exact Hi|].
    destruct Hi as (I1 & I2 & I3 & I4 & I5).
    assert (Hc : forall id, id <> sel -> cliente_exists (libro t) id = true ->
                 existsb (fun c => (cl_id c =? id)%Z)
                   (filter (fun c => negb (cl_id c =? sel)%Z) (clientes (libro t)))
                 = true).
    { intros id Hne Hid. now rewrite existsb_filter_otro. }
    repeat split; simpl.
    + intros p Hp. apply Hc; [|now apply I1].
      apply (proj1 (filter_vacio _ _) H3) in Hp. now apply Z.eqb_neq.
    + apply Hc; [|now apply I2].
      apply (proj1 (filter_vacio _ _) H4) in H. now apply Z.eqb_neq.
    + now apply (I2 d).
    + intros c Hin. apply Hc; [|now apply I3].
      apply (proj1 (filter_vacio _ _) H5) in Hin. now apply Z.eqb_neq.
    + now apply (I4 i).
    + now apply (I4 i).
    + apply filter_In in H as [H E]. apply Hc; [|now apply I5].
      apply negb_true_iff in E. now apply Z.eqb_neq.
    + apply filter_In in H as [H _]. now apply (I5 a).
  - unfold add_plan.
    destruct (negb (plan_valido fe (libro t) cliente_id importe)); [exact Hi|].
    unfold insert_plan.
    destruct (cliente_exists (libro t) cliente_id) eqn:Ec; simpl; [|exact Hi].
    destruct (if has_checks fe then Qle_bool 0 importe else true); simpl; [|exact Hi].
    destruct Hi as (I1 & I2 & I3 & I4 & I5).
    repeat split; simpl.
    + intros p Hp. apply in_app_or in Hp as [Hp | [<- | []]];
        [now apply I1 | exact Ec].
    + now apply I2.
    + intros p Ep. apply existsb_app_l. now apply (I2 d).
    + exact I3.
    + now apply (I4 i).
    + now apply (I4 i).
    + now apply (I5 a).
    + now apply (I5 a).
  - unfold edit_plan.
    destruct (find _ _) as [plan|]; [|exact Hi].
    destruct (Qle_bool 0 _); simpl; [|exact Hi].
    apply update_plan_integro; [|exact Hi]. intro p. now split.
  - unfold editar_plan.
    destruct (negb (seleccionado v2 sel)); [exact Hi|].
    destruct (negb (plan_encontrado (libro t) sel)); [exact Hi|].
    destruct (v2 && Qle_bool importe 0); simpl; [exact Hi|].
    apply update_plan_integro; [|exact Hi]. intro p. now split.
  - destruct (eliminar_plan_casos v2 (libro t) sel) as [(_ & ->) | (_ & H3 & ->)];
      [exact Hi|].
    destruct Hi as (I1 & I2 & I3 & I4 & I5).
    repeat split; simpl.
    + intros p Hp. apply filter_In in Hp as [Hp _]. now apply I1.
    + now apply I2.
    + intros p Ep. unfold plan_exists. simpl. rewrite existsb_filter_otro.
      * now apply (I2 d).
      * intros ->. apply (proj1 (filter_vacio _ _) H3) in H.
        apply opt_Z_eqb_false in H. contradiction.
    + exact I3.
    + now apply (I4 i).
    + now apply (I4 i).
    + now apply (I5 a).
    + now apply (I5 a).
  - destruct (eliminar_devengamiento_casos v2 (libro t) sel)
      as [(_ & -> & _) | (_ & _ & _ & H3 & H4 & ->)]; [exact Hi|].
    destruct Hi as (I1 & I2 & I3 & I4 & I5).
    repeat split; simpl.
    + exact I1.
    + apply filter_In in H as [H _]. now apply I2.
    + apply filter_In in H as [H _]. now apply (I2 d).
    + exact I3.
    + unfold devengamiento_exists. simpl. rewrite existsb_filter_otro.
      * now apply (I4 i).
      * apply (proj1 (filter_vacio _ _) H3) in H. now apply Z.eqb_neq.
    + now apply (I4 i).
    + now apply (I5 a).
    + intros r Er. unfold devengamiento_exists. simpl. rewrite existsb_filter_otro.
      * now apply (I5 a).
      * intros ->. apply (proj1 (filter_vacio _ _) H4) in H.
        apply opt_Z_eqb_false in H. contradiction.
  - destruct (eliminar_cobro_casos v2 (libro t) sel) as [(_ & ->) | (_ & H3 & ->)];
      [exact Hi|].
    destruct Hi as (I1 & I2 & I3 & I4 & I5).
    repeat split; simpl.
    + exact I1.
    + now apply I2.
    + now apply (I2 d).
    + intros c Hc. apply filter_In in Hc as [Hc _]. now apply I3.
    + now apply (I4 i).
    + unfold cobro_exists. simpl. rewrite existsb_filter_otro.
      * now apply (I4 i).
      * apply (proj1 (filter_vacio _ _) H3) in H. now apply Z.eqb_neq.
    + now apply (I5 a).
    + now apply (I5 a).
  - destruct (eliminar_ajuste_casos v2 (libro t) sel) as [(_ & ->) | (_ & _ & ->)];
      [exact Hi|].
    destruct Hi as (I1 & I2 & I3 & I4 & I5).
    repeat split; simpl.
    + exact I1.
    + now apply I2.
    + now apply (I2 d).
    + exact I3.
    + now apply (I4 i).
    + now apply (I4 i).
    + apply filter_In in H as [H _]. now apply I5.
    + apply filter_In in H as [H _]. now apply (I5 a).
Qed.

Lemma aplicar_todas_integro (acs : list accion) :
  forall t, integro (libro t) -> integro (libro (aplicar_todas t acs)).
Proof.
  induction acs as [|a acs IH]; intros t Hi; simpl; [exact Hi|].
  apply IH. now apply aplicar_integro.
Qed.

(** X10.  Referential integrity is an invariant of the three programs: from
    a database in which every foreign key points to an existing row, every
    sequence of actions (inserts with their checks, the guarded deletions of
    the dashboards, edits) leads to such a database.  In particular the
    listings, which join each table with [clientes], never miss a row: every
    accrual and every payment is found with its client. *)
Theorem integridad_referencial (t : Sistema) (acs : list accion) :
  integro (libro t) ->
  integro (libro (aplicar_todas t acs))
  /\ (forall d, In d (devengamientos (libro (aplicar_todas t acs))) ->
        devengamiento_encontrado (libro (aplicar_todas t acs)) (dv_id d) = true)
  /\ (forall c, In c (cobros (libro (aplicar_todas t acs))) ->
        cobro_encontrado (libro (aplicar_todas t acs)) (cb_id c) = true).
Proof.
  intro Hi. apply (aplicar_todas_integro acs) in Hi.
  split; [exact Hi|]. destruct Hi as (_ & I2 & I3 & _).
  split.
  - intros d Hd. unfold devengamiento_encontrado. apply existsb_exists.
    exists d. split; [exact Hd|]. rewrite Z.eqb_refl. simpl. now apply I2.
  - intros c Hc. unfold cobro_encontrado. apply existsb_exists.
    exists c. split; [exact Hc|]. rewrite Z.eqb_refl. simpl. now apply I3.
Qed.

(** ** Deactivation and the generator *)

Lemma skipn_length_app {A : Type} (l e : list A) :
  skipn (List.length l) (l ++ e) = e.
Proof.
  induction l as [|x l IH]; simpl; [reflexivity | exact IH].
Qed.

(** Every accrual that a generation adds comes from an active plan of an
    active client. *)
Lemma generar_nuevos_activos (fe : frontend) (s : Store) (anyo mes : Z)
    (d : Devengamiento) :
  In d (devengamientos_nuevos s (fst (generar fe s anyo mes))) ->
  exists p c,
    In p (planes s) /\ pl_activo p = true
    /\ In c (clientes s) /\ cl_id c = pl_cliente_id p /\ cl_activo c = true
    /\ generado_de anyo mes p d.
Proof.
  unfold generar, devengamientos_nuevos.
  assert (Hnil : In d (skipn (List.length (devengamientos s)) (devengamientos s)) ->
                 exists p c,
                   In p (planes s) /\ pl_activo p = true
                   /\ In c (clientes s) /\ cl_id c = pl_cliente_id p
                   /\ cl_activo c = true /\ generado_de anyo mes p d).
  { rewrite skipn_all. intros []. }
  destruct (make anyo mes 1) as [ps|]; [|exact Hnil].
  destruct (periodo_end_de fe anyo mes) as [pe|]; [|exact Hnil].
  destruct (generar_loop_filas fe anyo mes ps pe (planes_a_procesar s) s (mkConteo 0 0 0))
    as (extra & F1 & _ & F3).
  destruct (generar_loop fe anyo mes ps pe (planes_a_procesar s) s (mkConteo 0 0 0))
    as [s' c].
  simpl in *. rewrite F1, skipn_length_app. intro Hd.
  rewrite Forall_forall in F3. destruct (F3 d Hd) as (_ & p & Hp & Hg).
  apply planes_a_procesar_in in Hp as (Hp & Ha & c0 & Hc & Ec & Hac).
  exists p, c0. repeat split; auto; apply Hg.
Qed.

Lemma update_cliente_activo_filas (s : Store) (id : Z) (activo : bool) (c : Cliente) :
  In c (clientes (update_cliente_activo s id activo)) -> cl_id c = id ->
  cl_activo c = activo.
Proof.
  unfold update_cliente_activo. simpl. intros Hin E.
  apply in_map_iff in Hin as (c0 & <- & _).
  destruct (cl_id c0 =? id)%Z eqn:E0; [reflexivity|].
  apply Z.eqb_neq in E0. contradiction.
Qed.

Lemma update_plan_filas (s : Store) (id : Z) (f : Plan -> Plan) (p : Plan) :
  (forall q, pl_id (f q) = pl_id q) ->
  In p (planes (update_plan s id f)) -> pl_id p = id ->
  exists q, In q (planes s) /\ p = f q.
Proof.
  unfold update_plan. simpl. intros Hf Hin E.
  apply in_map_iff in Hin as (q & <- & Hq).
  destruct (pl_id q =? id)%Z eqn:E0; [now exists q|].
  apply Z.eqb_neq in E0. contradiction.
Qed.

(** X11.  Deactivation stops the generator, in every front-end and for every
    period.  After the text menu has switched an active client off, or a
    dashboard has saved a client as inactive, no generation creates an
    accrual for that client.  After a dashboard has saved a plan as inactive,
    or the text menu has saved it with an [activo] value other than 1, no
    generation creates an accrual of that plan. *)
Theorem desactivar_detiene_generacion (fe : frontend) (s : Store) (id anyo mes : Z) :
  (forall c0,
     find (fun c => (cl_id c =? id)%Z) (clientes s) = Some c0 -> cl_activo c0 = true ->
     forall d,
       In d (devengamientos_nuevos (fst (toggle_cliente_estado s id true))
               (fst (generar fe (fst (toggle_cliente_estado s id true)) anyo mes))) ->
       dv_cliente_id d <> id)
  /\ (forall v2 nombre,
        snd (editar_cliente v2 s id nombre false) = Hecho ->
        forall d,
          In d (devengamientos_nuevos (fst (editar_cliente v2 s id nombre false))
                  (fst (generar fe (fst (editar_cliente v2 s id nombre false)) anyo mes))) ->
          dv_cliente_id d <> id)
  /\ (forall v2 importe,
        snd (editar_plan v2 s id importe false) = Hecho ->
        forall d,
          In d (devengamientos_nuevos (fst (editar_plan v2 s id importe false))
                  (fst (generar fe (fst (editar_plan v2 s id importe false)) anyo mes))) ->
          dv_plan_id d <> Some id)
  /\ (forall importe fecha_inicio fecha_fin activo,
        activo <> 1%Z ->
        snd (edit_plan s id importe fecha_inicio fecha_fin (Some activo)) = Hecho ->
        forall d,
          In d (devengamientos_nuevos
                  (fst (edit_plan s id importe fecha_inicio fecha_fin (Some activo)))
                  (fst (generar fe
                          (fst (edit_plan s id importe fecha_inicio fecha_fin (Some activo)))
                          anyo mes))) ->
          dv_plan_id d <> Some id).
Proof.
  assert (Hcli : forall s1,
            (forall c, In c (clientes s1) -> cl_id c = id -> cl_activo c = false) ->
            forall d, In d (devengamientos_nuevos s1 (fst (generar fe s1 anyo mes))) ->
                      dv_cliente_id d <> id).
  { intros s1 H1 d Hd E.
    apply generar_nuevos_activos in Hd as (p & c & _ & _ & Hc & Ec & Hac & Hg).
    destruct Hg as (G1 & _). rewrite (H1 c Hc) in Hac; [discriminate | congruence]. }
  assert (Hpl : forall s1,
            (forall p, In p (planes s1) -> pl_id p = id -> pl_activo p = false) ->
            forall d, In d (devengamientos_nuevos s1 (fst (generar fe s1 anyo mes))) ->
                      dv_plan_id d <> Some id).
  { intros s1 H1 d Hd E.
    apply generar_nuevos_activos in Hd as (p & c & Hp & Ha & _ & _ & _ & Hg).
    destruct Hg as (_ & G2 & _). rewrite (H1 p Hp) in Ha; [discriminate | congruence]. }
  split; [|split; [|split]].
  - intros c0 Hf Ha. unfold toggle_cliente_estado. rewrite Hf, Ha. simpl.
    apply Hcli. intros c. apply update_cliente_activo_filas.
  - intros v2 nombre. unfold editar_cliente.
    destruct (negb (seleccionado v2 id)); [discriminate|].
    destruct (negb (cliente_exists s id)); [discriminate|].
    destruct (v2 && String.eqb nombre ""); [discriminate|]. simpl. intros _.
    apply Hcli. intros c. apply update_cliente_activo_filas.
  - intros v2 importe. unfold editar_plan.
    destruct (negb (seleccionado v2 id)); [discriminate|].
    destruct (negb (plan_encontrado s id)); [discriminate|].
    destruct (v2 && Qle_bool importe 0); [discriminate|]. simpl. intros _.
    apply Hpl. intros p Hp E.
    apply update_plan_filas in Hp as (q & _ & ->); auto.
  - intros importe fecha_inicio fecha_fin activo Hne. unfold edit_plan.
    destruct (find _ (planes s)) as [plan|]; [|discriminate].
    destruct (Qle_bool 0 _); [|discriminate]. simpl. intros _.
    apply Hpl. intros p Hp E.
    apply update_plan_filas in Hp as (q & _ & ->); auto.
    simpl. now apply Z.eqb_neq.
Qed.

(** ** Reports *)

Lemma fecha_leb_spec (a b : date) :
  fecha_leb a b = true <->
  (year a < year b
   \/ (year a = year b
       /\ (month a < month b \/ (month a = month b /\ day a <= day b))))%Z.
Proof.
  unfold fecha_leb, ltb. rewrite negb_true_iff.
  rewrite !orb_false_iff, !andb_false_iff, !orb_false_iff, !andb_false_iff.
  rewrite !Z.ltb_ge, !Z.eqb_neq. lia.
Qed.

Lemma fecha_leb_total (a b : date) : fecha_leb a b = false -> fecha_leb b a = true.
Proof.
  intro H. apply fecha_leb_spec.
  assert (H' : ~ fecha_leb a b = true) by (rewrite H; discriminate).
  rewrite fecha_leb_spec in H'. lia.
Qed.

Lemma fecha_leb_trans (a b c : date) :
  fecha_leb a b = true -> fecha_leb b c = true -> fecha_leb a c = true.
Proof.
  rewrite !fecha_leb_spec. lia.
Qed.

Lemma insertar_por_fecha_perm {A : Type} (fecha : A -> date) (x : A) (l : list A) :
  Permutation (insertar_por_fecha fecha x l) (x :: l).
Proof.
  induction l as [|y l IH]; simpl; [apply Permutation_refl|].
  destruct (fecha_leb (fecha x) (fecha y)); [apply Permutation_refl|].
  eapply Permutation_trans; [apply perm_skip, IH | apply perm_swap].
Qed.

Lemma ordenar_por_fecha_perm {A : Type} (fecha : A -> date) (l : list A) :
  Permutation (ordenar_por_fecha fecha l) l.
Proof.
  induction l as [|x l IH]; simpl; [apply Permutation_refl|].
  eapply Permutation_trans; [apply insertar_por_fecha_perm | now apply perm_skip].
Qed.

Lemma insertar_por_fecha_sorted {A : Type} (fecha : A -> date) (x : A) (l : list A) :
  StronglySorted (fun a b => fecha_leb (fecha a) (fecha b) = true) l ->
  StronglySorted (fun a b => fecha_leb (fecha a) (fecha b) = true)
    (insertar_por_fecha fecha x l).
Proof.
  induction l as [|y l IH]; simpl; intro Hs.
  - constructor; constructor.
  - inversion Hs as [|? ? Hs' Hall]; subst.
    destruct (fecha_leb (fecha x) (fecha y)) eqn:E.
    + constructor; [exact Hs|]. constructor; [exact E|].
      rewrite Forall_forall in *. intros z Hz.
      eapply fecha_leb_trans; [exact E | now apply Hall].
    + constructor; [now apply IH|].
      rewrite Forall_forall in *. intros z Hz.
      apply (Permutation_in _ (insertar_por_fecha_perm fecha x l)) in Hz.
      destruct Hz as [<- | Hz]; [now apply fecha_leb_total | now apply Hall].
Qed.

Lemma ordenar_por_fecha_sorted {A : Type} (fecha : A -> date) (l : list A) :
  StronglySorted (fun a b => fecha_leb (fecha a) (fecha b) = true)
    (ordenar_por_fecha fecha l).
Proof.
  induction l as [|x l IH]; simpl; [constructor|].
  now apply insertar_por_fecha_sorted.
Qed.

Lemma sum_ordenado {A : Type} (fecha : A -> date) (f : A -> Q) (l : list A) :
  sum_montos (map f (ordenar_por_fecha fecha l)) == sum_montos (map f l).
Proof.
  apply sum_montos_perm, Permutation_map, ordenar_por_fecha_perm.
Qed.

Lemma sum_montos_map_plus {A : Type} (f g : A -> Q) (l : list A) :
  sum_montos (map (fun x => f x + g x) l)
  == sum_montos (map f l) + sum_montos (map g l).
Proof.
  induction l as [|x l IH]; simpl; [|rewrite IH]; lra.
Qed.

Lemma sum_montos_map_ext {A : Type} (f g : A -> Q) (l : list A) :
  (forall x, f x == g x) -> sum_montos (map f l) == sum_montos (map g l).
Proof.
  intro H. induction l as [|x l IH]; simpl; [|rewrite IH, H]; lra.
Qed.

Lemma sum_montos_cero {A : Type} (l : list A) :
  sum_montos (map (fun _ => 0) l) == 0.
Proof.
  induction l as [|x l IH]; simpl; [|rewrite IH]; lra.
Qed.

Lemma debito_ajuste (a : Ajuste) :
  ev_debito (evento_ajuste a) == Qmax 0 (aj_monto a)
  /\ ev_credito (evento_ajuste a) == Qmax 0 (- aj_monto a)
  /\ ev_debito (evento_ajuste_web a) == Qmax 0 (aj_monto a)
  /\ ev_credito (evento_ajuste_web a) == Qmax 0 (- aj_monto a).
Proof.
  unfold evento_ajuste, evento_ajuste_web. simpl.
  destruct (Qltb 0 (aj_monto a)) eqn:E1;
    [apply Qltb_true in E1 | apply Qltb_false in E1];
    (destruct (Qltb (aj_monto a) 0) eqn:E2;
       [apply Qltb_true in E2 | apply Qltb_false in E2]);
    try (pose proof (Qabs.Qabs_neg (aj_monto a) (Qlt_le_weak _ _ E2)) as Habs;
         rewrite Habs);
    repeat split; qminmax.
Qed.

(** The three sums of an event list built for a client. *)
Lemma movimientos_sumas (ev_aj : Ajuste -> evento) (s : Store) (cliente_id : Z) :
  (forall a, ev_debito (ev_aj a) == Qmax 0 (aj_monto a)
             /\ ev_credito (ev_aj a) == Qmax 0 (- aj_monto a)) ->
  sum_montos (map ev_debito (movimientos ev_aj s cliente_id))
  == total_devengado s cliente_id
     + sum_montos (map (fun a => Qmax 0 (aj_monto a))
                     (filter (fun a => (aj_cliente_id a =? cliente_id)%Z) (ajustes s)))
  /\ sum_montos (map ev_credito (movimientos ev_aj s cliente_id))
     == total_cobros s cliente_id
        + sum_montos (map (fun a => Qmax 0 (- aj_monto a))
                        (filter (fun a => (aj_cliente_id a =? cliente_id)%Z) (ajustes s)))
  /\ sum_montos (map (fun e => ev_debito e - ev_credito e)
                   (movimientos ev_aj s cliente_id))
     == saldo_final s cliente_id.
Proof.
  intro Haj.
  assert (Hneto : forall l : list evento,
            sum_montos (map (fun e => ev_debito e - ev_credito e) l)
            == sum_montos (map ev_debito l) - sum_montos (map ev_credito l)).
  { induction l as [|x l IH]; simpl; [|rewrite IH]; lra. }
  assert (Hd : sum_montos (map ev_debito (movimientos ev_aj s cliente_id))
               == total_devengado s cliente_id
                  + sum_montos (map (fun a => Qmax 0 (aj_monto a))
                      (filter (fun a => (aj_cliente_id a =? cliente_id)%Z) (ajustes s)))).
  { unfold movimientos, total_devengado.
    rewrite !map_app, !sum_montos_app, !map_map. simpl.
    rewrite !sum_ordenado, sum_montos_cero.
    rewrite (sum_montos_map_ext (fun x => ev_debito (ev_aj x))
               (fun a => Qmax 0 (aj_monto a))) by (intro; apply Haj).
    change (fun x : Devengamiento => dv_importe x) with dv_importe.
    lra. }
  assert (Hc : sum_montos (map ev_credito (movimientos ev_aj s cliente_id))
               == total_cobros s cliente_id
                  + sum_montos (map (fun a => Qmax 0 (- aj_monto a))
                      (filter (fun a => (aj_cliente_id a =? cliente_id)%Z) (ajustes s)))).
  { unfold movimientos, total_cobros.
    rewrite !map_app, !sum_montos_app, !map_map. simpl.
    rewrite !sum_ordenado, sum_montos_cero.
    rewrite (sum_montos_map_ext (fun x => ev_credito (ev_aj x))
               (fun a => Qmax 0 (- aj_monto a))) by (intro; apply Haj).
    change (fun x : Cobro => cb_importe x) with cb_importe.
    lra. }
  split; [exact Hd|]. split; [exact Hc|].
  rewrite Hneto, Hd, Hc. unfold saldo_final, total_ajustes.
  assert (Hm : forall l : list Ajuste,
            sum_montos (map (fun a => Qmax 0 (aj_monto a)) l)
            - sum_montos (map (fun a => Qmax 0 (- aj_monto a)) l)
            == sum_montos (map aj_monto l)).
  { induction l as [|x l IH]; simpl; [lra|].
    assert (Hx : Qmax 0 (aj_monto x) - Qmax 0 (- aj_monto x) == aj_monto x) by qminmax.
    lra. }
  specialize (Hm (filter (fun a => (aj_cliente_id a =? cliente_id)%Z) (ajustes s))).
  lra.
Qed.

Lemma recorrer_ultimo (events : list evento) :
  forall saldo td tc d,
    events <> [] ->
    last (map snd (ec_filas (recorrer events saldo td tc))) d
    = ec_saldo (recorrer events saldo td tc).
Proof.
  induction events as [|e rest IH]; intros saldo td tc d Hne; [contradiction|].
  destruct rest as [|e2 rest2]; [reflexivity|].
  transitivity
    (last (map snd (ec_filas (recorrer (e2 :: rest2)
                                (saldo + (ev_debito e - ev_credito e))
                                (td + ev_debito e) (tc + ev_credito e)))) d);
    [reflexivity|].
  rewrite IH by discriminate. reflexivity.
Qed.

Lemma recorrer_totales (events : list evento) :
  forall saldo td tc,
    map fst (ec_filas (recorrer events saldo td tc)) = events
    /\ ec_saldo (recorrer events saldo td tc)
       == saldo + sum_montos (map (fun e => ev_debito e - ev_credito e) events)
    /\ ec_total_debito (recorrer events saldo td tc)
       == td + sum_montos (map ev_debito events)
    /\ ec_total_credito (recorrer events saldo td tc)
       == tc + sum_montos (map ev_credito events)
    /\ last (map snd (ec_filas (recorrer events saldo td tc))) saldo
       == ec_saldo (recorrer events saldo td tc).
Proof.
  intros saldo td tc.
  assert (Hl : last (map snd (ec_filas (recorrer events saldo td tc))) saldo
               == ec_saldo (recorrer events saldo td tc)).
  { destruct events as [|e rest]; [simpl; lra|].
    rewrite recorrer_ultimo by discriminate. lra. }
  revert saldo td tc Hl.
  induction events as [|e rest IH]; intros saldo td tc Hl; simpl.
  - repeat split; lra.
  - destruct (IH (saldo + (ev_debito e - ev_credito e)) (td + ev_debito e)
                (tc + ev_credito e)) as (I1 & I2 & I3 & I4 & _).
    { destruct rest as [|e2 rest2]; [simpl; lra|].
      rewrite recorrer_ultimo by discriminate. lra. }
    split; [now rewrite I1|].
    split; [rewrite I2; lra|]. split; [rewrite I3; lra|]. split; [rewrite I4; lra|].
    exact Hl.
Qed.

(** X12.  The account statement of the text menu.  It is produced exactly
    for an existing client.  Its lines are the accruals, adjustments and
    payments of the client, in date order; the closing balance is the last
    running balance, equals total debits minus total credits, and equals the
    client's accruals plus adjustments minus payments, whether or not the
    payments were allocated.  The total printed as "Total devengado" is the
    accruals plus the positive adjustments; the total printed as "Total
    cobrado" is the payments plus the negative adjustments, sign removed. *)
Theorem account_statement_saldo (s : Store) (cliente_id : Z) :
  (account_statement s cliente_id = None <-> cliente_exists s cliente_id = false)
  /\ forall ec, account_statement s cliente_id = Some ec ->
       Permutation (map fst (ec_filas ec)) (movimientos evento_ajuste s cliente_id)
       /\ StronglySorted (fun a b => fecha_leb (ev_fecha a) (ev_fecha b) = true)
            (map fst (ec_filas ec))
       /\ last (map snd (ec_filas ec)) 0 == ec_saldo ec
       /\ ec_saldo ec == ec_total_debito ec - ec_total_credito ec
       /\ ec_saldo ec == saldo_final s cliente_id
       /\ ec_total_debito ec
          == total_devengado s cliente_id
             + sum_montos
                 (map (fun a => Qmax 0 (aj_monto a))
                    (filter (fun a => (aj_cliente_id a =? cliente_id)%Z) (ajustes s)))
       /\ ec_total_credito ec
          == total_cobros s cliente_id
             + sum_montos
                 (map (fun a => Qmax 0 (- aj_monto a))
                    (filter (fun a => (aj_cliente_id a =? cliente_id)%Z) (ajustes s))).
Proof.
  unfold account_statement.
  destruct (cliente_exists s cliente_id); simpl.
  - split; [split; discriminate|].
    intros ec E. injection E as <-.
    set (evs := ordenar_por_fecha ev_fecha (movimientos evento_ajuste s cliente_id)).
    destruct (recorrer_totales evs 0 0 0) as (R1 & R2 & R3 & R4 & R5).
    destruct (movimientos_sumas evento_ajuste s cliente_id) as (M1 & M2 & M3).
    { intro a. pose proof (debito_ajuste a) as (D1 & D2 & _). now split. }
    assert (Hp : Permutation evs (movimientos evento_ajuste s cliente_id))
      by apply ordenar_por_fecha_perm.
    assert (S1 : sum_montos (map ev_debito evs)
                 == sum_montos (map ev_debito (movimientos evento_ajuste s cliente_id)))
      by (apply sum_montos_perm, Permutation_map, Hp).
    assert (S2 : sum_montos (map ev_credito evs)
                 == sum_montos (map ev_credito (movimientos evento_ajuste s cliente_id)))
      by (apply sum_montos_perm, Permutation_map, Hp).
    assert (S3 : sum_montos (map (fun e => ev_debito e - ev_credito e) evs)
                 == sum_montos (map (fun e => ev_debito e - ev_credito e)
                                  (movimientos evento_ajuste s cliente_id)))
      by (apply sum_montos_perm, Permutation_map, Hp).
    assert (S4 : sum_montos (map (fun e => ev_debito e - ev_credito e) evs)
                 == sum_montos (map ev_debito evs) - sum_montos (map ev_credito evs)).
    { clear. induction evs as [|x l IH]; simpl; [|rewrite IH]; lra. }
    split; [rewrite R1; exact Hp|].
    split; [rewrite R1; apply ordenar_por_fecha_sorted|].
    split; [exact R5|].
    split; [rewrite R2, R3, R4, S4; lra|].
    split; [rewrite R2, S3, M3; lra|].
    split; [rewrite R3, S1, M1; lra | rewrite R4, S2, M2; lra].
  - split; [split; reflexivity | discriminate].
Qed.

Lemma cumsum_ultimo (l : list Q) :
  forall acc d, l <> [] -> last (cumsum acc l) d == acc + sum_montos l.
Proof.
  induction l as [|x l IH]; intros acc d Hne; [contradiction|].
  destruct l as [|y l2]; [simpl; lra|].
  transitivity (last (cumsum (acc + x) (y :: l2)) d); [reflexivity|].
  rewrite IH by discriminate. simpl. lra.
Qed.

Lemma cumsum_last (l : list Q) :
  forall acc, last (cumsum acc l) acc == acc + sum_montos l.
Proof.
  intro acc. destruct l as [|x l]; [simpl; lra|].
  now apply cumsum_ultimo.
Qed.

Lemma cumsum_length (l : list Q) : forall acc, List.length (cumsum acc l) = List.length l.
Proof.
  induction l as [|x l IH]; intro acc; simpl; [reflexivity | now rewrite IH].
Qed.

(** X13.  The account statement of the dashboards.  Whatever the order in
    which the sort leaves the events of the client, the last entry of the
    running "saldo" column equals the "Saldo Final" figure that the page
    computes separately from three SUM queries: accruals plus adjustments
    minus payments.  The text menu closes its statement on the same
    amount. *)
Theorem estado_cuenta_web_saldo (s : Store) (sel : Z) (events : list evento) :
  Permutation events (movimientos evento_ajuste_web s sel) ->
  List.length (columna_saldo events) = List.length events
  /\ last (columna_saldo events) 0 == saldo_final s sel
  /\ forall ec, account_statement s sel = Some ec -> ec_saldo ec == saldo_final s sel.
Proof.
  intro Hp. unfold columna_saldo.
  split; [now rewrite cumsum_length, length_map|].
  split.
  - rewrite cumsum_last.
    destruct (movimientos_sumas evento_ajuste_web s sel) as (_ & _ & M3).
    { intro a. pose proof (debito_ajuste a) as (_ & _ & D3 & D4). now split. }
    rewrite (sum_montos_perm _ _ (Permutation_map _ Hp)), M3. lra.
  - intros ec E. unfold account_statement in E.
    destruct (negb (cliente_exists s sel)); [discriminate|]. injection E as <-.
    destruct (recorrer_totales
                (ordenar_por_fecha ev_fecha (movimientos evento_ajuste s sel)) 0 0 0)
      as (_ & R2 & _).
    destruct (movimientos_sumas evento_ajuste s sel) as (_ & _ & M3).
    { intro a. pose proof (debito_ajuste a) as (D1 & D2 & _). now split. }
    rewrite R2, sum_ordenado, M3. lra.
Qed.

Lemma filter_unico_id {A : Type} (idf : A -> Z) (l : list A) (x : Z) :
  NoDup (map idf l) ->
  existsb (fun c => (idf c =? x)%Z) l = true ->
  exists c0, filter (fun c => (idf c =? x)%Z) l = [c0].
Proof.
  induction l as [|c l IH]; simpl; intros Hnd He; [discriminate|].
  inversion Hnd as [|? ? Hnot Hnd']; subst.
  destruct (idf c =? x)%Z eqn:E; simpl in *.
  - exists c. f_equal. apply filter_ninguno. intros y Hy.
    apply Z.eqb_neq. intro E'. apply Z.eqb_eq in E. apply Hnot.
    rewrite E, <- E'. now apply in_map.
  - now apply IH.
Qed.

(** With one client row per id and no dangling client reference, the join
    with [clientes] returns every row once. *)
Lemma join_clientes_todos {A : Type} (cliente_de : A -> Z) (s : Store) (rows : list A) :
  NoDup (map cl_id (clientes s)) ->
  (forall r, In r rows -> cliente_exists s (cliente_de r) = true) ->
  join_clientes cliente_de s rows = rows.
Proof.
  intros Hnd. unfold join_clientes.
  induction rows as [|r rows IH]; simpl; intro Hx; [reflexivity|].
  destruct (filter_unico_id cl_id (clientes s) (cliente_de r) Hnd) as [c0 E].
  { apply Hx. now left. }
  rewrite E. simpl. f_equal. apply IH. intros y Hy. apply Hx. now right.
Qed.

Lemma entre_del_mes (anyo mes : Z) (c : Cobro) :
  (1 <= anyo <= 9999)%Z -> (1 <= mes <= 12)%Z ->
  fecha_valida (cb_fecha c) ->
  fecha_leb (mkdate anyo mes 1) (cb_fecha c)
  && fecha_leb (cb_fecha c) (mkdate anyo mes (days_in_month anyo mes))
  = del_mes anyo mes c.
Proof.
  intros Ha Hm Hv. unfold fecha_valida in Hv. apply make_some in Hv as [(_ & _ & Hd) _].
  unfold del_mes. apply eq_true_iff_eq.
  rewrite !andb_true_iff, !fecha_leb_spec, !Z.eqb_eq. simpl.
  split.
  - lia.
  - intros [E1 E2]. rewrite E1, E2 in Hd. lia.
Qed.

(** X14.  The monthly collections report of the dashboards, for a month of
    the calendar, over a database with one client row per id, no payment of
    a missing client and calendar dates: the report lists, in date order,
    exactly the payments dated in that month of that year, each once, and
    its total is their sum. *)
Theorem cobranzas_mes_del_mes (v2 : bool) (s : Store) (anyo mes : Z) :
  (1 <= anyo <= 9999)%Z -> (1 <= mes <= 12)%Z ->
  NoDup (map cl_id (clientes s)) ->
  (forall c, In c (cobros s) ->
     cliente_exists s (cb_cliente_id c) = true /\ fecha_valida (cb_fecha c)) ->
  exists rows total,
    cobranzas_mes v2 s anyo mes = Some (rows, total)
    /\ Permutation rows (filter (del_mes anyo mes) (cobros s))
    /\ StronglySorted (fun a b => fecha_leb (cb_fecha a) (cb_fecha b) = true) rows
    /\ total == sum_montos (map cb_importe (filter (del_mes anyo mes) (cobros s))).
Proof.
  intros Ha Hm Hnd Hc. unfold cobranzas_mes.
  assert (Hps : make anyo mes 1 = Some (mkdate anyo mes 1)).
  { apply make_some. split; [|reflexivity].
    pose proof (days_in_month_bounds anyo mes). lia. }
  rewrite Hps.
  pose proof (ultimo_dia_mes_valor anyo mes _ Hps) as Hu.
  replace (if v2 then ultimo_dia_mes_v2 anyo mes else ultimo_dia_mes anyo mes)
    with (Some (mkdate anyo mes (days_in_month anyo mes)))
    by (destruct v2; [unfold ultimo_dia_mes_v2|]; now rewrite Hu).
  rewrite join_clientes_todos; [|exact Hnd | intros r Hr; now apply Hc].
  rewrite (filter_ext_in _ (del_mes anyo mes));
    [|intros c Hin; apply entre_del_mes; auto; now apply Hc].
  eexists. eexists. split; [reflexivity|].
  split; [apply ordenar_por_fecha_perm|].
  split; [apply ordenar_por_fecha_sorted|].
  apply sum_ordenado.
Qed.

(** ** The last day of a month *)

Lemma make_none_iff (y m d : Z) :
  make y m d = None <->
  ~ (1 <= y <= 9999 /\ 1 <= m <= 12 /\ 1 <= d <= days_in_month y m)%Z.
Proof.
  destruct (make y m d) as [x|] eqn:E.
  - apply make_some in E as [E _]. split; [discriminate | intro H; contradiction].
  - split; [|reflexivity]. intros _ H.
    assert (E' : make y m d = Some (mkdate y m d)) by (apply make_some; now split).
    congruence.
Qed.

Lemma ultimo_dia_mes_calendario (anyo mes : Z) :
  (1 <= anyo <= 9999)%Z -> (1 <= mes <= 12)%Z ->
  ultimo_dia_mes anyo mes = Some (mkdate anyo mes (days_in_month anyo mes)).
Proof.
  intros Ha Hm. apply (ultimo_dia_mes_valor anyo mes (mkdate anyo mes 1)).
  apply make_some. split; [|reflexivity].
  pose proof (days_in_month_bounds anyo mes). lia.
Qed.

(** X15.  [ultimo_dia_mes(anyo, mes)] on every pair of integers.  For a month
    1..12 of a year 1..9999 it is the date of that month whose day number is
    the length of the month (29 for February of a leap year).  For month 0
    of a year 2..9999 it does not fail: it is December 31 of the year
    before.  On every other input the construction of a date raises. *)
Theorem ultimo_dia_mes_casos (anyo mes : Z) :
  ((1 <= anyo <= 9999)%Z -> (1 <= mes <= 12)%Z ->
   ultimo_dia_mes anyo mes = Some (mkdate anyo mes (days_in_month anyo mes))
   /\ es_ultimo_dia anyo mes (mkdate anyo mes (days_in_month anyo mes)))
  /\ ((2 <= anyo <= 9999)%Z -> ultimo_dia_mes anyo 0 = Some (mkdate (anyo - 1) 12 31))
  /\ (~ (1 <= anyo <= 9999 /\ 0 <= mes <= 12)%Z -> ultimo_dia_mes anyo mes = None)
  /\ ultimo_dia_mes 1 0 = None.
Proof.
  split; [|split; [|split]].
  - intros Ha Hm.
    split; [now apply ultimo_dia_mes_calendario|].
    split; simpl.
    + apply make_some. split; [|reflexivity].
      pose proof (days_in_month_bounds anyo mes). lia.
    + apply make_none. lia.
  - intro Ha. unfold ultimo_dia_mes. simpl.
    assert (E : make anyo 1 1 = Some (mkdate anyo 1 1)).
    { apply make_some. split; [|reflexivity].
      pose proof (days_in_month_bounds anyo 1). lia. }
    rewrite E. unfold pred_day. simpl.
    destruct (1 <? anyo)%Z eqn:E1; [reflexivity|]. apply Z.ltb_ge in E1. lia.
  - intro Hn. unfold ultimo_dia_mes.
    destruct (mes =? 12)%Z eqn:E12.
    + apply Z.eqb_eq in E12. subst mes. apply make_none_iff. intros (H1 & _). lia.
    + apply Z.eqb_neq in E12.
      replace (make anyo (mes + 1) 1) with (@None date); [reflexivity|].
      symmetry. apply make_none_iff. intros (H1 & H2 & _). lia.
  - reflexivity.
Qed.

(** X16.  The fallback of [ultimo_dia_mes] in appv2.py (day 28 of the month
    when the computation raises) never produces a date: whenever the
    computation raises, building day 28 of that month raises as well.  On
    every input the function of appv2.py returns what the function of app.py
    returns, or raises where it raises. *)
Theorem ultimo_dia_mes_v2_igual (anyo mes : Z) :
  ultimo_dia_mes_v2 anyo mes = ultimo_dia_mes anyo mes
  /\ (ultimo_dia_mes anyo mes = None -> make anyo mes 28 = None).
Proof.
  assert (H : ultimo_dia_mes anyo mes = None -> make anyo mes 28 = None).
  { intro E. apply make_none_iff. intros (Ha & Hm & _).
    rewrite (ultimo_dia_mes_calendario anyo mes Ha Hm) in E. discriminate. }
  split; [|exact H].
  unfold ultimo_dia_mes_v2.
  destruct (ultimo_dia_mes anyo mes) as [d|] eqn:E; [reflexivity | now apply H].
Qed.

(** ** Summary panels *)

Lemma suma_indicador_fuera (k : Z) (v : Q) (ids : list Z) :
  ~ In k ids ->
  sum_montos (map (fun id => if (k =? id)%Z then v else 0) ids) == 0.
Proof.
  induction ids as [|id ids IH]; simpl; intro Hn; [lra|].
  destruct (k =? id)%Z eqn:E.
  - apply Z.eqb_eq in E. exfalso. apply Hn. now left.
  - rewrite IH; [lra|]. intro H. apply Hn. now right.
Qed.

Lemma suma_indicador (key : option Z) (v : Q) (ids : list Z) :
  NoDup ids ->
  (forall k, key = Some k -> In k ids) ->
  sum_montos (map (fun id => if opt_Z_eqb key (Some id) then v else 0) ids)
  == match key with Some _ => v | None => 0 end.
Proof.
  intros Hnd Hin. destruct key as [k|]; simpl.
  - specialize (Hin k eq_refl).
    induction ids as [|id ids IH]; simpl; [contradiction|].
    inversion Hnd as [|? ? Hnot Hnd']; subst.
    destruct (k =? id)%Z eqn:E.
    + apply Z.eqb_eq in E. subst id. rewrite suma_indicador_fuera by exact Hnot. lra.
    + apply Z.eqb_neq in E. destruct Hin as [Hin | Hin]; [congruence|].
      rewrite IH by assumption. lra.
  - apply sum_montos_cero.
Qed.

(** A sum over rows, regrouped by the row that each one references. *)
Lemma suma_por_clave {A : Type} (key : A -> option Z) (f : A -> Q) (ids : list Z)
    (l : list A) :
  NoDup ids ->
  (forall x k, In x l -> key x = Some k -> In k ids) ->
  sum_montos (map f l)
  == sum_montos
       (map (fun id =>
               sum_montos (map f (filter (fun x => opt_Z_eqb (key x) (Some id)) l)))
          ids)
     + sum_montos
         (map f (filter (fun x => match key x with None => true | Some _ => false end) l)).
Proof.
  intros Hnd. induction l as [|x l IH]; intro Hin.
  - simpl. rewrite sum_montos_cero. lra.
  - assert (Hin' : forall y k, In y l -> key y = Some k -> In k ids)
      by (intros y k Hy; apply Hin; now right).
    specialize (IH Hin').
    assert (Hsplit :
      sum_montos
        (map (fun id =>
                sum_montos
                  (map f (filter (fun y => opt_Z_eqb (key y) (Some id)) (x :: l))))
           ids)
      == sum_montos (map (fun id => if opt_Z_eqb (key x) (Some id) then f x else 0) ids)
         + sum_montos
             (map (fun id =>
                     sum_montos
                       (map f (filter (fun y => opt_Z_eqb (key y) (Some id)) l)))
                ids)).
    { rewrite <- sum_montos_map_plus. apply sum_montos_map_ext. intro id. simpl.
      destruct (opt_Z_eqb (key x) (Some id)); simpl; lra. }
    rewrite Hsplit, suma_indicador;
      [|exact Hnd | intros k Ek; apply (Hin x); [now left | exact Ek]].
    simpl. destruct (key x); simpl; lra.
Qed.

Lemma exists_in_ids (s : Store) (id : Z) :
  devengamiento_exists s id = true -> In id (map dv_id (devengamientos s)).
Proof.
  unfold devengamiento_exists. rewrite existsb_exists. intros (d & Hd & E).
  apply Z.eqb_eq in E. subst id. now apply in_map.
Qed.

Lemma saldo_es_bruto (s : Store) (d : Devengamiento) :
  pk_devengamientos s -> In d (devengamientos s) ->
  devengamiento_saldo s (dv_id d) == Qmax 0 (saldo_bruto s d).
Proof.
  intros Hpk Hd. unfold devengamiento_saldo, saldo_bruto.
  rewrite (find_por_id _ _ Hpk Hd). apply py_max_Qmax.
Qed.

Lemma sum_montos_le {A : Type} (f g : A -> Q) (l : list A) :
  (forall x, In x l -> f x <= g x) ->
  sum_montos (map f l) <= sum_montos (map g l).
Proof.
  induction l as [|x l IH]; simpl; intro H; [lra|].
  assert (f x <= g x) by (apply H; now left).
  assert (sum_montos (map f l) <= sum_montos (map g l))
    by (apply IH; intros y Hy; apply H; now right).
  lra.
Qed.

Lemma sum_montos_eq_in {A : Type} (f g : A -> Q) (l : list A) :
  (forall x, In x l -> f x == g x) ->
  sum_montos (map f l) == sum_montos (map g l).
Proof.
  induction l as [|x l IH]; simpl; intro H; [lra|].
  rewrite (H x) by now left. rewrite IH; [lra|]. intros y Hy. apply H. now right.
Qed.

Lemma suma_brutos (s : Store) :
  pk_devengamientos s ->
  (forall i, In i (devengamientos_cobros s) ->
     devengamiento_exists s (im_devengamiento_id i) = true) ->
  (forall a r, In a (ajustes s) -> aj_referencia_devengamiento_id a = Some r ->
     devengamiento_exists s r = true) ->
  sum_montos (map dv_importe (devengamientos s))
  + sum_montos (map aj_monto (ajustes s))
  - sum_montos (map im_monto (devengamientos_cobros s))
  == sum_montos (map (saldo_bruto s) (devengamientos s)) + ajustes_sin_referencia s.
Proof.
  intros Hpk Hi Ha.
  pose proof (suma_por_clave (fun i => Some (im_devengamiento_id i)) im_monto
                (map dv_id (devengamientos s)) (devengamientos_cobros s) Hpk) as H1.
  simpl in H1.
  rewrite (filter_ninguno (fun _ : Imputacion => false)) in H1 by reflexivity.
  simpl in H1.
  pose proof (suma_por_clave aj_referencia_devengamiento_id aj_monto
                (map dv_id (devengamientos s)) (ajustes s) Hpk) as H2.
  rewrite H1, H2.
  - rewrite !map_map. unfold ajustes_sin_referencia.
    assert (Hb : sum_montos (map (saldo_bruto s) (devengamientos s))
                 == sum_montos (map dv_importe (devengamientos s))
                    + sum_montos (map (fun d => ajustes_de s (dv_id d)) (devengamientos s))
                    - sum_montos (map (fun d => aplicado s (dv_id d)) (devengamientos s))).
    { unfold saldo_bruto. generalize (devengamientos s) as l.
      induction l as [|x l IH]; simpl; [|rewrite IH]; lra. }
    rewrite Hb. unfold ajustes_de, aplicado. lra.
  - intros a r Hin E. apply exists_in_ids. now apply (Ha a r).
  - intros i k Hin E. injection E as <-. apply exists_in_ids. now apply Hi.
Qed.

(** X17.  Two panels, one debt.  Over a database with distinct accrual ids in
    which allocations and adjustment references point to existing accruals:
    the "saldo pendiente" of the appv2.py panel (all accruals plus all
    adjustments minus all allocations) is the sum of the uncut accrual
    balances plus the adjustments that reference no accrual.  Leaving those
    adjustments aside it never exceeds the "deuda total" of the text-menu
    panel, which cuts every accrual balance at zero, and the two agree when
    no accrual is covered beyond its amount. *)
Theorem saldo_pendiente_y_deuda_total (s : Store) (hoy : date) :
  pk_devengamientos s ->
  (forall i, In i (devengamientos_cobros s) ->
     devengamiento_exists s (im_devengamiento_id i) = true) ->
  (forall a r, In a (ajustes s) -> aj_referencia_devengamiento_id a = Some r ->
     devengamiento_exists s r = true) ->
  saldo_pendiente (get_dashboard_metrics s hoy)
  == sum_montos (map (saldo_bruto s) (devengamientos s)) + ajustes_sin_referencia s
  /\ forall tb, dashboard s hoy = Some tb ->
       saldo_pendiente (get_dashboard_metrics s hoy) - ajustes_sin_referencia s
       <= tb_deuda_total tb
       /\ 0 <= tb_deuda_total tb
       /\ ((forall d, In d (devengamientos s) -> 0 <= saldo_bruto s d) ->
           saldo_pendiente (get_dashboard_metrics s hoy) - ajustes_sin_referencia s
           == tb_deuda_total tb).
Proof.
  intros Hpk Hi Ha.
  pose proof (suma_brutos s Hpk Hi Ha) as Hs.
  assert (Hm : saldo_pendiente (get_dashboard_metrics s hoy)
               == sum_montos (map (saldo_bruto s) (devengamientos s))
                  + ajustes_sin_referencia s).
  { unfold get_dashboard_metrics. simpl. exact Hs. }
  split; [exact Hm|].
  intros tb E. unfold dashboard in E.
  destruct (restar_dias 30 hoy) as [fecha_limite|]; [|discriminate].
  injection E as <-. simpl.
  assert (Hd : sum_montos (map (fun d => devengamiento_saldo s (dv_id d)) (devengamientos s))
               == sum_montos (map (fun d => Qmax 0 (saldo_bruto s d)) (devengamientos s))).
  { apply sum_montos_eq_in. intros d Hd. now apply saldo_es_bruto. }
  split; [|split].
  - rewrite Hm, Hd.
    assert (Hle : sum_montos (map (saldo_bruto s) (devengamientos s))
                  <= sum_montos (map (fun d => Qmax 0 (saldo_bruto s d)) (devengamientos s))).
    { apply sum_montos_le. intros d _. qminmax. }
    lra.
  - apply sum_montos_nonneg. intros b Hb. apply in_map_iff in Hb as (d & <- & _).
    apply devengamiento_saldo_nonneg.
  - intro Hpos. rewrite Hm, Hd.
    assert (Heq : sum_montos (map (saldo_bruto s) (devengamientos s))
                  == sum_montos (map (fun d => Qmax 0 (saldo_bruto s d)) (devengamientos s))).
    { apply sum_montos_eq_in. intros d Hin. specialize (Hpos d Hin). qminmax. }
    lra.
Qed.

(** ** The ledger invariants under every action *)

Lemma claves_filtradas {A B : Type} (clave : A -> B) (rows : list A) (cond : A -> bool) :
  NoDup (map clave rows) -> NoDup (map clave (filter cond rows)).
Proof.
  induction rows as [|x rows IH]; simpl; intro Hnd; [constructor|].
  apply NoDup_cons_iff in Hnd as [Hnot Hnd].
  destruct (cond x); simpl; [|now apply IH].
  apply NoDup_cons; [|now apply IH].
  rewrite in_map_iff. intros (y & Hy & Hin).
  apply filter_In in Hin as [Hin _]. apply Hnot. rewrite <- Hy. now apply in_map.
Qed.

Lemma filter_conmuta {A : Type} (p q : A -> bool) (l : list A) :
  filter p (filter q l) = filter q (filter p l).
Proof.
  induction l as [|x l IH]; simpl; [reflexivity|].
  destruct (q x) eqn:Eq; destruct (p x) eqn:Ep; simpl; rewrite ?Eq, ?Ep, IH; reflexivity.
Qed.

Lemma unicos_tablas (s s' : Store) :
  devengamientos s' = devengamientos s ->
  seq_devengamientos s' = seq_devengamientos s ->
  (ids_devengamientos s -> ids_devengamientos s')
  /\ (sin_duplicados s -> sin_duplicados s').
Proof.
  intros E1 E2. unfold ids_devengamientos, pk_devengamientos, sin_duplicados.
  rewrite E1, E2. split; auto.
Qed.

Lemma aplicar_unicos (t : Sistema) (a : accion) :
  (ids_devengamientos (libro t) -> ids_devengamientos (libro (aplicar t a)))
  /\ (sin_duplicados (libro t) -> sin_duplicados (libro (aplicar t a))).
Proof.
  destruct a; simpl.
  - apply ejecutar_unicos.
  - unfold add_cliente. destruct (String.eqb nombre ""); simpl; now apply unicos_tablas.
  - unfold toggle_cliente_estado.
    destruct (find _ _); [|now apply unicos_tablas].
    destruct confirma; simpl; now apply unicos_tablas.
  - unfold editar_cliente.
    destruct (negb (seleccionado v2 sel)); [now apply unicos_tablas|].
    destruct (negb (cliente_exists (libro t) sel)); [now apply unicos_tablas|].
    destruct (v2 && String.eqb nombre ""); simpl; now apply unicos_tablas.
  - destruct (eliminar_cliente_casos v2 (libro t) sel)
      as [(_ & -> & _) | (_ & _ & _ & _ & _ & _ & ->)]; now apply unicos_tablas.
  - unfold add_plan.
    destruct (negb (plan_valido fe (libro t) cliente_id importe));
      [now apply unicos_tablas|].
    unfold insert_plan. destruct (_ && _); simpl; now apply unicos_tablas.
  - unfold edit_plan.
    destruct (find _ _); [|now apply unicos_tablas].
    destruct (Qle_bool 0 _); simpl; now apply unicos_tablas.
  - unfold editar_plan.
    destruct (negb (seleccionado v2 sel)); [now apply unicos_tablas|].
    destruct (negb (plan_encontrado (libro t) sel)); [now apply unicos_tablas|].
    destruct (v2 && Qle_bool importe 0); simpl; now apply unicos_tablas.
  - destruct (eliminar_plan_casos v2 (libro t) sel) as [(_ & ->) | (_ & _ & ->)];
      now apply unicos_tablas.
  - destruct (eliminar_devengamiento_casos v2 (libro t) sel)
      as [(_ & -> & _) | (_ & _ & _ & _ & _ & ->)]; [now apply unicos_tablas|].
    unfold ids_devengamientos, pk_devengamientos, sin_duplicados. simpl. split.
    + intros [Hpk Hle]. split; [now apply claves_filtradas|].
      intros d Hd. apply filter_In in Hd as [Hd _]. now apply Hle.
    + intro Hnd. rewrite filter_conmuta. now apply claves_filtradas.
  - destruct (eliminar_cobro_casos v2 (libro t) sel) as [(_ & ->) | (_ & _ & ->)];
      now apply unicos_tablas.
  - destruct (eliminar_ajuste_casos v2 (libro t) sel) as [(_ & ->) | (_ & _ & ->)];
      now apply unicos_tablas.
Qed.

Lemma aplicar_inv_cobros (t : Sistema) (a : accion) :
  inv_cobros eps (libro t) -> inv_cobros eps (libro (aplicar t a)).
Proof.
  intro Hinv.
  assert (Hf : forall s', cobros s' = cobros (libro t) ->
                 devengamientos_cobros s' = devengamientos_cobros (libro t) ->
                 seq_cobros s' = seq_cobros (libro t) -> inv_cobros eps s').
  { intros s' E1 E2 E3. now apply (inv_cobros_frame eps (libro t)). }
  destruct a; simpl.
  - apply ejecutar_inv; [unfold eps; lra | left; lra | exact Hinv].
  - unfold add_cliente. destruct (String.eqb nombre ""); simpl; now apply Hf.
  - unfold toggle_cliente_estado.
    destruct (find _ _); [|exact Hinv].
    destruct confirma; simpl; now apply Hf.
  - unfold editar_cliente.
    destruct (negb (seleccionado v2 sel)); [exact Hinv|].
    destruct (negb (cliente_exists (libro t) sel)); [exact Hinv|].
    destruct (v2 && String.eqb nombre ""); simpl; now apply Hf.
  - destruct (eliminar_cliente_casos v2 (libro t) sel)
      as [(_ & -> & _) | (_ & _ & _ & _ & _ & _ & ->)]; now apply Hf.
  - unfold add_plan.
    destruct (negb (plan_valido fe (libro t) cliente_id importe)); [exact Hinv|].
    unfold insert_plan. destruct (_ && _); simpl; now apply Hf.
  - unfold edit_plan.
    destruct (find _ _); [|exact Hinv].
    destruct (Qle_bool 0 _); simpl; now apply Hf.
  - unfold editar_plan.
    destruct (negb (seleccionado v2 sel)); [exact Hinv|].
    destruct (negb (plan_encontrado (libro t) sel)); [exact Hinv|].
    destruct (v2 && Qle_bool importe 0); simpl; now apply Hf.
  - destruct (eliminar_plan_casos v2 (libro t) sel) as [(_ & ->) | (_ & _ & ->)];
      now apply Hf.
  - destruct (eliminar_devengamiento_casos v2 (libro t) sel)
      as [(_ & -> & _) | (_ & _ & _ & _ & _ & ->)]; now apply Hf.
  - destruct (eliminar_cobro_casos v2 (libro t) sel) as [(_ & ->) | (_ & _ & ->)];
      [exact Hinv|].
    destruct Hinv as (I1 & I2 & I3). repeat split; simpl.
    + exact I1.
    + intros c Hc. apply filter_In in Hc as [Hc _]. now apply I2.
    + intros c Hc Hpos. apply filter_In in Hc as [Hc _].
      unfold imputado_de_cobro. simpl. now apply I3.
  - destruct (eliminar_ajuste_casos v2 (libro t) sel) as [(_ & ->) | (_ & _ & ->)];
      now apply Hf.
Qed.

Lemma aplicar_todas_consistente (acs : list accion) :
  forall t,
    inv_cobros eps (libro t) -> ids_devengamientos (libro t) -> sin_duplicados (libro t) ->
    inv_cobros eps (libro (aplicar_todas t acs))
    /\ ids_devengamientos (libro (aplicar_todas t acs))
    /\ sin_duplicados (libro (aplicar_todas t acs)).
Proof.
  induction acs as [|a acs IH]; intros t H1 H2 H3; simpl;
    [split; [exact H1 | split; [exact H2 | exact H3]]|].
  apply IH.
  - now apply aplicar_inv_cobros.
  - now apply (aplicar_unicos t a).
  - now apply (aplicar_unicos t a).
Qed.

(** X18.  The bounds of the ledger hold under every action of the three
    programs, deletions and edits included: from a database without
    over-allocated payments, with distinct accrual ids and at most one
    accrual per (client, plan, year, month), every sequence of actions leads
    to a database in which the allocations of every payment of non-negative
    amount exceed the amount by at most 0.01, accrual ids are distinct and at
    most one accrual exists per (client, plan, year, month). *)
Theorem libro_consistente (t : Sistema) (acs : list accion) :
  inv_cobros 0 (libro t) ->
  ids_devengamientos (libro t) ->
  sin_duplicados (libro t) ->
  (forall c, In c (cobros (libro (aplicar_todas t acs))) -> 0 <= cb_importe c ->
     imputado_de_cobro (libro (aplicar_todas t acs)) (cb_id c) <= cb_importe c + eps)
  /\ ids_devengamientos (libro (aplicar_todas t acs))
  /\ sin_duplicados (libro (aplicar_todas t acs)).
Proof.
  intros H1 H2 H3.
  destruct (aplicar_todas_consistente acs t) as ((_ & _ & I3) & I4 & I5); auto.
  apply (inv_cobros_mono 0 eps); [unfold eps; lra | exact H1].
Qed.

(** ** Worked instances of the register and report properties *)

(** [ej_abril] is what a dashboard leaves after the adjustment and the
    payment. *)
Example ej_abril_recorrido :
  ejecutar_todas ej_marzo
    [OpAjusteWeb false 1 (mkdate 2024 4 2) "descuento" (-100) "Bonificacion" (Some 2%Z);
     OpCobro Streamlit 1 (mkdate 2024 4 5) 600 Automatico]
  = ej_abril.
Proof. reflexivity. Qed.

Lemma integro_ej_abril : integro ej_abril.
Proof.
  repeat split; intros; por_filas; try reflexivity;
    match goal with H : Some _ = Some _ |- _ => injection H as <- end; reflexivity.
Qed.

Lemma bien_formado_ej_abril :
  inv_cobros 0 ej_abril /\ ids_devengamientos ej_abril /\ sin_duplicados ej_abril.
Proof.
  split; [|split].
  - repeat split; intros; por_filas; try discriminate.
  - split.
    + unfold pk_devengamientos. simpl. repeat constructor; simpl; intuition discriminate.
    + intros; por_filas; discriminate.
  - unfold sin_duplicados. simpl. repeat constructor; simpl; intuition discriminate.
Qed.

(** The client of [ej_abril] cannot be deleted; client 2 of
    [ej_dos_clientes] can, and the adjustment goes with the client. *)
Example eliminar_cliente_ejemplos :
  eliminar_cliente true ej_abril 1 = (ej_abril, Rechazado)
  /\ eliminar_cliente false ej_dos_clientes 2
     = (mkStore [mkCliente 1 true] [mkPlan 1 1 1000 (mkdate 2024 1 1) None true]
          [] [] [] [] 0 0 0 1,
        Hecho)
  /\ eliminar_cliente true ej_dos_clientes 1 = (ej_dos_clientes, Rechazado)
  /\ eliminar_cliente true ej_dos_clientes 0 = (ej_dos_clientes, SinSeleccion)
  /\ eliminar_cliente true ej_dos_clientes 3 = (ej_dos_clientes, NoEncontrado).
Proof. repeat split. Qed.

(** Neither accrual of [ej_abril] can be deleted (one has an allocation, the
    other an adjustment), nor the payment; appv2.py deletes the adjustment,
    app.py does not. *)
Example eliminar_ejemplos :
  eliminar_devengamiento true ej_abril 1 = (ej_abril, Rechazado)
  /\ eliminar_devengamiento false ej_abril 2 = (ej_abril, Rechazado)
  /\ eliminar_cobro true ej_abril 1 = (ej_abril, Rechazado)
  /\ eliminar_ajuste false ej_abril 1 = (ej_abril, Fallido)
  /\ snd (eliminar_ajuste true ej_abril 1) = Hecho
  /\ devengamiento_saldo ej_abril 2 == 400
  /\ devengamiento_saldo (fst (eliminar_ajuste true ej_abril 1)) 2 == 500
  /\ snd (eliminar_devengamiento true (fst (eliminar_ajuste true ej_abril 1)) 2) = Hecho.
Proof. repeat split. Qed.

(** Instance of X10: deletions and a generation on [sis_abril]. *)
Lemma integridad_referencial_witness :
  integro
    (libro (aplicar_todas sis_abril
              [AcEliminarCobro true 1; AcEliminarAjuste true 1;
               AcEliminarDevengamiento true 2;
               AcLibro (OpGenerar StreamlitV2 2024 4)]))
  /\ (forall d,
        In d (devengamientos
                (libro (aplicar_todas sis_abril
                          [AcEliminarCobro true 1; AcEliminarAjuste true 1;
                           AcEliminarDevengamiento true 2;
                           AcLibro (OpGenerar StreamlitV2 2024 4)]))) ->
        devengamiento_encontrado
          (libro (aplicar_todas sis_abril
                    [AcEliminarCobro true 1; AcEliminarAjuste true 1;
                     AcEliminarDevengamiento true 2;
                     AcLibro (OpGenerar StreamlitV2 2024 4)])) (dv_id d) = true)
  /\ (forall c,
        In c (cobros
                (libro (aplicar_todas sis_abril
                          [AcEliminarCobro true 1; AcEliminarAjuste true 1;
                           AcEliminarDevengamiento true 2;
                           AcLibro (OpGenerar StreamlitV2 2024 4)]))) ->
        cobro_encontrado
          (libro (aplicar_todas sis_abril
                    [AcEliminarCobro true 1; AcEliminarAjuste true 1;
                     AcEliminarDevengamiento true 2;
                     AcLibro (OpGenerar StreamlitV2 2024 4)])) (cb_id c) = true).
Proof.
  apply (integridad_referencial sis_abril
           [AcEliminarCobro true 1; AcEliminarAjuste true 1;
            AcEliminarDevengamiento true 2;
            AcLibro (OpGenerar StreamlitV2 2024 4)]).
  exact integro_ej_abril.
Defined.

(** The statement of client 1 of [ej_abril], in both front-ends: two
    accruals, the discount, the payment; closing balance 800. *)
Example estado_cuenta_ejemplo :
  exists ec,
    account_statement ej_abril 1 = Some ec
    /\ map snd (ec_filas ec) = [1000; 1000 + 500; 1000 + 500 - 100; 1000 + 500 - 100 - 600]
    /\ ec_saldo ec == 800
    /\ ec_total_debito ec == 1500
    /\ ec_total_credito ec == 700
    /\ situacion_de (ec_saldo ec) = PendienteAlto.
Proof.
  eexists. split; [reflexivity|]. repeat split.
Qed.

(** Instance of X13: the events of client 1 of [ej_abril] in date order. *)
Lemma estado_cuenta_web_saldo_witness :
  List.length
    (columna_saldo
       [mkEvento (mkdate 2024 3 31) EvDevengamiento 1000 0;
        mkEvento (mkdate 2024 3 31) EvDevengamiento 500 0;
        mkEvento (mkdate 2024 4 2) EvAjuste 0 100;
        mkEvento (mkdate 2024 4 5) EvCobro 0 600])
  = 4%nat
  /\ last (columna_saldo
             [mkEvento (mkdate 2024 3 31) EvDevengamiento 1000 0;
              mkEvento (mkdate 2024 3 31) EvDevengamiento 500 0;
              mkEvento (mkdate 2024 4 2) EvAjuste 0 100;
              mkEvento (mkdate 2024 4 5) EvCobro 0 600]) 0
     == saldo_final ej_abril 1
  /\ forall ec, account_statement ej_abril 1 = Some ec ->
                ec_saldo ec == saldo_final ej_abril 1.
Proof.
  apply (estado_cuenta_web_saldo ej_abril 1
           [mkEvento (mkdate 2024 3 31) EvDevengamiento 1000 0;
            mkEvento (mkdate 2024 3 31) EvDevengamiento 500 0;
            mkEvento (mkdate 2024 4 2) EvAjuste 0 100;
            mkEvento (mkdate 2024 4 5) EvCobro 0 600]).
  vm_compute. apply Permutation_refl.
Defined.

(** Instance of X14: April 2024 on [ej_abril]. *)
Lemma cobranzas_mes_del_mes_witness :
  exists rows total,
    cobranzas_mes true ej_abril 2024 4 = Some (rows, total)
    /\ Permutation rows (filter (del_mes 2024 4) (cobros ej_abril))
    /\ StronglySorted (fun a b => fecha_leb (cb_fecha a) (cb_fecha b) = true) rows
    /\ total == sum_montos (map cb_importe (filter (del_mes 2024 4) (cobros ej_abril))).
Proof.
  apply (cobranzas_mes_del_mes true ej_abril 2024 4).
  - lia.
  - lia.
  - simpl. repeat constructor. simpl. intuition.
  - intros c Hc. por_filas. split; reflexivity.
Defined.

(** Instance of X17: the two panels on [ej_abril], where no accrual is
    over-covered: 1500 - 100 - 600 on both. *)
Lemma saldo_pendiente_y_deuda_total_witness :
  saldo_pendiente (get_dashboard_metrics ej_abril (mkdate 2024 4 20))
  == sum_montos (map (saldo_bruto ej_abril) (devengamientos ej_abril))
     + ajustes_sin_referencia ej_abril
  /\ forall tb, dashboard ej_abril (mkdate 2024 4 20) = Some tb ->
       saldo_pendiente (get_dashboard_metrics ej_abril (mkdate 2024 4 20))
       - ajustes_sin_referencia ej_abril
       <= tb_deuda_total tb
       /\ 0 <= tb_deuda_total tb
       /\ ((forall d, In d (devengamientos ej_abril) -> 0 <= saldo_bruto ej_abril d) ->
           saldo_pendiente (get_dashboard_metrics ej_abril (mkdate 2024 4 20))
           - ajustes_sin_referencia ej_abril
           == tb_deuda_total tb).
Proof.
  apply (saldo_pendiente_y_deuda_total ej_abril (mkdate 2024 4 20)).
  - exact (proj1 (proj1 (proj2 bien_formado_ej_abril))).
  - intros i Hi. por_filas. reflexivity.
  - intros a r Ha E. por_filas. injection E as <-. reflexivity.
Defined.

Example paneles_ejemplo :
  saldo_pendiente (get_dashboard_metrics ej_abril (mkdate 2024 4 20)) == 800
  /\ clientes_con_saldo (get_dashboard_metrics ej_abril (mkdate 2024 4 20)) = 1%nat
  /\ cobrado_mes (get_dashboard_metrics ej_abril (mkdate 2024 4 20)) == 600
  /\ exists tb,
       dashboard ej_abril (mkdate 2024 4 20) = Some tb
       /\ tb_deuda_total tb == 800
       /\ tb_clientes_con_deuda tb = 1%nat
       /\ tb_morosos_potenciales tb = 0%nat.
Proof.
  split; [vm_compute; reflexivity|]. split; [vm_compute; reflexivity|].
  split; [vm_compute; reflexivity|].
  eexists. split; [vm_compute; reflexivity|].
  split; [vm_compute; reflexivity|]. split; vm_compute; reflexivity.
Qed.

(** Instance of X18: the actions of the X10 instance, after a manual
    payment in the text menu. *)
Lemma libro_consistente_witness :
  (forall c,
     In c (cobros
             (libro (aplicar_todas sis_abril
                       [AcLibro (OpCobro Cli 1 (mkdate 2024 4 10) 100
                                   (Manual [Some (2%Z, 100.01)]));
                        AcEliminarAjuste true 1; AcEliminarDevengamiento true 2;
                        AcEliminarCobro true 2]))) ->
     0 <= cb_importe c ->
     imputado_de_cobro
       (libro (aplicar_todas sis_abril
                 [AcLibro (OpCobro Cli 1 (mkdate 2024 4 10) 100
                             (Manual [Some (2%Z, 100.01)]));
                  AcEliminarAjuste true 1; AcEliminarDevengamiento true 2;
                  AcEliminarCobro true 2])) (cb_id c)
     <= cb_importe c + eps)
  /\ ids_devengamientos
       (libro (aplicar_todas sis_abril
                 [AcLibro (OpCobro Cli 1 (mkdate 2024 4 10) 100
                             (Manual [Some (2%Z, 100.01)]));
                  AcEliminarAjuste true 1; AcEliminarDevengamiento true 2;
                  AcEliminarCobro true 2]))
  /\ sin_duplicados
       (libro (aplicar_todas sis_abril
                 [AcLibro (OpCobro Cli 1 (mkdate 2024 4 10) 100
                             (Manual [Some (2%Z, 100.01)]));
                  AcEliminarAjuste true 1; AcEliminarDevengamiento true 2;
                  AcEliminarCobro true 2])).
Proof.
  apply (libro_consistente sis_abril
           [AcLibro (OpCobro Cli 1 (mkdate 2024 4 10) 100
                       (Manual [Some (2%Z, 100.01)]));
            AcEliminarAjuste true 1; AcEliminarDevengamiento true 2;
            AcEliminarCobro true 2]).
  - exact (proj1 bien_formado_ej_abril).
  - exact (proj1 (proj2 bien_formado_ej_abril)).
  - exact (proj2 (proj2 bien_formado_ej_abril)).
Defined.

(** Deactivating client 1 of [ej_base] in the text menu: the generator of a
    dashboard then creates nothing; switched on again, it creates the two
    accruals of March 2024. *)
Example desactivar_ejemplo :
  snd (generar Streamlit (fst (toggle_cliente_estado ej_base 1 true)) 2024 3)
  = Generado (mkConteo 0 0 0)
  /\ fst (toggle_cliente_estado (fst (toggle_cliente_estado ej_base 1 true)) 1 true)
     = ej_base
  /\ snd (generar Streamlit ej_base 2024 3) = Generado (mkConteo 2 0 0)
  /\ snd (generar Streamlit
            (fst (edit_plan ej_base 2 None None None (Some 2%Z))) 2024 3)
     = Generado (mkConteo 1 0 0).
Proof. repeat split. Qed.

Example ultimo_dia_mes_ejemplos :
  ultimo_dia_mes 2024 2 = Some (mkdate 2024 2 29)
  /\ ultimo_dia_mes 2023 2 = Some (mkdate 2023 2 28)
  /\ ultimo_dia_mes 2024 0 = Some (mkdate 2023 12 31)
  /\ ultimo_dia_mes 2024 13 = None
  /\ ultimo_dia_mes_v2 2024 13 = None.
Proof. repeat split. Qed.

(** ** Automatic allocation, accrual by accrual *)

Lemma repartir_por_id (restante : Q) (saldos : list (Z * Q)) (id : Z) :
  (forall x, In x saldos -> 0 <= snd x) ->
  sum_montos (montos (filter (fun x => (fst x =? id)%Z) (fst (repartir restante saldos))))
  <= sum_montos (montos (filter (fun x => (fst x =? id)%Z) saldos)).
Proof.
  revert restante. induction saldos as [|[i b] rest IH]; intros restante Hpos.
  - simpl. lra.
  - assert (Hb : 0 <= b) by (apply (Hpos (i, b)); now left).
    assert (Hrest : forall x, In x rest -> 0 <= snd x)
      by (intros x Hx; apply Hpos; now right).
    assert (Hf : 0 <= sum_montos (montos (filter (fun x => (fst x =? id)%Z) rest))).
    { clear - Hrest. induction rest as [|[j c] rest IH]; simpl; [lra|].
      assert (0 <= c) by (apply (Hrest (j, c)); now left).
      assert (0 <= sum_montos (montos (filter (fun x => (fst x =? id)%Z) rest)))
        by (apply IH; intros x Hx; apply Hrest; now right).
      destruct (j =? id)%Z; simpl; lra. }
    simpl. destruct (Qle_bool restante eps).
    + simpl. destruct (i =? id)%Z; simpl; lra.
    + destruct (Qle_bool b eps).
      * specialize (IH restante Hrest). destruct (i =? id)%Z; simpl; lra.
      * specialize (IH (restante - py_min restante b) Hrest).
        destruct (repartir (restante - py_min restante b) rest) as [l r].
        simpl in *. pose proof (py_min_le restante b) as [_ Hm].
        destruct (i =? id)%Z; simpl; lra.
Qed.

Lemma saldos_de_por_id (s : Store) (cliente_id id : Z) :
  pk_devengamientos s ->
  sum_montos (montos (filter (fun x => (fst x =? id)%Z) (saldos_de s cliente_id)))
  <= devengamiento_saldo s id.
Proof.
  intro Hpk.
  assert (Hnd : NoDup (map fst (saldos_de s cliente_id))).
  { unfold saldos_de. rewrite map_map. simpl.
    now apply devengamientos_de_nodup. }
  destruct (in_dec Z.eq_dec id (map fst (saldos_de s cliente_id))) as [Hin | Hout].
  - apply in_map_iff in Hin as ([i b] & Ei & Hin). simpl in Ei. subst i.
    rewrite (filter_unico _ id b Hnd Hin). simpl.
    unfold saldos_de in Hin. apply in_map_iff in Hin as (d & Ed & _).
    injection Ed as E1 E2. subst id. rewrite E2. lra.
  - rewrite filter_ninguno.
    + simpl. apply devengamiento_saldo_nonneg.
    + intros [i b] Hx. simpl. apply Z.eqb_neq. intros ->. apply Hout.
      change id with (fst (id, b)). now apply in_map.
Qed.

Lemma automatico_por_devengamiento (fe : frontend) (s : Store)
    (cobro_id cliente_id : Z) (importe : Q) (id : Z) :
  pk_devengamientos s -> cobro_exists s cobro_id = true ->
  exists extra,
    aplicado (fst (imputar_automatico fe s s cobro_id cliente_id importe)) id
    == aplicado s id + extra
    /\ 0 <= extra
    /\ extra <= devengamiento_saldo s id
    /\ ((forall d, In d (devengamientos s) -> dv_id d = id ->
           dv_cliente_id d <> cliente_id) -> extra == 0)
    /\ solo_imputaciones s (fst (imputar_automatico fe s s cobro_id cliente_id importe)).
Proof.
  intros Hpk Hc.
  destruct (imputar_automatico_repartir fe s cobro_id cliente_id importe Hpk Hc)
    as (nuevas & s' & E & Hsolo & Hrows & Hpairs & _).
  rewrite E. simpl. exists (asignado nuevas id).
  split; [|split; [|split; [|split]]].
  - unfold aplicado, asignado, total_montos.
    rewrite Hrows, filter_app, map_app, sum_montos_app. reflexivity.
  - rewrite asignado_pares, Hpairs. apply sum_filter_nonneg.
    intros x Hx. now apply (repartir_montos_pos importe (saldos_de s cliente_id)).
  - rewrite asignado_pares, Hpairs.
    apply Qle_trans
      with (sum_montos
              (montos (filter (fun x => (fst x =? id)%Z) (saldos_de s cliente_id)))).
    + apply repartir_por_id. intros x Hx. apply (saldos_de_nonneg s cliente_id).
      unfold montos. now apply in_map.
    + now apply saldos_de_por_id.
  - intro Hotro. rewrite asignado_pares, Hpairs, filter_ninguno; [reflexivity|].
    intros [i b] Hx. simpl. apply Z.eqb_neq. intros ->.
    assert (Hid : In id (map fst (saldos_de s cliente_id))).
    { apply (repartir_ids importe). change id with (fst (id, b)). now apply in_map. }
    unfold saldos_de in Hid. rewrite map_map in Hid. simpl in Hid.
    apply in_map_iff in Hid as (d & Ed & Hd).
    apply devengamientos_de_in in Hd as [Hd Hcl].
    now apply (Hotro d Hd Ed).
  - exact Hsolo.
Qed.

Lemma insert_cobro_tablas (fe : frontend) (s s1 : Store) (cliente_id : Z)
    (fecha : date) (importe : Q) (cobro_id : Z) :
  insert_cobro fe s cliente_id fecha importe = Some (s1, cobro_id) ->
  devengamientos s1 = devengamientos s
  /\ devengamientos_cobros s1 = devengamientos_cobros s
  /\ ajustes s1 = ajustes s
  /\ cobro_exists s1 cobro_id = true.
Proof.
  unfold insert_cobro.
  destruct (cliente_exists s cliente_id
            && (if has_checks fe then Qltb 0 importe else true)); [|discriminate].
  intros [= <- <-]. simpl. repeat split.
  unfold cobro_exists. simpl. rewrite existsb_app. simpl.
  rewrite Z.eqb_refl. now rewrite orb_true_r.
Qed.

Lemma saldo_tablas (s s1 : Store) (id : Z) :
  devengamientos s1 = devengamientos s ->
  devengamientos_cobros s1 = devengamientos_cobros s ->
  ajustes s1 = ajustes s ->
  devengamiento_saldo s1 id = devengamiento_saldo s id
  /\ aplicado s1 id = aplicado s id
  /\ ajustes_de s1 id = ajustes_de s id.
Proof.
  intros E1 E2 E3. unfold devengamiento_saldo, aplicado, ajustes_de.
  now rewrite E1, E2, E3.
Qed.

(** X19.  A payment allocated automatically never covers an accrual beyond
    its balance, in any front-end.  Over a database with distinct accrual
    ids: what the payment adds to the allocations of an accrual is at least
    zero and at most the balance that the accrual had; an accrual whose uncut
    balance was not negative is left with an uncut balance that is not
    negative; and the accruals of other clients receive nothing. *)
Theorem cobro_automatico_no_sobrepasa (fe : frontend) (s : Store) (cliente_id : Z)
    (fecha : date) (importe : Q) :
  pk_devengamientos s ->
  (forall id,
     aplicado s id
     <= aplicado (fst (record_cobro fe s cliente_id fecha importe Automatico)) id
     /\ aplicado (fst (record_cobro fe s cliente_id fecha importe Automatico)) id
        <= aplicado s id + devengamiento_saldo s id)
  /\ (forall d, In d (devengamientos s) -> 0 <= saldo_bruto s d ->
        0 <= saldo_bruto (fst (record_cobro fe s cliente_id fecha importe Automatico)) d)
  /\ (forall d, In d (devengamientos s) -> dv_cliente_id d <> cliente_id ->
        aplicado (fst (record_cobro fe s cliente_id fecha importe Automatico)) (dv_id d)
        == aplicado s (dv_id d)).
Proof.
  intro Hpk.
  assert (Hquieto : forall id, 0 <= devengamiento_saldo s id)
    by (intro; apply devengamiento_saldo_nonneg).
  unfold record_cobro.
  destruct (negb (cobro_valido fe s cliente_id importe)).
  { simpl. repeat split; intros; try assumption; try reflexivity;
      specialize (Hquieto id); lra. }
  destruct (insert_cobro fe s cliente_id fecha importe) as [[s1 cobro_id]|] eqn:Hins.
  2:{ simpl. repeat split; intros; try assumption; try reflexivity;
        specialize (Hquieto id); lra. }
  apply insert_cobro_tablas in Hins as (T1 & T2 & T3 & Hc).
  assert (Hpk1 : pk_devengamientos s1) by (unfold pk_devengamientos; now rewrite T1).
  replace (modo_de fe Automatico) with Automatico by (destruct fe; reflexivity).
  replace (match fe with
           | Cli => imputar_automatico Cli s1 s1 cobro_id cliente_id importe
           | Streamlit | StreamlitV2 =>
               imputar_automatico_db fe s1 cobro_id cliente_id importe
           end)
    with (imputar_automatico fe s1 s1 cobro_id cliente_id importe)
    by (destruct fe; reflexivity).
  pose proof (automatico_por_devengamiento fe s1 cobro_id cliente_id importe) as Ha.
  destruct (imputar_automatico fe s1 s1 cobro_id cliente_id importe) as [s2 rest] eqn:E2.
  simpl in *.
  split; [|split].
  - intro id. destruct (Ha id Hpk1 Hc) as (extra & A1 & A2 & A3 & _).
    destruct (saldo_tablas s s1 id T1 T2 T3) as (S1 & S2 & _).
    rewrite S1, S2 in *. lra.
  - intros d Hd Hpos.
    destruct (Ha (dv_id d) Hpk1 Hc) as (extra & A1 & A2 & A3 & _ & Hsolo).
    destruct (saldo_tablas s s1 (dv_id d) T1 T2 T3) as (S1 & S2 & S3).
    rewrite S1, S2 in *.
    pose proof (saldo_es_bruto s d Hpk Hd) as Hb.
    destruct Hsolo as (_ & _ & _ & _ & Haj & _).
    unfold saldo_bruto in *.
    assert (Eaj : ajustes_de s2 (dv_id d) = ajustes_de s (dv_id d))
      by (unfold ajustes_de; now rewrite Haj, T3).
    rewrite Eaj, A1.
    assert (Hmax : Qmax 0 (dv_importe d + ajustes_de s (dv_id d) - aplicado s (dv_id d))
                   == dv_importe d + ajustes_de s (dv_id d) - aplicado s (dv_id d))
      by (apply Q.max_r; exact Hpos).
    lra.
  - intros d Hd Hotro.
    destruct (Ha (dv_id d) Hpk1 Hc) as (extra & A1 & _ & _ & A4 & _).
    destruct (saldo_tablas s s1 (dv_id d) T1 T2 T3) as (_ & S2 & _).
    rewrite S2 in A1. rewrite A1, A4; [lra|].
    intros d' Hd' Eid. rewrite T1 in Hd'.
    assert (d' = d).
    { pose proof (find_por_id _ _ Hpk Hd) as F1.
      pose proof (find_por_id _ _ Hpk Hd') as F2.
      rewrite Eid in F2. congruence. }
    now subst d'.
Qed.

(** ** Manual allocation: what is not checked *)

Lemma manual_loop_paso (snap cur cur' : Store) (cobro_id did : Z) (monto restante : Q)
    (rest : list (option (Z * Q))) :
  0 < monto ->
  devengamiento_exists snap did = true ->
  monto <= devengamiento_saldo snap did + eps ->
  monto <= restante + eps ->
  insert_imputacion Cli cur did cobro_id monto = Some cur' ->
  manual_loop snap cobro_id (Some (did, monto) :: rest) cur restante
  = if Qle_bool (restante - monto) eps
    then (mkImputado cur' (restante - monto) true, [Aplicado did monto])
    else let '(r, out) := manual_loop snap cobro_id rest cur' (restante - monto) in
         (r, Aplicado did monto :: out).
Proof.
  intros Hm Hes Hsaldo Hrest Hins.
  destruct (ajustar_monto_casos monto (devengamiento_saldo snap did) restante)
    as (_ & _ & _ & Hcaso).
  specialize (Hcaso Hsaldo Hrest).
  assert (E1 : Qle_bool monto 0 = false) by now apply Qle_bool_false.
  simpl. rewrite E1, Hes. simpl. rewrite Hcaso, E1, Hins. reflexivity.
Qed.

(** X20.  What manual allocation does not check (text menu).  Every pair of
    a directive is measured against the balance that the accrual had before
    the directive, and the accrual may belong to any client.  So for every
    existing accrual, whoever its client is, a directive that names it twice
    with amounts that exceed neither that balance nor the amount left, the
    first leaving more than 0.01 of the payment, inserts both rows: the
    accrual receives the sum of the two amounts, twice its balance when
    both equal the balance. *)
Theorem manual_par_repetido (s : Store) (cobro_id cliente_id did : Z)
    (importe m1 m2 : Q) :
  devengamientos_de s cliente_id <> [] ->
  devengamiento_exists s did = true ->
  cobro_exists s cobro_id = true ->
  0 < m1 -> 0 < m2 ->
  m1 <= devengamiento_saldo s did ->
  m2 <= devengamiento_saldo s did ->
  eps < importe - m1 ->
  m2 <= importe - m1 ->
  devengamientos_cobros
    (r_store (fst (imputar_manual s s cobro_id cliente_id importe
                     [Some (did, m1); Some (did, m2)])))
  = devengamientos_cobros s
    ++ [mkImputacion (seq_devengamientos_cobros s + 1) did cobro_id m1;
        mkImputacion (seq_devengamientos_cobros s + 1 + 1) did cobro_id m2]
  /\ snd (imputar_manual s s cobro_id cliente_id importe [Some (did, m1); Some (did, m2)])
     = [Aplicado did m1; Aplicado did m2]
  /\ aplicado
       (r_store (fst (imputar_manual s s cobro_id cliente_id importe
                        [Some (did, m1); Some (did, m2)]))) did
     == aplicado s did + m1 + m2.
Proof.
  intros Hdevs Hes Hc Hm1 Hm2 Hb1 Hb2 Hr1 Hq2.
  pose proof eps_pos as Heps.
  assert (Hs1 : m1 <= devengamiento_saldo s did + eps) by lra.
  assert (Hs2 : m2 <= devengamiento_saldo s did + eps) by lra.
  assert (Hr2 : m2 <= importe - m1 + eps) by lra.
  rewrite (imputar_manual_con_devengamientos s s cobro_id cliente_id importe _ Hdevs).
  destruct (insert_imputacion_ok Cli s did cobro_id m1 Hes Hc Hm1) as [s1 Hins1].
  destruct (insert_imputacion_some _ _ _ _ _ _ Hins1) as [Hf1 Hrows1].
  destruct (exists_frame s s1 Hf1) as [Hed Hec].
  assert (Hes1 : devengamiento_exists s1 did = true) by now rewrite Hed.
  assert (Hc1 : cobro_exists s1 cobro_id = true) by now rewrite Hec.
  destruct (insert_imputacion_ok Cli s1 did cobro_id m2 Hes1 Hc1 Hm2) as [s2 Hins2].
  destruct (insert_imputacion_some _ _ _ _ _ _ Hins2) as [Hf2 Hrows2].
  assert (Hseq : seq_devengamientos_cobros s1 = (seq_devengamientos_cobros s + 1)%Z).
  { unfold insert_imputacion in Hins1.
    destruct (devengamiento_exists s did && cobro_exists s cobro_id
              && (if has_checks Cli then Qltb 0 m1 else true)); [|discriminate].
    now injection Hins1 as <-. }
  rewrite (manual_loop_paso s s s1 cobro_id did m1 importe [Some (did, m2)]);
    try assumption; [|lra].
  assert (E1 : Qle_bool (importe - m1) eps = false) by now apply Qle_bool_false.
  rewrite E1.
  rewrite (manual_loop_paso s s1 s2 cobro_id did m2 (importe - m1) []); try assumption.
  assert (Hfin : devengamientos_cobros s2
                 = devengamientos_cobros s
                   ++ [mkImputacion (seq_devengamientos_cobros s + 1) did cobro_id m1;
                       mkImputacion (seq_devengamientos_cobros s + 1 + 1) did cobro_id m2]).
  { rewrite Hrows2, Hrows1, Hseq, <- app_assoc. reflexivity. }
  assert (Hap : aplicado s2 did == aplicado s did + m1 + m2).
  { unfold aplicado. rewrite Hfin, filter_app, map_app, sum_montos_app. simpl.
    rewrite Z.eqb_refl. simpl. lra. }
  destruct (Qle_bool (importe - m1 - m2) eps); simpl; now repeat split.
Qed.

(** ** Overdue clients *)

Lemma sum_filter_le {A : Type} (p : A -> bool) (f : A -> Q) (l : list A) :
  (forall x, In x l -> 0 <= f x) ->
  sum_montos (map f (filter p l)) <= sum_montos (map f l).
Proof.
  induction l as [|x l IH]; simpl; intro H; [lra|].
  assert (0 <= f x) by (apply H; now left).
  assert (sum_montos (map f (filter p l)) <= sum_montos (map f l))
    by (apply IH; intros y Hy; apply H; now right).
  destruct (p x); simpl; lra.
Qed.

Lemma suma_indicador_le (k : Z) (v : Q) (ids : list Z) :
  NoDup ids -> 0 <= v ->
  sum_montos (map (fun id => if (k =? id)%Z then v else 0) ids) <= v.
Proof.
  intros Hnd Hv. induction ids as [|id ids IH]; simpl; [lra|].
  inversion Hnd as [|? ? Hnot Hnd']; subst.
  destruct (k =? id)%Z eqn:E.
  - apply Z.eqb_eq in E. subst id. rewrite suma_indicador_fuera by exact Hnot. lra.
  - specialize (IH Hnd'). lra.
Qed.

(** Sums over the groups of some keys never exceed the sum over all rows. *)
Lemma suma_grupos_le {A : Type} (key : A -> Z) (f : A -> Q) (ids : list Z) (l : list A) :
  NoDup ids ->
  (forall x, In x l -> 0 <= f x) ->
  sum_montos
    (map (fun id => sum_montos (map f (filter (fun x => (key x =? id)%Z) l))) ids)
  <= sum_montos (map f l).
Proof.
  intros Hnd. induction l as [|x l IH]; intro Hpos.
  - simpl. rewrite sum_montos_cero. lra.
  - assert (Hx : 0 <= f x) by (apply Hpos; now left).
    assert (IH' : sum_montos
                    (map (fun id =>
                            sum_montos (map f (filter (fun y => (key y =? id)%Z) l)))
                       ids)
                  <= sum_montos (map f l))
      by (apply IH; intros y Hy; apply Hpos; now right).
    assert (Hsplit :
      sum_montos
        (map (fun id =>
                sum_montos (map f (filter (fun y => (key y =? id)%Z) (x :: l))))
           ids)
      == sum_montos (map (fun id => if (key x =? id)%Z then f x else 0) ids)
         + sum_montos
             (map (fun id =>
                     sum_montos (map f (filter (fun y => (key y =? id)%Z) l)))
                ids)).
    { rewrite <- sum_montos_map_plus. apply sum_montos_map_ext. intro id. simpl.
      destruct (key x =? id)%Z; simpl; lra. }
    rewrite Hsplit. pose proof (suma_indicador_le (key x) (f x) ids Hnd Hx).
    simpl. lra.
Qed.

Lemma clientes_vencidos_in (s : Store) (fecha_limite : date) (c : Z) :
  In c (clientes_vencidos s fecha_limite) ->
  (exists cl, In cl (clientes s) /\ cl_id cl = c /\ cl_activo cl = true)
  /\ exists d, In d (devengamientos s) /\ dv_cliente_id d = c
               /\ fecha_leb (dv_fecha_devengada d) fecha_limite = true.
Proof.
  unfold clientes_vencidos. rewrite nodup_In, in_map_iff.
  intros (cl & <- & Hcl). apply filter_In in Hcl as [Hcl Hp].
  apply andb_true_iff in Hp as [Ha Hex].
  split; [now exists cl|].
  apply existsb_exists in Hex as (d & Hd & Hp).
  apply andb_true_iff in Hp as [E1 E2]. apply Z.eqb_eq in E1.
  now exists d.
Qed.

Lemma deuda_vencida_nonneg (s : Store) (fecha_limite : date) (c : Z) :
  0 <= deuda_vencida s fecha_limite c.
Proof.
  unfold deuda_vencida. apply sum_montos_nonneg. intros b Hb.
  apply in_map_iff in Hb as (d & <- & _). apply devengamiento_saldo_nonneg.
Qed.

Lemma deudas_vencidas_le (s : Store) (fecha_limite : date) (rows : list Z) :
  NoDup rows ->
  sum_montos (map (deuda_vencida s fecha_limite) rows)
  <= sum_montos (map (fun d => devengamiento_saldo s (dv_id d)) (devengamientos s)).
Proof.
  intro Hnd.
  apply Qle_trans
    with (sum_montos
            (map (fun id =>
                    sum_montos
                      (map (fun d => devengamiento_saldo s (dv_id d))
                         (filter (fun d => (dv_cliente_id d =? id)%Z) (devengamientos s))))
               rows)).
  - apply sum_montos_le. intros c _. unfold deuda_vencida.
    apply sum_filter_le. intros d _. apply devengamiento_saldo_nonneg.
  - apply suma_grupos_le; [exact Hnd|]. intros d _. apply devengamiento_saldo_nonneg.
Qed.

(** X21.  The overdue report of the text menu against the other panels, for
    the rows of its query in any order and for every outcome of its test
    against 0.01 on debts of exactly 0.01.  Every printed client is active,
    has an accrual dated on or before the limit and owes at least 0.01 on
    such accruals; every client of the query that owes more than 0.01 on
    them is printed; so the report never has more lines than the report of
    app.py, which displays every row of the query whatever the client owes.
    "TOTAL DEUDA VENCIDA" is the sum of the printed debts and never exceeds
    "Deuda total pendiente" of the panel; and with the limit at 30 days the
    number of printed clients never exceeds "Clientes con deuda >30 dias" of
    the panel, which counts clients by the date of their accruals alone. *)
Theorem reporte_morosos_cotas (supera : Q -> bool) (s : Store) (fecha_limite : date)
    (rows : list Z) (filas : list (Z * Q)) (total : Q) :
  (forall d, eps < d -> supera d = true) ->
  (forall d, d < eps -> supera d = false) ->
  Permutation rows (clientes_vencidos s fecha_limite) ->
  reporte_morosos supera s fecha_limite rows = Some (filas, total) ->
  (forall c deuda, In (c, deuda) filas ->
     In c rows /\ deuda = deuda_vencida s fecha_limite c /\ eps <= deuda)
  /\ (forall c, In c rows -> eps < deuda_vencida s fecha_limite c ->
        In (c, deuda_vencida s fecha_limite c) filas)
  /\ (forall c deuda, In (c, deuda) filas ->
        (exists cl, In cl (clientes s) /\ cl_id cl = c /\ cl_activo cl = true)
        /\ exists d, In d (devengamientos s) /\ dv_cliente_id d = c
                     /\ fecha_leb (dv_fecha_devengada d) fecha_limite = true)
  /\ (List.length filas <= List.length (clientes_vencidos s fecha_limite))%nat
  /\ total == sum_montos (map snd filas)
  /\ 0 <= total
  /\ (forall hoy tb, dashboard s hoy = Some tb ->
        total <= tb_deuda_total tb
        /\ (restar_dias 30 hoy = Some fecha_limite ->
            (List.length filas <= tb_morosos_potenciales tb)%nat)).
Proof.
  intros Hsi Hno Hperm Hrep.
  assert (Hnd : NoDup rows).
  { apply (Permutation_NoDup (Permutation_sym Hperm)). apply NoDup_nodup. }
  unfold reporte_morosos in Hrep.
  destruct rows as [|r0 rest] eqn:Erows; [discriminate|]. rewrite <- Erows in *.
  injection Hrep as Hf Ht. rewrite Hf in Ht.
  assert (Hin : forall c deuda, In (c, deuda) filas <->
                  In c rows /\ deuda = deuda_vencida s fecha_limite c
                  /\ supera deuda = true).
  { intros c deuda. rewrite <- Hf, filter_In, in_map_iff. simpl. split.
    - intros [(c' & [= -> <-] & Hc) Hq]. now repeat split.
    - intros (Hc & -> & Hq). split; [now exists c | exact Hq]. }
  assert (Hfilas_nd : NoDup (map fst filas)).
  { rewrite <- Hf. clear - Hnd. induction rows as [|c rows IH]; simpl; [constructor|].
    inversion Hnd as [|? ? Hnot Hnd']; subst. specialize (IH Hnd').
    assert (Hsub : forall x,
              In x (map fst (filter (fun x => supera (snd x))
                               (map (fun c => (c, deuda_vencida s fecha_limite c)) rows))) ->
              In x rows).
    { intros x Hx. apply in_map_iff in Hx as ([c' q] & <- & Hx).
      apply filter_In in Hx as [Hx _]. apply in_map_iff in Hx as (c'' & [= <- _] & Hc).
      exact Hc. }
    destruct (supera (deuda_vencida s fecha_limite c)); simpl; [|exact IH].
    constructor; [|exact IH]. intro Hx. apply Hnot. now apply Hsub. }
  assert (Hincl : forall c, In c (map fst filas) -> In c (clientes_vencidos s fecha_limite)).
  { intros c Hc. apply in_map_iff in Hc as ([c' q] & <- & Hx). simpl.
    apply Hin in Hx as (Hx & _). now apply (Permutation_in _ Hperm). }
  assert (Htot : total <= sum_montos (map (deuda_vencida s fecha_limite) rows)).
  { rewrite <- Ht, <- Hf.
    apply Qle_trans
      with (sum_montos
              (map snd (map (fun c => (c, deuda_vencida s fecha_limite c)) rows))).
    - apply sum_filter_le. intros [c q] Hx. simpl.
      apply in_map_iff in Hx as (c' & [= <- <-] & _). apply deuda_vencida_nonneg.
    - rewrite map_map. simpl. apply Qle_refl. }
  split; [|split; [|split; [|split; [|split; [|split]]]]].
  - intros c deuda Hx. apply Hin in Hx as (Hc & Hd & Hq).
    split; [exact Hc|]. split; [exact Hd|].
    destruct (Qlt_le_dec deuda eps) as [Hlt | Hle]; [|exact Hle].
    rewrite (Hno deuda Hlt) in Hq. discriminate.
  - intros c Hc Hgt. apply Hin. split; [exact Hc|]. split; [reflexivity|].
    now apply Hsi.
  - intros c deuda Hx. apply clientes_vencidos_in.
    apply Hincl. change c with (fst (c, deuda)). now apply in_map.
  - rewrite <- (length_map fst filas).
    apply NoDup_incl_length; [exact Hfilas_nd | exact Hincl].
  - rewrite <- Ht. reflexivity.
  - rewrite <- Ht. apply sum_montos_nonneg. intros q Hq.
    apply in_map_iff in Hq as ([c d] & <- & Hx). simpl.
    apply Hin in Hx as (_ & -> & _). apply deuda_vencida_nonneg.
  - intros hoy tb Htb. unfold dashboard in Htb.
    destruct (restar_dias 30 hoy) as [fl|] eqn:Efl; [|discriminate].
    injection Htb as <-. simpl. split.
    + apply Qle_trans with (sum_montos (map (deuda_vencida s fecha_limite) rows));
        [exact Htot | now apply deudas_vencidas_le].
    + intros [= ->]. rewrite <- (length_map fst filas).
      apply NoDup_incl_length; [exact Hfilas_nd|].
      intros c Hc. apply Hincl in Hc. apply clientes_vencidos_in in Hc as (_ & d & Hd & E & Hf').
      apply nodup_In. apply in_map_iff. exists d. split; [exact E|].
      apply filter_In. now split.
Qed.

(** ** A change of amount *)

Lemma generar_importe_del_plan (fe : frontend) (s : Store) (id anyo mes : Z) (v : Q) :
  (forall p, In p (planes s) -> pl_id p = id -> pl_importe p = v) ->
  forall d, In d (devengamientos_nuevos s (fst (generar fe s anyo mes))) ->
            dv_plan_id d = Some id -> dv_importe d = v.
Proof.
  intros H d Hd E.
  apply generar_nuevos_activos in Hd as (p & c & Hp & _ & _ & _ & _ & Hg).
  destruct Hg as (_ & G2 & _ & _ & G5). rewrite G5. apply H; [exact Hp | congruence].
Qed.

(** X22.  A change of the amount of a plan is never retroactive.  Saving a
    plan with a new amount, in a dashboard or in the text menu, leaves every
    accrual row and so every accrual balance as it was; and every accrual
    that a later generation creates for that plan, in any front-end and for
    any period, carries the new amount. *)
Theorem cambio_de_importe (fe : frontend) (s : Store) (id anyo mes : Z) (v : Q) :
  (forall v2 activo,
     snd (editar_plan v2 s id v activo) = Hecho ->
     devengamientos (fst (editar_plan v2 s id v activo)) = devengamientos s
     /\ (forall k, devengamiento_saldo (fst (editar_plan v2 s id v activo)) k
                   = devengamiento_saldo s k)
     /\ forall d,
          In d (devengamientos_nuevos (fst (editar_plan v2 s id v activo))
                  (fst (generar fe (fst (editar_plan v2 s id v activo)) anyo mes))) ->
          dv_plan_id d = Some id -> dv_importe d = v)
  /\ (forall fecha_inicio fecha_fin activo,
        snd (edit_plan s id (Some v) fecha_inicio fecha_fin activo) = Hecho ->
        devengamientos (fst (edit_plan s id (Some v) fecha_inicio fecha_fin activo))
        = devengamientos s
        /\ (forall k,
              devengamiento_saldo
                (fst (edit_plan s id (Some v) fecha_inicio fecha_fin activo)) k
              = devengamiento_saldo s k)
        /\ forall d,
             In d (devengamientos_nuevos
                     (fst (edit_plan s id (Some v) fecha_inicio fecha_fin activo))
                     (fst (generar fe
                             (fst (edit_plan s id (Some v) fecha_inicio fecha_fin activo))
                             anyo mes))) ->
             dv_plan_id d = Some id -> dv_importe d = v).
Proof.
  split.
  - intros v2 activo. unfold editar_plan.
    destruct (negb (seleccionado v2 id)); [discriminate|].
    destruct (negb (plan_encontrado s id)); [discriminate|].
    destruct (v2 && Qle_bool v 0); [discriminate|]. simpl. intros _.
    split; [reflexivity|]. split; [reflexivity|].
    apply generar_importe_del_plan. intros p Hp E.
    apply update_plan_filas in Hp as (q & _ & ->); auto.
  - intros fecha_inicio fecha_fin activo. unfold edit_plan.
    destruct (find _ (planes s)) as [plan|]; [|discriminate].
    destruct (Qle_bool 0 v); [|discriminate]. simpl. intros _.
    split; [reflexivity|]. split; [reflexivity|].
    apply generar_importe_del_plan. intros p Hp E.
    apply update_plan_filas in Hp as (q & _ & ->); auto.
Qed.

(** ** Worked instances of the allocation and overdue properties *)

(** Instance of X19: 1200 paid in the text menu against the accruals of
    1000 and 500 of [ej_marzo]. *)
Lemma cobro_automatico_no_sobrepasa_witness :
  (forall id,
     aplicado ej_marzo id
     <= aplicado (fst (record_cobro Cli ej_marzo 1 (mkdate 2024 4 5) 1200 Automatico)) id
     /\ aplicado (fst (record_cobro Cli ej_marzo 1 (mkdate 2024 4 5) 1200 Automatico)) id
        <= aplicado ej_marzo id + devengamiento_saldo ej_marzo id)
  /\ (forall d, In d (devengamientos ej_marzo) -> 0 <= saldo_bruto ej_marzo d ->
        0 <= saldo_bruto
               (fst (record_cobro Cli ej_marzo 1 (mkdate 2024 4 5) 1200 Automatico)) d)
  /\ (forall d, In d (devengamientos ej_marzo) -> dv_cliente_id d <> 1%Z ->
        aplicado (fst (record_cobro Cli ej_marzo 1 (mkdate 2024 4 5) 1200 Automatico))
          (dv_id d)
        == aplicado ej_marzo (dv_id d)).
Proof.
  apply (cobro_automatico_no_sobrepasa Cli ej_marzo 1 (mkdate 2024 4 5) 1200).
  exact pk_ej_marzo.
Defined.

Example cobro_automatico_ejemplo :
  map (fun i => (im_devengamiento_id i, im_monto i))
    (devengamientos_cobros
       (fst (record_cobro Cli ej_marzo 1 (mkdate 2024 4 5) 1200 Automatico)))
  = [(1%Z, 1000); (2%Z, 1200 - 1000)].
Proof. reflexivity. Qed.

(** Instance of X20: client 1 pays 600 and types "2:300,2:300"; accrual 2,
    of client 2 and with a balance of 300, receives 600. *)
Lemma manual_par_repetido_witness :
  devengamientos_cobros
    (r_store (fst (imputar_manual ej_ajeno ej_ajeno 1 1 600
                     [Some (2%Z, 300); Some (2%Z, 300)])))
  = devengamientos_cobros ej_ajeno
    ++ [mkImputacion (seq_devengamientos_cobros ej_ajeno + 1) 2 1 300;
        mkImputacion (seq_devengamientos_cobros ej_ajeno + 1 + 1) 2 1 300]
  /\ snd (imputar_manual ej_ajeno ej_ajeno 1 1 600 [Some (2%Z, 300); Some (2%Z, 300)])
     = [Aplicado 2 300; Aplicado 2 300]
  /\ aplicado
       (r_store (fst (imputar_manual ej_ajeno ej_ajeno 1 1 600
                        [Some (2%Z, 300); Some (2%Z, 300)]))) 2
     == aplicado ej_ajeno 2 + 300 + 300.
Proof.
  apply (manual_par_repetido ej_ajeno 1 1 2 600 300 300);
    try reflexivity; try discriminate.
Defined.

Example manual_par_repetido_ejemplo :
  devengamiento_saldo ej_ajeno 2 == 300
  /\ dv_cliente_id (mkDevengamiento 2 2 None 2024 1 300 (mkdate 2024 1 31)) = 2%Z
  /\ saldo_bruto
       (fst (record_cobro Cli ej_ajeno 1 (mkdate 2024 2 11) 600
               (Manual [Some (2%Z, 300); Some (2%Z, 300)])))
       (mkDevengamiento 2 2 None 2024 1 300 (mkdate 2024 1 31))
     == - 300.
Proof. repeat split. Qed.

(** Instance of X21: the report of 2024-03-15 with 30 days on [ej_morosos],
    whose query returns clients 2 and 1, with the test in exact arithmetic.
    Only client 1 is printed; app.py lists both, and the panel counts three
    clients. *)
Lemma reporte_morosos_cotas_witness :
  (List.length [(1%Z, deuda_vencida ej_morosos (mkdate 2024 2 14) 1)]
   <= List.length (clientes_vencidos ej_morosos (mkdate 2024 2 14)))%nat
  /\ 0 <= sum_montos (map snd [(1%Z, deuda_vencida ej_morosos (mkdate 2024 2 14) 1)])
  /\ forall hoy tb, dashboard ej_morosos hoy = Some tb ->
       sum_montos (map snd [(1%Z, deuda_vencida ej_morosos (mkdate 2024 2 14) 1)])
       <= tb_deuda_total tb
       /\ (restar_dias 30 hoy = Some (mkdate 2024 2 14) ->
           (List.length [(1%Z, deuda_vencida ej_morosos (mkdate 2024 2 14) 1)]
            <= tb_morosos_potenciales tb)%nat).
Proof.
  destruct (reporte_morosos_cotas supera_exacto ej_morosos (mkdate 2024 2 14)
              [2%Z; 1%Z]
              [(1%Z, deuda_vencida ej_morosos (mkdate 2024 2 14) 1)]
              (sum_montos (map snd [(1%Z, deuda_vencida ej_morosos (mkdate 2024 2 14) 1)])))
    as (_ & _ & _ & H3 & _ & H5 & H6).
  - intros d Hd. now apply Qltb_true.
  - intros d Hd. apply Qltb_false. now apply Qlt_le_weak.
  - vm_compute. apply perm_swap.
  - vm_compute. reflexivity.
  - split; [exact H3|]. split; [exact H5 | exact H6].
Defined.

(** Why the test of the report is an argument: the debt left on an accrual
    of 100.01 by an allocation of 100 is 0.01, and in binary64 the
    difference is above 0.01. *)
Example deuda_de_un_centavo :
  100.01 - 100 == eps
  /\ PrimFloat.ltb 0.01 (100.01 - 100)%float = true
  /\ supera_exacto (100.01 - 100) = false.
Proof. repeat split. Qed.

Example reporte_morosos_ejemplo :
  clientes_vencidos ej_morosos (mkdate 2024 2 14) = [1%Z; 2%Z]
  /\ restar_dias 30 (mkdate 2024 3 15) = Some (mkdate 2024 2 14)
  /\ deuda_vencida ej_morosos (mkdate 2024 2 14) 1 == 1000
  /\ deuda_vencida ej_morosos (mkdate 2024 2 14) 2 == 0
  /\ exists tb, dashboard ej_morosos (mkdate 2024 3 15) = Some tb
                /\ tb_morosos_potenciales tb = 3%nat
                /\ tb_deuda_total tb == 1200.
Proof.
  split; [vm_compute; reflexivity|]. split; [vm_compute; reflexivity|].
  split; [vm_compute; reflexivity|]. split; [vm_compute; reflexivity|].
  eexists. split; [vm_compute; reflexivity|].
  split; vm_compute; reflexivity.
Qed.

(** The amount of plan 2 of [ej_base] raised to 750 in a dashboard: the
    accrual of March 2024 carries 750. *)
Example cambio_de_importe_ejemplo :
  map (fun d => (dv_plan_id d, dv_importe d))
    (devengamientos
       (fst (generar Streamlit (fst (editar_plan false ej_base 2 750 true)) 2024 3)))
  = [(Some 1%Z, 1000); (Some 2%Z, 750)].
Proof. reflexivity. Qed.

(** ** The client counts of the two panels *)

(** X23.  The two summary panels side by side.  Their first four figures
    (active clients, active plans, accrued and collected in the month) are
    the same.  Their counts of clients in debt differ: appv2.py counts the
    clients with an accrual whose allocations are below its amount, leaving
    adjustments and the tolerance aside, and the text menu the clients with
    an accrual whose balance exceeds 0.01.  Over a database with distinct
    accrual ids in which the adjustments of no accrual add up to a positive
    amount, every client counted by the text menu is counted by appv2.py. *)
Theorem paneles_clientes (s : Store) (hoy : date) (tb : tablero) :
  pk_devengamientos s ->
  (forall d, In d (devengamientos s) -> ajustes_de s (dv_id d) <= 0) ->
  dashboard s hoy = Some tb ->
  tb_clientes_activos tb = clientes_activos (get_dashboard_metrics s hoy)
  /\ tb_planes_activos tb = planes_activos (get_dashboard_metrics s hoy)
  /\ tb_devengado_mes tb = devengado_mes (get_dashboard_metrics s hoy)
  /\ tb_cobrado_mes tb = cobrado_mes (get_dashboard_metrics s hoy)
  /\ (tb_clientes_con_deuda tb <= clientes_con_saldo (get_dashboard_metrics s hoy))%nat.
Proof.
  intros Hpk Haj Htb. unfold dashboard in Htb.
  destruct (restar_dias 30 hoy) as [fl|]; [|discriminate].
  injection Htb as <-. simpl.
  split; [reflexivity|]. split; [reflexivity|]. split; [reflexivity|].
  split; [reflexivity|].
  apply NoDup_incl_length; [apply NoDup_nodup|].
  intros c Hc. apply nodup_In in Hc. apply nodup_In.
  apply in_map_iff in Hc as (d & <- & Hd). apply in_map_iff. exists d.
  split; [reflexivity|].
  apply filter_In in Hd as [Hd Hq]. apply filter_In. split; [exact Hd|].
  apply existsb_exists. exists (dv_id d). split; [|apply Z.eqb_refl].
  apply in_map. apply filter_In. split; [exact Hd|].
  apply Qltb_true in Hq. apply Qltb_true.
  pose proof (saldo_es_bruto s d Hpk Hd) as Hb. specialize (Haj d Hd).
  unfold saldo_bruto in Hb.
  assert (Hm : Qmax 0 (dv_importe d + ajustes_de s (dv_id d) - aplicado s (dv_id d))
               == dv_importe d + ajustes_de s (dv_id d) - aplicado s (dv_id d)).
  { destruct (Qlt_le_dec
                (dv_importe d + ajustes_de s (dv_id d) - aplicado s (dv_id d)) 0)
      as [Hneg | Hpos].
    - rewrite Q.max_l in Hb by lra. rewrite Hb in Hq.
      exfalso. revert Hq. unfold eps. intro Hq. apply Qlt_not_le in Hq. apply Hq.
      discriminate.
    - now apply Q.max_r. }
  rewrite Hm in Hb. rewrite Hb in Hq. pose proof eps_pos. lra.
Qed.

(** Instance of X23 on [ej_abril]: one client in both panels. *)
Lemma paneles_clientes_witness :
  exists tb,
    dashboard ej_abril (mkdate 2024 4 20) = Some tb
    /\ tb_clientes_activos tb
       = clientes_activos (get_dashboard_metrics ej_abril (mkdate 2024 4 20))
    /\ tb_cobrado_mes tb = cobrado_mes (get_dashboard_metrics ej_abril (mkdate 2024 4 20))
    /\ (tb_clientes_con_deuda tb
        <= clientes_con_saldo (get_dashboard_metrics ej_abril (mkdate 2024 4 20)))%nat.
Proof.
  destruct (dashboard ej_abril (mkdate 2024 4 20)) as [tb|] eqn:E;
    [|vm_compute in E; discriminate].
  exists tb. split; [reflexivity|].
  destruct (paneles_clientes ej_abril (mkdate 2024 4 20) tb) as (H1 & _ & _ & H4 & H5).
  - exact (proj1 (proj1 (proj2 bien_formado_ej_abril))).
  - intros d Hd. por_filas; vm_compute; discriminate.
  - exact E.
  - now repeat split.
Defined.
